(** * iopipe-plugin-profiler: the capture and upload pipeline of src/index.js

    A shallow embedding of the [ProfilerPlugin] class: its constructor, the
    three lifecycle hooks ([preInvoke], [postInvoke], [postReport]), the
    signing round trip ([getSignedUrl]) and the event handlers that
    [postInvoke] installs on the archive and on the inspector session.

    The hooks are written in a small state-and-exception monad over the
    plugin's state.  Asynchronous code is cut at its [await]s and callbacks:
    each continuation is a handler, and the event loop is a step function
    that dispatches one event of the outside world (the signing reply, an
    inspector callback or notification, an archive event, the upload reply)
    to its handler. *)

From Stdlib Require Import List String Ascii Bool Arith ZArith NArith Lia.
From Stdlib Require DecimalFacts DecimalN.
Import ListNotations.

Set Warnings "-register-all".

Local Open Scope list_scope.

(** ** JSON values, [JSON.stringify] and [JSON.parse]

    The JavaScript built-ins the plugin calls, on JSON texts whose numbers
    are integer literals and whose strings are byte strings: a [\u] escape is
    read back only below code point 256.  Object members keep their
    insertion order; a repeated key overwrites the earlier value in place, as
    a JavaScript object does. *)

Module JSON.

Inductive json : Type :=
| JNull
| JBool (b : bool)
| JNum (z : Z)
| JStr (s : string)
| JArr (items : list json)
| JObj (members : list (string * json)).

Definition dquote : ascii := "034"%char.
Definition backslash : ascii := "092"%char.

Definition chars (s : string) : list ascii := list_ascii_of_string s.

(** *** Numbers *)

Fixpoint chars_of_uint (d : Decimal.uint) : list ascii :=
  match d with
  | Decimal.Nil => []
  | Decimal.D0 d => "0"%char :: chars_of_uint d
  | Decimal.D1 d => "1"%char :: chars_of_uint d
  | Decimal.D2 d => "2"%char :: chars_of_uint d
  | Decimal.D3 d => "3"%char :: chars_of_uint d
  | Decimal.D4 d => "4"%char :: chars_of_uint d
  | Decimal.D5 d => "5"%char :: chars_of_uint d
  | Decimal.D6 d => "6"%char :: chars_of_uint d
  | Decimal.D7 d => "7"%char :: chars_of_uint d
  | Decimal.D8 d => "8"%char :: chars_of_uint d
  | Decimal.D9 d => "9"%char :: chars_of_uint d
  end.

Definition digit_of (c : ascii) : option (Decimal.uint -> Decimal.uint) :=
  match nat_of_ascii c - 48, 48 <=? nat_of_ascii c with
  | 0, true => Some Decimal.D0
  | 1, _ => Some Decimal.D1
  | 2, _ => Some Decimal.D2
  | 3, _ => Some Decimal.D3
  | 4, _ => Some Decimal.D4
  | 5, _ => Some Decimal.D5
  | 6, _ => Some Decimal.D6
  | 7, _ => Some Decimal.D7
  | 8, _ => Some Decimal.D8
  | 9, _ => Some Decimal.D9
  | _, _ => None
  end.

Definition is_digit (c : ascii) : bool :=
  match digit_of c with Some _ => true | None => false end.

Fixpoint read_uint (s : list ascii) : Decimal.uint * list ascii :=
  match s with
  | [] => (Decimal.Nil, [])
  | c :: r =>
      match digit_of c with
      | Some k => let (d, r') := read_uint r in (k d, r')
      | None => (Decimal.Nil, s)
      end
  end.

(** A digit sequence is a JSON integer when normalising it (dropping leading
    zeros, reading the empty sequence as 0) leaves it as it is. *)
Definition canonical (d : Decimal.uint) : bool :=
  Decimal.uint_beq (Decimal.unorm d) d.

Definition read_N (s : list ascii) : option (N * list ascii) :=
  let (d, r) := read_uint s in
  if canonical d then Some (N.of_uint d, r) else None.

Definition print_N (n : N) : list ascii := chars_of_uint (N.to_uint n).

Definition print_Z (z : Z) : list ascii :=
  if (z <? 0)%Z then "-"%char :: print_N (Z.abs_N z) else print_N (Z.to_N z).

(** *** Strings *)

Definition hex_digit (n : nat) : ascii :=
  nth n (chars "0123456789abcdef") "0"%char.

Definition hex_value (c : ascii) : option nat :=
  let n := nat_of_ascii c in
  if (48 <=? n) && (n <=? 57) then Some (n - 48)
  else if (97 <=? n) && (n <=? 102) then Some (n - 87)
  else if (65 <=? n) && (n <=? 70) then Some (n - 55)
  else None.

Definition hex4 (a b c d : ascii) : option nat :=
  match hex_value a, hex_value b, hex_value c, hex_value d with
  | Some x, Some y, Some z, Some w => Some (((x * 16 + y) * 16 + z) * 16 + w)
  | _, _, _, _ => None
  end.

Definition escape_char (c : ascii) : list ascii :=
  if Ascii.eqb c dquote then [backslash; dquote]
  else if Ascii.eqb c backslash then [backslash; backslash]
  else
    let n := nat_of_ascii c in
    if n <? 32 then
      match n with
      | 8 => [backslash; "b"%char]
      | 9 => [backslash; "t"%char]
      | 10 => [backslash; "n"%char]
      | 12 => [backslash; "f"%char]
      | 13 => [backslash; "r"%char]
      | _ => [backslash; "u"%char; "0"%char; "0"%char;
              hex_digit (n / 16); hex_digit (n mod 16)]
      end
    else [c].

Definition unescape (e : ascii) : option ascii :=
  if Ascii.eqb e dquote then Some dquote
  else if Ascii.eqb e backslash then Some backslash
  else if Ascii.eqb e "/"%char then Some "/"%char
  else if Ascii.eqb e "b"%char then Some "008"%char
  else if Ascii.eqb e "f"%char then Some "012"%char
  else if Ascii.eqb e "n"%char then Some "010"%char
  else if Ascii.eqb e "r"%char then Some "013"%char
  else if Ascii.eqb e "t"%char then Some "009"%char
  else None.

Definition print_string (s : list ascii) : list ascii :=
  dquote :: flat_map escape_char s ++ [dquote].

(** Reads a string body up to its closing quote; [acc] holds the characters
    read so far, last one first. *)
Fixpoint read_string (s acc : list ascii) : option (list ascii * list ascii) :=
  match s with
  | [] => None
  | c :: r =>
      if Ascii.eqb c dquote then Some (rev acc, r)
      else if Ascii.eqb c backslash then
        match r with
        | [] => None
        | e :: r1 =>
            if Ascii.eqb e "u"%char then
              match r1 with
              | h1 :: h2 :: h3 :: h4 :: r2 =>
                  match hex4 h1 h2 h3 h4 with
                  | Some n =>
                      if n <? 256 then read_string r2 (ascii_of_nat n :: acc)
                      else None
                  | None => None
                  end
              | _ => None
              end
            else
              match unescape e with
              | Some c' => read_string r1 (c' :: acc)
              | None => None
              end
        end
      else if nat_of_ascii c <? 32 then None
      else read_string r (c :: acc)
  end.

(** *** Values *)

Fixpoint join (l : list (list ascii)) : list ascii :=
  match l with
  | [] => []
  | x :: l' =>
      match l' with
      | [] => x
      | _ :: _ => x ++ ","%char :: join l'
      end
  end.

Fixpoint print (v : json) : list ascii :=
  match v with
  | JNull => chars "null"
  | JBool true => chars "true"
  | JBool false => chars "false"
  | JNum z => print_Z z
  | JStr s => print_string (chars s)
  | JArr items => "["%char :: join (map print items) ++ ["]"%char]
  | JObj members =>
      "{"%char ::
      join (map (fun kv => print_string (chars (fst kv)) ++ ":"%char :: print (snd kv))
                members)
      ++ ["}"%char]
  end.

Definition is_ws (c : ascii) : bool :=
  let n := nat_of_ascii c in
  (n =? 32) || (n =? 9) || (n =? 10) || (n =? 13).

Fixpoint skip_ws (s : list ascii) : list ascii :=
  match s with
  | c :: r => if is_ws c then skip_ws r else s
  | [] => []
  end.

Fixpoint strip_prefix (p s : list ascii) : option (list ascii) :=
  match p, s with
  | [], _ => Some s
  | a :: p', b :: s' => if Ascii.eqb a b then strip_prefix p' s' else None
  | _ :: _, [] => None
  end.

(** [obj.k = v]: overwrite in place, or add as the last member. *)
Fixpoint obj_set (k : string) (v : json) (m : list (string * json))
  : list (string * json) :=
  match m with
  | [] => [(k, v)]
  | (k', v') :: m' =>
      if String.eqb k k' then (k, v) :: m' else (k', v') :: obj_set k v m'
  end.

Definition literal (word : string) (v : json) (s : list ascii)
  : option (json * list ascii) :=
  match strip_prefix (chars word) s with
  | Some r => Some (v, r)
  | None => None
  end.

Fixpoint parse_value (fuel : nat) (s : list ascii) {struct fuel}
  : option (json * list ascii) :=
  match fuel with
  | 0 => None
  | S fuel =>
      match skip_ws s with
      | [] => None
      | c :: r =>
          if Ascii.eqb c "{"%char then
            match skip_ws r with
            | [] => None
            | c' :: r' =>
                if Ascii.eqb c' "}"%char then Some (JObj [], r')
                else parse_members fuel r []
            end
          else if Ascii.eqb c "["%char then
            match skip_ws r with
            | [] => None
            | c' :: r' =>
                if Ascii.eqb c' "]"%char then Some (JArr [], r')
                else parse_elements fuel r []
            end
          else if Ascii.eqb c dquote then
            match read_string r [] with
            | Some (str, r') => Some (JStr (string_of_list_ascii str), r')
            | None => None
            end
          else if Ascii.eqb c "-"%char then
            match read_N r with
            | Some (n, r') => Some (JNum (- Z.of_N n), r')
            | None => None
            end
          else if is_digit c then
            match read_N (c :: r) with
            | Some (n, r') => Some (JNum (Z.of_N n), r')
            | None => None
            end
          else if Ascii.eqb c "t"%char then literal "true" (JBool true) (c :: r)
          else if Ascii.eqb c "f"%char then literal "false" (JBool false) (c :: r)
          else if Ascii.eqb c "n"%char then literal "null" JNull (c :: r)
          else None
      end
  end

with parse_elements (fuel : nat) (s : list ascii) (acc : list json) {struct fuel}
  : option (json * list ascii) :=
  match fuel with
  | 0 => None
  | S fuel =>
      match parse_value fuel s with
      | None => None
      | Some (v, r) =>
          match skip_ws r with
          | [] => None
          | c :: r' =>
              if Ascii.eqb c ","%char then parse_elements fuel r' (v :: acc)
              else if Ascii.eqb c "]"%char then Some (JArr (rev (v :: acc)), r')
              else None
          end
      end
  end

with parse_members (fuel : nat) (s : list ascii) (acc : list (string * json))
                   {struct fuel}
  : option (json * list ascii) :=
  match fuel with
  | 0 => None
  | S fuel =>
      match skip_ws s with
      | [] => None
      | c :: r =>
          if Ascii.eqb c dquote then
            match read_string r [] with
            | None => None
            | Some (k, r1) =>
                match skip_ws r1 with
                | [] => None
                | c1 :: r2 =>
                    if Ascii.eqb c1 ":"%char then
                      match parse_value fuel r2 with
                      | None => None
                      | Some (v, r3) =>
                          let acc' := obj_set (string_of_list_ascii k) v acc in
                          match skip_ws r3 with
                          | [] => None
                          | c3 :: r4 =>
                              if Ascii.eqb c3 ","%char then parse_members fuel r4 acc'
                              else if Ascii.eqb c3 "}"%char then Some (JObj acc', r4)
                              else None
                          end
                      end
                    else None
                end
            end
          else None
      end
  end.

Definition fuel_for (s : list ascii) : nat := 2 * List.length s + 1.

(** [JSON.stringify(v)] for a JSON value [v]. *)
Definition stringify (v : json) : string := string_of_list_ascii (print v).

(** [JSON.parse(text)]: [None] stands for the SyntaxError it throws. *)
Definition parse (text : string) : option json :=
  let s := chars text in
  match parse_value (fuel_for s) s with
  | Some (v, r) => match skip_ws r with [] => Some v | _ :: _ => None end
  | None => None
  end.

(** Objects that JSON texts denote: no key occurs twice in an object. *)
Fixpoint nodup_keys (ks : list string) : bool :=
  match ks with
  | [] => true
  | k :: ks' => negb (existsb (String.eqb k) ks') && nodup_keys ks'
  end.

Fixpoint wf (v : json) : bool :=
  match v with
  | JArr items => forallb wf items
  | JObj members =>
      nodup_keys (map fst members) && forallb (fun kv => wf (snd kv)) members
  | _ => true
  end.

(** Node count of a value: the fuel [parse_value] needs to read it back. *)
Fixpoint size (v : json) : nat :=
  match v with
  | JArr items => S (list_sum (map (fun x => S (size x)) items))
  | JObj members => S (list_sum (map (fun kv => S (size (snd kv))) members))
  | _ => 1
  end.

End JSON.

Import JSON.

(** Induction on JSON values, with the hypothesis for every item of an array
    and every member of an object. *)
Section json_induction.

Variable P : json -> Prop.
Hypothesis HNull : P JNull.
Hypothesis HBool : forall b, P (JBool b).
Hypothesis HNum : forall z, P (JNum z).
Hypothesis HStr : forall s, P (JStr s).
Hypothesis HArr : forall items, Forall P items -> P (JArr items).
Hypothesis HObj :
  forall members, Forall (fun kv => P (snd kv)) members -> P (JObj members).

Fixpoint json_ind' (v : json) : P v :=
  match v with
  | JNull => HNull
  | JBool b => HBool b
  | JNum z => HNum z
  | JStr s => HStr s
  | JArr items =>
      HArr items
        ((fix all (l : list json) : Forall P l :=
            match l with
            | [] => Forall_nil _
            | x :: l' => Forall_cons x (json_ind' x) (all l')
            end) items)
  | JObj members =>
      HObj members
        ((fix all (l : list (string * json))
            : Forall (fun kv => P (snd kv)) l :=
            match l with
            | [] => Forall_nil _
            | (k, x) :: l' =>
                Forall_cons (P := fun kv => P (snd kv)) (k, x)
                            (json_ind' x) (all l')
            end) members)
  end.

End json_induction.

(** The characters a printed value can start with. *)
Definition value_start (c : ascii) : bool :=
  Ascii.eqb c "{" || Ascii.eqb c "[" || Ascii.eqb c dquote || Ascii.eqb c "-"
  || is_digit c || Ascii.eqb c "t" || Ascii.eqb c "f" || Ascii.eqb c "n".

(** What may follow a printed number: anything but a digit. *)
Definition no_digit_head (s : list ascii) : bool :=
  match s with
  | [] => true
  | c :: _ => negb (is_digit c)
  end.

Definition member_text (kv : string * json) : list ascii :=
  print_string (chars (fst kv)) ++ ":"%char :: print (snd kv).

(** [parse_value] reads a printed value back, given fuel for its nodes. *)
Definition reads_back (v : json) : Prop :=
  wf v = true ->
  forall fuel rest, size v <= fuel -> no_digit_head rest = true ->
  parse_value fuel (print v ++ rest) = Some (v, rest).

(** ** JavaScript values and outcomes *)

(** A value that is a JSON value or [undefined]. *)
Definition jsval : Type := option json.
Definition undefined : jsval := None.

(** What a call gives: a value, or the exception it throws (for a promise:
    the value it fulfils with, or the reason it rejects with). *)
Inductive result (A : Type) : Type :=
| Ok (a : A)
| Throw (e : string).
Arguments Ok {A} a.
Arguments Throw {A} e.

Fixpoint lookup (k : string) (m : list (string * json)) : jsval :=
  match m with
  | [] => undefined
  | (k', v) :: m' => if String.eqb k k' then Some v else lookup k m'
  end.

(** [v.k], and the parameter pattern [{ k }] applied to [v]: a TypeError on
    [undefined] and [null], [undefined] on a value without the property.
    The plugin reads [jwtAccess], [signedRequest], [profile] and [chunk],
    which no string, number, boolean or array has. *)
Definition prop (v : jsval) (k : string) : result jsval :=
  match v with
  | None => Throw "TypeError: Cannot read properties of undefined"
  | Some JNull => Throw "TypeError: Cannot read properties of null"
  | Some (JObj m) => Ok (lookup k m)
  | Some _ => Ok undefined
  end.

(** The condition of [if (v)]. *)
Definition truthy (v : jsval) : bool :=
  match v with
  | None | Some JNull | Some (JBool false) => false
  | Some (JNum z) => negb (z =? 0)%Z
  | Some (JStr s) => negb (String.eqb s "")
  | Some _ => true
  end.

(** [JSON.stringify(v)]: [undefined] for [undefined]. *)
Definition JSON_stringify (v : jsval) : option string :=
  match v with
  | Some j => Some (stringify j)
  | None => None
  end.

(** [JSON.parse(text)]. *)
Definition JSON_parse (text : string) : result json :=
  match parse text with
  | Some j => Ok j
  | None => Throw "SyntaxError: Unexpected token in JSON"
  end.

(** An object literal as [JSON.stringify] prints it: members whose value is
    [undefined] are left out. *)
Definition object_literal (fields : list (string * jsval)) : json :=
  JObj (flat_map (fun kv => match snd kv with
                            | Some v => [(fst kv, v)]
                            | None => []
                            end) fields).

(** [`${n}`] for a count. *)
Definition show_nat (n : nat) : string :=
  string_of_list_ascii (chars_of_uint (Nat.to_uint n)).

(** ** The plugin's data *)

Module Config.
Record t : Type := mk {
  recSamples : bool;
  sampleRate : Z;
  enabled : bool;
  heapSnapshot : bool;
  debug : bool
}.

(** The caller's options: any subset of the keys. *)
Record opts : Type := mkOpts {
  o_recSamples : option bool;
  o_sampleRate : option Z;
  o_enabled : option bool;
  o_heapSnapshot : option bool;
  o_debug : option bool
}.
End Config.

Definition defaultConfig : Config.t :=
  {| Config.recSamples := true;
     Config.sampleRate := 1000;
     Config.enabled := false;
     Config.heapSnapshot := false;
     Config.debug := false |}.

(** [Object.assign({}, defaultConfig, pluginConfig)]. *)
Definition assign_config (d : Config.t) (o : Config.opts) : Config.t :=
  let pick {A} (x : option A) (y : A) := match x with Some a => a | None => y end in
  {| Config.recSamples := pick (Config.o_recSamples o) (Config.recSamples d);
     Config.sampleRate := pick (Config.o_sampleRate o) (Config.sampleRate d);
     Config.enabled := pick (Config.o_enabled o) (Config.enabled d);
     Config.heapSnapshot := pick (Config.o_heapSnapshot o) (Config.heapSnapshot d);
     Config.debug := pick (Config.o_debug o) (Config.debug d) |}.

Record Context : Type := {
  invokedFunctionArn : jsval;
  awsRequestId : jsval
}.

Record InvocationInstance : Type := {
  startTimestamp : jsval;
  context : option Context;
  config_clientId : jsval
}.

(** The inspector session is a collaborator: what its calls throw is given
    by a backend, as a function of whether the session is connected. *)
Record Backend : Type := {
  connect_error : bool -> option string;
  disconnect_error : bool -> option string;
  post_error : bool -> string -> option string
}.

Record Session : Type := {
  connected : bool;
  backend : Backend
}.

(** Node's [inspector.Session]: [connect] throws on a connected session,
    [disconnect] does nothing on a disconnected one, [post] throws on a
    disconnected one. *)
Definition node_backend : Backend :=
  {| connect_error := fun c =>
       if c then Some "Error [ERR_INSPECTOR_ALREADY_CONNECTED]"%string else None;
     disconnect_error := fun _ => None;
     post_error := fun c _ =>
       if c then None else Some "Error [ERR_INSPECTOR_NOT_CONNECTED]"%string |}.

Record Plugin : Type := {
  invocationInstance : option InvocationInstance;
  token : jsval;
  config : Config.t;
  profilerEnabled : bool;
  heapsnapshotEnabled : bool;
  enabled : bool;
  uploads : list jsval;
  inspector : Session
}.

Record Pkg : Type := {
  pkg_name : string;
  pkg_version : string;
  pkg_homepage : string
}.

(** What the module reads from outside: ../package.json, the process
    environment as ./enabled sees it, the host that ./signer returns, and the
    backend of the sessions that [new inspector.Session()] makes. *)
Record Env : Type := {
  pkg : Pkg;
  process_env : string -> option bool;
  signerHostname : string;
  session_backend : Backend
}.

Module FlagResolver.
(** Modelled from the spec: ./enabled is not under src/.  An environment
    override, when present and readable as a boolean, wins; otherwise the
    configuration default is the answer. *)
Definition enabled (environment : string -> option bool)
           (envVarName : string) (configDefault : bool) : bool :=
  match environment envVarName with
  | Some b => b
  | None => configDefault
  end.
End FlagResolver.

(** *** The archive and the heap stream *)

Module Archiver.
(** What [archive.append] is given: a string, or the heap stream. *)
Inductive Source : Type :=
| SrcString (data : string)
| SrcStream.

Record Entry : Type := {
  name : string;
  source : Source
}.

(** The archiver, as far as the plugin drives and observes it: the entries
    appended, how many of them it has reported by an 'entry' event, how
    often [finalize] was called, and whether 'finish' has fired. *)
Record t : Type := {
  queue : list Entry;
  emitted : nat;
  finalizeCalls : nat;
  finished : bool
}.

Definition create : t :=
  {| queue := []; emitted := 0; finalizeCalls := 0; finished := false |}.
End Archiver.

(** [new stream.PassThrough()]: what was written, whether it was ended, and
    whether it was destroyed. *)
Record PassThrough : Type := {
  written : list string;
  ended : bool;
  destroyed : bool
}.

Definition new_PassThrough : PassThrough :=
  {| written := []; ended := false; destroyed := false |}.

(** *** Requests and the promise *)

Inductive Target : Type :=
| SignerHost (hostname path : string)
| ParsedUrl (url : string).

Record Request : Type := {
  body : string;
  method : string;
  target : Target;
  auth : jsval
}.

(** The promise that [postInvoke] returns.  Its executor takes [resolve]
    only, and an [async] function throws nothing to its caller: the promise
    is pending or resolved, never rejected. *)
Inductive PromiseState : Type :=
| NotCalled
| Pending
| Resolved (v : jsval).

(** *** The state

    [this] is the plugin instance.  The fields from [promise] to [heap] are
    the variables of the closure that one call of [postInvoke] creates; the
    four flags say which of its continuations are waiting: the [await] of the
    signing request, the callbacks of the two inspector requests, the
    [await] of the upload.  [enablePosted] lists the requests of [preInvoke]
    whose callback has not run.  [posted], [console], [network] and
    [uncaught] record what the plugin does to the outside: the requests sent
    to the inspector, the lines printed, the HTTP requests issued, and the
    exceptions and rejections that the plugin did not catch. *)
Record St : Type := mkSt {
  this : Plugin;
  env : Env;
  promise : PromiseState;
  filesSeen : nat;
  filesCount : nat;
  signedRequestURL : jsval;
  archive : option Archiver.t;
  archiveBuffer : list string;
  heap : option PassThrough;
  awaitingSign : bool;
  stopPosted : bool;
  snapshotPosted : bool;
  awaitingPut : bool;
  enablePosted : list string;
  posted : list (string * jsval);
  console : list string;
  network : list Request;
  uncaught : list string
}.

(** The assignments to one field. *)

Definition set_this (v : Plugin) (s : St) : St :=
  mkSt v (env s) (promise s) (filesSeen s) (filesCount s) (signedRequestURL s)
    (archive s) (archiveBuffer s) (heap s) (awaitingSign s) (stopPosted s)
    (snapshotPosted s) (awaitingPut s) (enablePosted s) (posted s) (console s)
    (network s) (uncaught s).

Definition set_promise (v : PromiseState) (s : St) : St :=
  mkSt (this s) (env s) v (filesSeen s) (filesCount s) (signedRequestURL s)
    (archive s) (archiveBuffer s) (heap s) (awaitingSign s) (stopPosted s)
    (snapshotPosted s) (awaitingPut s) (enablePosted s) (posted s) (console s)
    (network s) (uncaught s).

Definition set_filesSeen (v : nat) (s : St) : St :=
  mkSt (this s) (env s) (promise s) v (filesCount s) (signedRequestURL s)
    (archive s) (archiveBuffer s) (heap s) (awaitingSign s) (stopPosted s)
    (snapshotPosted s) (awaitingPut s) (enablePosted s) (posted s) (console s)
    (network s) (uncaught s).

Definition set_filesCount (v : nat) (s : St) : St :=
  mkSt (this s) (env s) (promise s) (filesSeen s) v (signedRequestURL s)
    (archive s) (archiveBuffer s) (heap s) (awaitingSign s) (stopPosted s)
    (snapshotPosted s) (awaitingPut s) (enablePosted s) (posted s) (console s)
    (network s) (uncaught s).

Definition set_signedRequestURL (v : jsval) (s : St) : St :=
  mkSt (this s) (env s) (promise s) (filesSeen s) (filesCount s) v (archive s)
    (archiveBuffer s) (heap s) (awaitingSign s) (stopPosted s)
    (snapshotPosted s) (awaitingPut s) (enablePosted s) (posted s) (console s)
    (network s) (uncaught s).

Definition set_archive (v : option Archiver.t) (s : St) : St :=
  mkSt (this s) (env s) (promise s) (filesSeen s) (filesCount s)
    (signedRequestURL s) v (archiveBuffer s) (heap s) (awaitingSign s)
    (stopPosted s) (snapshotPosted s) (awaitingPut s) (enablePosted s)
    (posted s) (console s) (network s) (uncaught s).

Definition set_archiveBuffer (v : list string) (s : St) : St :=
  mkSt (this s) (env s) (promise s) (filesSeen s) (filesCount s)
    (signedRequestURL s) (archive s) v (heap s) (awaitingSign s)
    (stopPosted s) (snapshotPosted s) (awaitingPut s) (enablePosted s)
    (posted s) (console s) (network s) (uncaught s).

Definition set_heap (v : option PassThrough) (s : St) : St :=
  mkSt (this s) (env s) (promise s) (filesSeen s) (filesCount s)
    (signedRequestURL s) (archive s) (archiveBuffer s) v (awaitingSign s)
    (stopPosted s) (snapshotPosted s) (awaitingPut s) (enablePosted s)
    (posted s) (console s) (network s) (uncaught s).

Definition set_awaitingSign (v : bool) (s : St) : St :=
  mkSt (this s) (env s) (promise s) (filesSeen s) (filesCount s)
    (signedRequestURL s) (archive s) (archiveBuffer s) (heap s) v
    (stopPosted s) (snapshotPosted s) (awaitingPut s) (enablePosted s)
    (posted s) (console s) (network s) (uncaught s).

Definition set_stopPosted (v : bool) (s : St) : St :=
  mkSt (this s) (env s) (promise s) (filesSeen s) (filesCount s)
    (signedRequestURL s) (archive s) (archiveBuffer s) (heap s)
    (awaitingSign s) v (snapshotPosted s) (awaitingPut s) (enablePosted s)
    (posted s) (console s) (network s) (uncaught s).

Definition set_snapshotPosted (v : bool) (s : St) : St :=
  mkSt (this s) (env s) (promise s) (filesSeen s) (filesCount s)
    (signedRequestURL s) (archive s) (archiveBuffer s) (heap s)
    (awaitingSign s) (stopPosted s) v (awaitingPut s) (enablePosted s)
    (posted s) (console s) (network s) (uncaught s).

Definition set_awaitingPut (v : bool) (s : St) : St :=
  mkSt (this s) (env s) (promise s) (filesSeen s) (filesCount s)
    (signedRequestURL s) (archive s) (archiveBuffer s) (heap s)
    (awaitingSign s) (stopPosted s) (snapshotPosted s) v (enablePosted s)
    (posted s) (console s) (network s) (uncaught s).

Definition set_enablePosted (v : list string) (s : St) : St :=
  mkSt (this s) (env s) (promise s) (filesSeen s) (filesCount s)
    (signedRequestURL s) (archive s) (archiveBuffer s) (heap s)
    (awaitingSign s) (stopPosted s) (snapshotPosted s) (awaitingPut s) v
    (posted s) (console s) (network s) (uncaught s).

Definition set_posted (v : list (string * jsval)) (s : St) : St :=
  mkSt (this s) (env s) (promise s) (filesSeen s) (filesCount s)
    (signedRequestURL s) (archive s) (archiveBuffer s) (heap s)
    (awaitingSign s) (stopPosted s) (snapshotPosted s) (awaitingPut s)
    (enablePosted s) v (console s) (network s) (uncaught s).

Definition set_console (v : list string) (s : St) : St :=
  mkSt (this s) (env s) (promise s) (filesSeen s) (filesCount s)
    (signedRequestURL s) (archive s) (archiveBuffer s) (heap s)
    (awaitingSign s) (stopPosted s) (snapshotPosted s) (awaitingPut s)
    (enablePosted s) (posted s) v (network s) (uncaught s).

Definition set_network (v : list Request) (s : St) : St :=
  mkSt (this s) (env s) (promise s) (filesSeen s) (filesCount s)
    (signedRequestURL s) (archive s) (archiveBuffer s) (heap s)
    (awaitingSign s) (stopPosted s) (snapshotPosted s) (awaitingPut s)
    (enablePosted s) (posted s) (console s) v (uncaught s).

Definition set_uncaught (v : list string) (s : St) : St :=
  mkSt (this s) (env s) (promise s) (filesSeen s) (filesCount s)
    (signedRequestURL s) (archive s) (archiveBuffer s) (heap s)
    (awaitingSign s) (stopPosted s) (snapshotPosted s) (awaitingPut s)
    (enablePosted s) (posted s) (console s) (network s) v.

Definition set_uploads (v : list jsval) (p : Plugin) : Plugin :=
  {| invocationInstance := invocationInstance p; token := token p;
     config := config p; profilerEnabled := profilerEnabled p;
     heapsnapshotEnabled := heapsnapshotEnabled p; enabled := enabled p;
     uploads := v; inspector := inspector p |}.

Definition set_inspector (v : Session) (p : Plugin) : Plugin :=
  {| invocationInstance := invocationInstance p; token := token p;
     config := config p; profilerEnabled := profilerEnabled p;
     heapsnapshotEnabled := heapsnapshotEnabled p; enabled := enabled p;
     uploads := uploads p; inspector := v |}.

(** ** The monad: state, and exceptions *)

Definition Js (A : Type) : Type := St -> St * result A.

Definition ret {A} (a : A) : Js A := fun s => (s, Ok a).

Definition throw {A} (e : string) : Js A := fun s => (s, Throw e).

Definition bind {A B} (m : Js A) (k : A -> Js B) : Js B :=
  fun s =>
    match m s with
    | (s', Ok a) => k a s'
    | (s', Throw e) => (s', Throw e)
    end.

(** [try { m } catch (e) { h e }]. *)
Definition try_catch {A} (m : Js A) (h : string -> Js A) : Js A :=
  fun s =>
    match m s with
    | (s', Ok a) => (s', Ok a)
    | (s', Throw e) => h e s'
    end.

Definition gets {A} (f : St -> A) : Js A := fun s => (s, Ok (f s)).

Definition modify (f : St -> St) : Js unit := fun s => (f s, Ok tt).

Definition lift {A} (r : result A) : Js A := fun s => (s, r).

Definition when (b : bool) (m : Js unit) : Js unit := if b then m else ret tt.

Declare Scope js_scope.
Delimit Scope js_scope with js.
Notation "x <- m ;; k" := (bind m (fun x => k))
  (at level 61, m at next level, right associativity) : js_scope.
Notation "m ;; k" := (bind m (fun _ => k))
  (at level 61, right associativity) : js_scope.
Local Open Scope js_scope.

(** ** The class *)

(** [new ProfilerPlugin(pluginConfig, invocationInstance)]; an absent
    [pluginConfig] takes the parameter's default. *)
Definition ProfilerPlugin (e : Env) (pluginConfig : option Config.opts)
           (inst : option InvocationInstance) : Plugin :=
  let cfg := match pluginConfig with
             | Some o => assign_config defaultConfig o
             | None => defaultConfig
             end in
  let token := match inst with
               | Some i => config_clientId i
               | None => undefined
               end in
  let profilerEnabled :=
    FlagResolver.enabled (process_env e) "IOPIPE_ENABLE_PROFILER"
                         (Config.enabled cfg) in
  let heapsnapshotEnabled :=
    FlagResolver.enabled (process_env e) "IOPIPE_ENABLE_HEAPSNAPSHOT"
                         (Config.heapSnapshot cfg) in
  {| invocationInstance := inst;
     token := token;
     config := cfg;
     profilerEnabled := profilerEnabled;
     heapsnapshotEnabled := heapsnapshotEnabled;
     enabled := profilerEnabled || heapsnapshotEnabled;
     uploads := [];
     inspector := {| connected := false; backend := session_backend e |} |}.

(** The state in which a new instance starts: no hook has run. *)
Definition instantiateProfilerPlugin (e : Env) (pluginOpts : option Config.opts)
           (invocationInstance : option InvocationInstance) : St :=
  {| this := ProfilerPlugin e pluginOpts invocationInstance;
     env := e;
     promise := NotCalled;
     filesSeen := 0;
     filesCount := 0;
     signedRequestURL := undefined;
     archive := None;
     archiveBuffer := [];
     heap := None;
     awaitingSign := false;
     stopPosted := false;
     snapshotPosted := false;
     awaitingPut := false;
     enablePosted := [];
     posted := [];
     console := [];
     network := [];
     uncaught := [] |}.

(** [this.config.debug ? console.log(...) : null]. *)
Definition log (logline : string) : Js unit :=
  modify (fun s =>
    set_console (if Config.debug (config (this s))
                 then console s ++ ["@iopipe/profiler::" ++ logline]%string
                 else console s) s).

Record Meta : Type := {
  name : string;
  version : string;
  homepage : string;
  meta_enabled : bool;
  meta_uploads : list jsval
}.

Definition meta (s : St) : Meta :=
  {| name := pkg_name (pkg (env s));
     version := pkg_version (pkg (env s));
     homepage := pkg_homepage (pkg (env s));
     meta_enabled := enabled (this s);
     meta_uploads := uploads (this s) |}.

(** *** The inspector session's methods *)

Definition inspector_disconnect : Js unit :=
  i <- gets (fun s => inspector (this s)) ;;
  match disconnect_error (backend i) (connected i) with
  | Some err => throw err
  | None =>
      modify (fun s =>
        set_this (set_inspector {| connected := false; backend := backend i |}
                                (this s)) s)
  end.

Definition inspector_connect : Js unit :=
  i <- gets (fun s => inspector (this s)) ;;
  match connect_error (backend i) (connected i) with
  | Some err => throw err
  | None =>
      modify (fun s =>
        set_this (set_inspector {| connected := true; backend := backend i |}
                                (this s)) s)
  end.

(** [this.inspector.post(method, params, callback)]: throws, or sends the
    request.  The callback runs at the reply, which is an event of its own
    ([EnablingReply], [ProfilerStopped], [SnapshotTaken]); Node's session
    delivers it before [post] returns, another session may deliver it
    later. *)
Definition inspector_post (method : string) (params : jsval) : Js unit :=
  i <- gets (fun s => inspector (this s)) ;;
  match post_error (backend i) (connected i) method with
  | Some err => throw err
  | None => modify (fun s => set_posted (posted s ++ [(method, params)]) s)
  end.

(** A request of [preInvoke]. *)
Definition post_enabling (method : string) (params : jsval) : Js unit :=
  inspector_post method params ;;
  modify (fun s => set_enablePosted (enablePosted s ++ [method]) s).

Definition log_if_error (prefix : string) (err : option string) : Js unit :=
  match err with
  | Some e => log (prefix ++ e)
  | None => ret tt
  end.

Definition preInvoke : Js unit :=
  en <- gets (fun s => enabled (this s)) ;;
  if negb en then ret tt
  else
    try_catch inspector_disconnect
      (fun err => log ("warning disconnecting to inspector: " ++ err)) ;;
    try_catch inspector_connect
      (fun err => log ("warning connecting to inspector: " ++ err)) ;;
    h <- gets (fun s => heapsnapshotEnabled (this s)) ;;
    when h (post_enabling "HeapProfiler.enable" undefined) ;;
    p <- gets (fun s => profilerEnabled (this s)) ;;
    when p (post_enabling "Profiler.enable" undefined).

(** The callbacks of [preInvoke]'s requests, by the request they answer. *)
Definition on_enabling_reply (method : string) (err : option string) : Js unit :=
  if String.eqb method "HeapProfiler.enable" then
    log_if_error "Error enabling profiler::" err
  else if String.eqb method "Profiler.enable" then
    log_if_error "Error enabling profiler::" err ;;
    rate <- gets (fun s => Config.sampleRate (config (this s))) ;;
    post_enabling "Profiler.setSamplingInterval"
                  (Some (JObj [("interval"%string, JNum rate)]))
  else if String.eqb method "Profiler.setSamplingInterval" then
    log_if_error "Error from profiler::" err ;;
    post_enabling "Profiler.start" undefined
  else if String.eqb method "Profiler.start" then
    log_if_error "Error starting profiler::" err
  else ret tt.

(** *** [getSignedUrl] *)

(** Modelled from the spec: ./request is not under src/.  It performs one
    POST or PUT, given body, method, target and an optional token, and gives
    the raw response body or fails: here the request goes out, and its
    promise settles by a later event. *)
Definition request (r : Request) : Js unit :=
  modify (fun s => set_network (network s ++ [r]) s).

(** [getSignedUrl] up to its [await]. *)
Definition getSignedUrl_request : Js unit :=
  obj <- gets (fun s => invocationInstance (this s)) ;;
  match obj with
  | None => throw "TypeError: Cannot destructure property 'startTimestamp'"
  | Some o =>
      let ctx := match context o with
                 | Some c => c
                 | None => {| invokedFunctionArn := undefined;
                              awsRequestId := undefined |}
                 end in
      hostname <- gets (fun s => signerHostname (env s)) ;;
      log ("Requesting signed url from " ++ hostname) ;;
      tok <- gets (fun s => token (this s)) ;;
      request {| body := stringify (object_literal
                           [("arn"%string, invokedFunctionArn ctx);
                            ("requestId"%string, awsRequestId ctx);
                            ("timestamp"%string, startTimestamp o);
                            ("extension"%string, Some (JStr ".zip"))]);
                 method := "POST";
                 target := SignerHost hostname "/";
                 auth := tok |} ;;
      modify (set_awaitingSign true)
  end.

(** [getSignedUrl] from its [await] on: [signingRes] is what the request's
    promise settled with. *)
Definition getSignedUrl_resume (signingRes : result string) : Js jsval :=
  res <- lift signingRes ;;
  response <- lift (JSON_parse res) ;;
  jwtAccess <- lift (prop (Some response) "jwtAccess") ;;
  modify (fun s => set_this (set_uploads (uploads (this s) ++ [jwtAccess])
                                         (this s)) s) ;;
  lift (prop (Some response) "signedRequest").

(** *** [postInvoke] *)

Definition resolve : Js unit :=
  modify (fun s => match promise s with
                   | Pending => set_promise (Resolved undefined) s
                   | _ => s
                   end).

Definition update_archive (f : Archiver.t -> Archiver.t) : Js unit :=
  modify (fun s => match archive s with
                   | Some a => set_archive (Some (f a)) s
                   | None => s
                   end).

(** [archive.append(source, { name })].  The archiver emits an 'error' event
    when its queue is closed or the source is neither string, buffer nor
    stream; the plugin installs no 'error' listener, so the event is thrown. *)
Definition archive_append (src : option Archiver.Source) (entryName : string)
  : Js unit :=
  a <- gets archive ;;
  match a, src with
  | None, _ => throw "TypeError: archive is not defined"
  | Some a, None =>
      throw "ArchiverError: input source must be valid Stream or Buffer instance"
  | Some a, Some source =>
      if 0 <? Archiver.finalizeCalls a then throw "ArchiverError: queue closed"
      else
        modify (set_archive (Some
          {| Archiver.queue := Archiver.queue a ++
                                 [{| Archiver.name := entryName;
                                     Archiver.source := source |}];
             Archiver.emitted := Archiver.emitted a;
             Archiver.finalizeCalls := Archiver.finalizeCalls a;
             Archiver.finished := Archiver.finished a |}))
  end.

Definition archive_finalize : Js unit :=
  update_archive (fun a =>
    {| Archiver.queue := Archiver.queue a;
       Archiver.emitted := Archiver.emitted a;
       Archiver.finalizeCalls := S (Archiver.finalizeCalls a);
       Archiver.finished := Archiver.finished a |}).

(** [archive.on('data', chunk => ...)]. *)
Definition on_archive_data (chunk : string) : Js unit :=
  modify (fun s => set_archiveBuffer (archiveBuffer s ++ [chunk]) s).

(** [urlLib.parse(u)]: a TypeError unless [u] is a string. *)
Definition url_parse (u : jsval) : result string :=
  match u with
  | Some (JStr url) => Ok url
  | _ => Throw "TypeError [ERR_INVALID_ARG_TYPE]: The url argument must be of type string"
  end.

Definition Buffer_concat (chunks : list string) : string :=
  String.concat "" chunks.

(** [archive.on('finish', async () => ...)] up to its [await]. *)
Definition on_archive_finish : Js unit :=
  buf <- gets archiveBuffer ;;
  url <- gets signedRequestURL ;;
  parsed <- lift (url_parse url) ;;
  request {| body := Buffer_concat buf;
             method := "PUT";
             target := ParsedUrl parsed;
             auth := undefined |} ;;
  modify (set_awaitingPut true).

(** The 'finish' listener from its [await] on. *)
Definition on_upload_settled (r : result string) : Js unit :=
  _ <- lift r ;;
  resolve.

(** [archive.on('entry', () => ...)]. *)
Definition on_archive_entry : Js unit :=
  seen <- gets filesSeen ;;
  count <- gets filesCount ;;
  log ("Archive received entry [" ++ show_nat seen ++ "/" ++ show_nat count ++ "]") ;;
  modify (set_filesSeen (S seen)) ;;
  if count <=? S seen then
    log "Last entry. Finalizing archive." ;;
    archive_finalize
  else ret tt.

(** The callback of [Profiler.stop]: [(err, { profile }) => ...]. *)
Definition on_profiler_stop (err : option string) (res : jsval) : Js unit :=
  profile <- lift (prop res "profile") ;;
  log "adding cpuprofile to archive." ;;
  archive_append (option_map Archiver.SrcString (JSON_stringify profile))
                 "profile.cpuprofile".

Definition update_heap (f : PassThrough -> PassThrough) : Js unit :=
  modify (fun s => match heap s with
                   | Some h => set_heap (Some (f h)) s
                   | None => s
                   end).

Definition heap_end : Js unit :=
  update_heap (fun h => {| written := written h; ended := true;
                           destroyed := destroyed h |}).

(** [heap.write(chunk)]: a string is appended; anything else is a TypeError.
    A write after [end] does not throw: the stream reports the error on
    itself and is destroyed. *)
Definition heap_write (chunk : jsval) : Js unit :=
  h <- gets heap ;;
  match h, chunk with
  | Some h, Some (JStr c) =>
      if ended h
      then update_heap (fun h => {| written := written h; ended := ended h;
                                    destroyed := true |})
      else update_heap (fun h => {| written := written h ++ [c];
                                    ended := ended h;
                                    destroyed := destroyed h |})
  | _, _ => throw "TypeError [ERR_INVALID_ARG_TYPE]: The chunk argument must be of type string"
  end.

(** The array pattern [[, , finished]] on the argument of a call: the third
    element of an array (or [undefined]), the third character of a string,
    and a TypeError on a value that cannot be iterated. *)
Definition third_of_pattern (v : jsval) : result jsval :=
  match v with
  | Some (JArr items) => Ok (nth_error items 2)
  | Some (JStr s) =>
      Ok (match chars s with
          | _ :: _ :: c :: _ => Some (JStr (String c EmptyString))
          | _ => undefined
          end)
  | None => Throw "TypeError: undefined is not iterable"
  | Some _ => Throw "TypeError: object is not iterable"
  end.

(** The listener of 'HeapProfiler.reportHeapSnapshotProgress':
    [([, , finished]) => ...], on what the session hands to it. *)
Definition on_heap_progress (msg : jsval) : Js unit :=
  finished <- lift (third_of_pattern msg) ;;
  if truthy finished then
    log "snapshot completed. closing stream." ;;
    heap_end
  else ret tt.

(** The listener of 'HeapProfiler.addHeapSnapshotChunk': [({ chunk }) => ...]. *)
Definition on_heap_chunk (msg : jsval) : Js unit :=
  chunk <- lift (prop msg "chunk") ;;
  if truthy chunk then
    log "writing snapshot chunk." ;;
    heap_write chunk
  else ret tt.

(** The callback of [HeapProfiler.takeHeapSnapshot]. *)
Definition on_take_snapshot : Js unit :=
  log "Appending heap snapshot to archive" ;;
  archive_append (Some Archiver.SrcStream) "profile.heapsnapshot" ;;
  log "Appended heap snapshot to archive.".

(** The [catch] of [postInvoke]. *)
Definition upload_catch (e : string) : Js unit :=
  log ("Error in upload: " ++ e) ;;
  resolve.

(** The body of the [try], from the [await] of [getSignedUrl] on.  The
    listeners it installs are the handlers above: [on_archive_data],
    [on_archive_finish] and [on_archive_entry] on the archive,
    [on_heap_progress] and [on_heap_chunk] on the session; its two inspector
    requests have the callbacks [on_profiler_stop] and [on_take_snapshot]. *)
Definition postInvoke_resume (signingRes : result string) : Js unit :=
  try_catch
    (url <- getSignedUrl_resume signingRes ;;
     modify (set_signedRequestURL url) ;;
     modify (set_archive (Some Archiver.create)) ;;
     modify (set_archiveBuffer []) ;;
     p <- gets (fun s => profilerEnabled (this s)) ;;
     h <- gets (fun s => heapsnapshotEnabled (this s)) ;;
     modify (set_filesCount (Nat.b2n p + Nat.b2n h)) ;;
     modify (set_filesSeen 0) ;;
     when p (inspector_post "Profiler.stop" undefined ;;
             modify (set_stopPosted true)) ;;
     when h (modify (set_heap (Some new_PassThrough)) ;;
             log "Posting takeHeapSnapshot to inspector." ;;
             inspector_post "HeapProfiler.takeHeapSnapshot"
                            (Some (JObj [("reportProgress"%string, JBool true)])) ;;
             modify (set_snapshotPosted true)))
    upload_catch.

(** The executor of [new Promise(async resolve => ...)], up to its first
    [await]: a new closure, and the signing request.  The continuations of
    an earlier call belong to that call's closure and are not followed. *)
Definition upload_sequence : Js unit :=
  modify (fun s =>
    {| this := this s;
       env := env s;
       promise := Pending;
       filesSeen := 0;
       filesCount := 0;
       signedRequestURL := undefined;
       archive := None;
       archiveBuffer := [];
       heap := None;
       awaitingSign := false;
       stopPosted := false;
       snapshotPosted := false;
       awaitingPut := false;
       enablePosted := enablePosted s;
       posted := posted s;
       console := console s;
       network := network s;
       uncaught := uncaught s |}) ;;
  try_catch getSignedUrl_request upload_catch.

Definition postInvoke : Js unit :=
  en <- gets (fun s => enabled (this s)) ;;
  if negb en then modify (set_promise (Resolved (Some (JBool false))))
  else upload_sequence.

Definition postReport : Js unit :=
  inspector_disconnect.

(** [this.hooks]: the methods the host calls, by lifecycle point. *)
Definition hooks : list (string * Js unit) :=
  [("pre:invoke"%string, preInvoke);
   ("post:invoke"%string, postInvoke);
   ("post:report"%string, postReport)].

(** ** The event loop *)

(** What the outside world does: the signing request settles; the session
    answers a request of [preInvoke], [Profiler.stop] (with the arguments of
    its callback) or [HeapProfiler.takeHeapSnapshot]; the session emits
    'HeapProfiler.reportHeapSnapshotProgress' or
    'HeapProfiler.addHeapSnapshotChunk'; the archive emits 'data', 'entry' or
    'finish'; the upload settles. *)
Inductive Event : Type :=
| SigningSettled (r : result string)
| EnablingReply (method : string) (err : option string)
| ProfilerStopped (err : option string) (res : jsval)
| SnapshotTaken
| HeapSnapshotProgress (msg : jsval)
| HeapSnapshotChunk (msg : jsval)
| ArchiveData (chunk : string)
| ArchiveEntry
| ArchiveFinish
| UploadSettled (r : result string).

(** Runs a listener or continuation: what it throws, the plugin does not
    catch.  It ends as an unhandled rejection or an uncaught exception; what
    a listener or callback of the session throws, Node reports as a process
    warning. *)
Definition dispatch (handler : Js unit) (s : St) : St :=
  match handler s with
  | (s', Ok _) => s'
  | (s', Throw e) => set_uncaught (uncaught s' ++ [e]) s'
  end.

(** What the archiver reads from an entry's source, once it can read all of
    it: the string, or what was written to the stream by the time it ended;
    a stream that was destroyed never comes to its end. *)
Definition payload (s : St) (e : Archiver.Entry) : option string :=
  match Archiver.source e with
  | Archiver.SrcString data => Some data
  | Archiver.SrcStream =>
      match heap s with
      | Some h =>
          if ended h && negb (destroyed h)
          then Some (String.concat "" (written h))
          else None
      | None => None
      end
  end.

Definition complete (s : St) (e : Archiver.Entry) : bool :=
  match payload s e with
  | Some _ => true
  | None => false
  end.

Fixpoint remove_first (m : string) (l : list string) : option (list string) :=
  match l with
  | [] => None
  | x :: l' =>
      if String.eqb m x then Some l'
      else match remove_first m l' with
           | Some r => Some (x :: r)
           | None => None
           end
  end.

(** One event.  [None]: the event cannot happen in this state (no promise
    waits for it, the archiver has no entry to report, ...).  Of the archiver
    this much is taken for granted: it reports every appended entry at most
    once, in the order of the appends, and it fires 'finish' once, after
    [finalize], when every entry is reported and every source is read to its
    end.  That it reports an entry only after reading the entry's source to
    its end is not built in: [reads_before_reporting] says it of a run. *)
Definition step (s : St) (ev : Event) : option St :=
  match ev with
  | SigningSettled r =>
      if awaitingSign s
      then Some (dispatch (postInvoke_resume r) (set_awaitingSign false s))
      else None
  | EnablingReply m err =>
      match remove_first m (enablePosted s) with
      | Some rest => Some (dispatch (on_enabling_reply m err) (set_enablePosted rest s))
      | None => None
      end
  | ProfilerStopped err res =>
      if stopPosted s
      then Some (dispatch (on_profiler_stop err res) (set_stopPosted false s))
      else None
  | SnapshotTaken =>
      if snapshotPosted s
      then Some (dispatch on_take_snapshot (set_snapshotPosted false s))
      else None
  | HeapSnapshotProgress msg =>
      match heap s with
      | Some _ => Some (dispatch (on_heap_progress msg) s)
      | None => Some s
      end
  | HeapSnapshotChunk msg =>
      match heap s with
      | Some _ => Some (dispatch (on_heap_chunk msg) s)
      | None => Some s
      end
  | ArchiveData chunk =>
      match archive s with
      | Some a =>
          if Archiver.finished a then None
          else Some (dispatch (on_archive_data chunk) s)
      | None => None
      end
  | ArchiveEntry =>
      match archive s with
      | Some a =>
          match nth_error (Archiver.queue a) (Archiver.emitted a) with
          | Some _ =>
              if Archiver.finished a then None
              else
                Some (dispatch on_archive_entry
                        (set_archive (Some
                           {| Archiver.queue := Archiver.queue a;
                              Archiver.emitted := S (Archiver.emitted a);
                              Archiver.finalizeCalls := Archiver.finalizeCalls a;
                              Archiver.finished := Archiver.finished a |}) s))
          | None => None
          end
      | None => None
      end
  | ArchiveFinish =>
      match archive s with
      | Some a =>
          if (0 <? Archiver.finalizeCalls a)
             && (Archiver.emitted a =? List.length (Archiver.queue a))
             && forallb (complete s) (Archiver.queue a)
             && negb (Archiver.finished a)
          then
            Some (dispatch on_archive_finish
                    (set_archive (Some
                       {| Archiver.queue := Archiver.queue a;
                          Archiver.emitted := Archiver.emitted a;
                          Archiver.finalizeCalls := Archiver.finalizeCalls a;
                          Archiver.finished := true |}) s))
          else None
      | None => None
      end
  | UploadSettled r =>
      if awaitingPut s
      then Some (dispatch (on_upload_settled r) (set_awaitingPut false s))
      else None
  end.

Fixpoint run (s : St) (trace : list Event) : option St :=
  match trace with
  | [] => Some s
  | ev :: trace' =>
      match step s ev with
      | Some s' => run s' trace'
      | None => None
      end
  end.

(** The state a hook leaves, and what it throws to the host. *)
Definition after (hook : Js unit) (s : St) : St := fst (hook s).
Definition thrown (hook : Js unit) (s : St) : option string :=
  match snd (hook s) with
  | Ok _ => None
  | Throw e => Some e
  end.

(** *** Observations *)

Definition finalize_calls (s : St) : nat :=
  match archive s with
  | Some a => Archiver.finalizeCalls a
  | None => 0
  end.

Definition entries (s : St) : list Archiver.Entry :=
  match archive s with
  | Some a => Archiver.queue a
  | None => []
  end.

Definition named (n : string) (e : Archiver.Entry) : bool :=
  String.eqb (Archiver.name e) n.

Definition is_put (r : Request) : bool := String.eqb (method r) "PUT".

Definition puts (s : St) : list Request := filter is_put (network s).

(** The number of capture types that are enabled. *)
Definition expected (s : St) : nat :=
  Nat.b2n (profilerEnabled (this s)) + Nat.b2n (heapsnapshotEnabled (this s)).

Definition is_credential (c : string) (v : jsval) : bool :=
  match v with
  | Some (JStr x) => String.eqb x c
  | _ => false
  end.

Definition occurrences (c : string) (l : list jsval) : nat :=
  List.length (filter (is_credential c) l).

(** ** Invariants and observations of a run *)

(** The callbacks that will still append an entry. *)
Definition pending_appends (s : St) : nat :=
  Nat.b2n (stopPosted s) + Nat.b2n (snapshotPosted s).

(** The invariant of one closure of [postInvoke]. *)
Definition closure_inv (s : St) : Prop :=
  match archive s with
  | None =>
      filesSeen s = 0 /\ stopPosted s = false /\ snapshotPosted s = false
      /\ awaitingPut s = false
  | Some a =>
      awaitingSign s = false
      /\ filesCount s = expected s
      /\ Archiver.emitted a = filesSeen s
      /\ filesSeen s <= List.length (Archiver.queue a)
      /\ List.length (Archiver.queue a) + pending_appends s <= filesCount s
      /\ Archiver.finalizeCalls a
         = (if (0 <? filesSeen s) && (filesCount s <=? filesSeen s) then 1 else 0)
  end.

(** No event changes the flags, the configuration or the environment. *)
Definition same_plugin (s s' : St) : Prop :=
  profilerEnabled (this s') = profilerEnabled (this s)
  /\ heapsnapshotEnabled (this s') = heapsnapshotEnabled (this s)
  /\ enabled (this s') = enabled (this s)
  /\ config (this s') = config (this s)
  /\ env s' = env s.

(** Nothing is waiting: no archive, no request, no callback. *)
Definition quiet (s : St) : Prop :=
  archive s = None /\ awaitingSign s = false /\ stopPosted s = false
  /\ snapshotPosted s = false /\ awaitingPut s = false.

Definition signing_failed (r : result string) : Prop :=
  match r with
  | Throw _ => True
  | Ok text => parse text = None
  end.

Definition has_entry (n : string) (s : St) : bool :=
  existsb (named n) (entries s).

Definition is_snapshot_taken (ev : Event) : bool :=
  match ev with
  | SnapshotTaken => true
  | _ => false
  end.

Definition heapsnapshot_entry : Archiver.Entry :=
  {| Archiver.name := "profile.heapsnapshot";
     Archiver.source := Archiver.SrcStream |}.

Definition cpuprofile_entry (profile : json) : Archiver.Entry :=
  {| Archiver.name := "profile.cpuprofile";
     Archiver.source := Archiver.SrcString (stringify profile) |}.

Definition cpu_entries (s : St) : list Archiver.Entry :=
  filter (named "profile.cpuprofile") (entries s).

(** ** What Node's session and the archiver deliver *)

(** What Node's [Session] hands to the listener of a notification: the whole
    message, [{ method, params }]. *)
Definition notification (method : string) (params : json) : jsval :=
  Some (JObj [("method"%string, JStr method); ("params"%string, params)]).

(** The notifications of a heap snapshot: a chunk, and a progress report. *)
Definition chunk_event (c : string) : Event :=
  HeapSnapshotChunk
    (notification "HeapProfiler.addHeapSnapshotChunk"
       (JObj [("chunk"%string, JStr c)])).

Definition progress_event (done total : Z) (finished : bool) : Event :=
  HeapSnapshotProgress
    (notification "HeapProfiler.reportHeapSnapshotProgress"
       (JObj [("done"%string, JNum done); ("total"%string, JNum total);
              ("finished"%string, JBool finished)])).

Definition is_notification (msg : jsval) : bool :=
  match msg with
  | Some (JObj [(k1, JStr _); (k2, _)]) =>
      String.eqb k1 "method" && String.eqb k2 "params"
  | _ => false
  end.

(** An event as Node's session delivers it: a notification is a message. *)
Definition from_session (ev : Event) : bool :=
  match ev with
  | HeapSnapshotChunk msg | HeapSnapshotProgress msg => is_notification msg
  | _ => true
  end.

Definition node_notifications (tr : list Event) : bool :=
  forallb from_session tr.

(** The archiver reports an entry by 'entry' once it has read the entry's
    source to its end: whether an event respects that. *)
Definition reported_complete (s : St) (ev : Event) : bool :=
  match ev, archive s with
  | ArchiveEntry, Some a =>
      match nth_error (Archiver.queue a) (Archiver.emitted a) with
      | Some e => complete s e
      | None => true
      end
  | _, _ => true
  end.

Fixpoint reads_before_reporting (s : St) (tr : list Event) : bool :=
  match tr with
  | [] => true
  | ev :: tr' =>
      reported_complete s ev
      && match step s ev with
         | Some s' => reads_before_reporting s' tr'
         | None => true
         end
  end.

Definition string_source (e : Archiver.Entry) : bool :=
  match Archiver.source e with
  | Archiver.SrcString _ => true
  | Archiver.SrcStream => false
  end.

(** The heap stream was never ended, and every entry the archiver has
    reported so far, and every entry it can still report, is a string. *)
Definition unread_heap (s : St) : Prop :=
  match heap s with
  | Some h => ended h = false
  | None => True
  end
  /\ match archive s with
     | Some a =>
         forallb string_source
                 (firstn (Archiver.emitted a) (Archiver.queue a)) = true
     | None => True
     end
  /\ List.length (filter string_source (entries s)) + Nat.b2n (stopPosted s)
     <= Nat.b2n (profilerEnabled (this s)).

(** ** Sample plugins and runs

    Texts are written with single quotes: [q] turns them into the double
    quotes of JSON. *)

Local Open Scope string_scope.
Local Open Scope list_scope.

Definition q (s : string) : string :=
  string_of_list_ascii
    (map (fun c => if Ascii.eqb c "'"%char then dquote else c) (chars s)).

Definition sample_env (b : Backend) : Env :=
  {| pkg := {| pkg_name := "@iopipe/profiler";
               pkg_version := "0.1.0";
               pkg_homepage := "https://github.com/iopipe/iopipe-plugin-profiler" |};
     process_env := fun _ => None;
     signerHostname := "signer.us-east-1.iopipe.com";
     session_backend := b |}.

Definition sample_instance : InvocationInstance :=
  {| startTimestamp := Some (JNum 1500000000000);
     context := Some {| invokedFunctionArn :=
                          Some (JStr "arn:aws:lambda:us-east-1:1:function:f");
                        awsRequestId := Some (JStr "req-1") |};
     config_clientId := Some (JStr "client-token") |}.

Definition sample_opts (cpu heapSnap : bool) : Config.opts :=
  {| Config.o_recSamples := None;
     Config.o_sampleRate := None;
     Config.o_enabled := Some cpu;
     Config.o_heapSnapshot := Some heapSnap;
     Config.o_debug := Some true |}.

(** A plugin on Node's inspector, in debug mode, after [preInvoke]. *)
Definition sample (cpu heapSnap : bool) : St :=
  after preInvoke
    (instantiateProfilerPlugin (sample_env node_backend)
       (Some (sample_opts cpu heapSnap)) (Some sample_instance)).

Definition signing_response : string :=
  q "{'signedRequest': 'https://x/y', 'jwtAccess': 'tok1'}".

Definition stop_result : jsval :=
  Some (JObj [("profile"%string, JObj [("nodes"%string, JArr [])])]).

Definition final (s : St) (tr : list Event) : St :=
  match run s tr with
  | Some st => st
  | None => s
  end.

(** Both capture types on Node's session: the CPU profile, the
    notifications of the snapshot and the callback of its request; the
    archiver reports the CPU entry. *)
Definition full_run : list Event :=
  [SigningSettled (Ok signing_response);
   ProfilerStopped None stop_result;
   progress_event 1 2 false;
   chunk_event "a"; chunk_event "b";
   progress_event 2 2 true;
   SnapshotTaken;
   ArchiveEntry; ArchiveData "PK"].

Definition cpu_run (upload : result string) : list Event :=
  [SigningSettled (Ok signing_response);
   ProfilerStopped None stop_result;
   ArchiveEntry; ArchiveData "PK"; ArchiveFinish; UploadSettled upload].

(** A heap snapshot on Node's session: the chunks a and b, the progress
    report that says finished, and the callback of the request. *)
Definition heap_run : list Event :=
  [SigningSettled (Ok signing_response);
   chunk_event "a"; chunk_event "b";
   progress_event 2 2 true;
   SnapshotTaken].

(** The upload is over: 'finish' has fired and no request is waiting. *)
Definition upload_over (s : St) : Prop :=
  awaitingSign s = false /\ awaitingPut s = false
  /\ exists a, archive s = Some a /\ Archiver.finished a = true.

(** C4 as the spec states it: once [takeHeapSnapshot] is posted, the archive
    has the heap entry. *)
Definition handed_over_when_issued (s : St) (text : string) : Prop :=
  forall s1,
    step (after postInvoke s) (SigningSettled (Ok text)) = Some s1 ->
    snapshotPosted s1 = true ->
    has_entry "profile.heapsnapshot" s1 = true.

(** C5 as the spec states it: the sequence, run at a zero count, issues an
    upload. *)
Definition uploads_at_zero_count (s : St) : Prop :=
  exists tr st,
    run (after upload_sequence s) tr = Some st
    /\ List.length (puts s) < List.length (puts st).

Definition parsed_signing_response : json :=
  JObj [("signedRequest", JStr "https://x/y"); ("jwtAccess", JStr "tok1")].

Definition nodes_profile : json := JObj [("nodes", JArr [])].

Local Close Scope string_scope.

(** ** More observations, invariants and samples *)

Fixpoint starts_with (p s : string) : bool :=
  match p, s with
  | EmptyString, _ => true
  | String a p', String b s' => Ascii.eqb a b && starts_with p' s'
  | String _ _, EmptyString => false
  end.

(** A line as [log] prints it. *)
Definition logged (line : string) : bool :=
  starts_with "@iopipe/profiler::" line.

(** The chunks of the archive's 'data' events of a trace, in order. *)
Definition data_of (tr : list Event) : list string :=
  flat_map (fun ev => match ev with
                      | ArchiveData chunk => [chunk]
                      | _ => []
                      end) tr.

(** The upload of an archive to a signed URL. *)
Definition put_request (data : list string) (url : string) : Request :=
  {| body := Buffer_concat data;
     method := "PUT";
     target := ParsedUrl url;
     auth := undefined |}.

Definition wf_val (v : jsval) : bool :=
  match v with
  | Some j => wf j
  | None => true
  end.

(** [context = {}]: the context of an invocation, or the empty object. *)
Definition context_of (o : InvocationInstance) : Context :=
  match context o with
  | Some c => c
  | None => {| invokedFunctionArn := undefined; awsRequestId := undefined |}
  end.

(** What [getSignedUrl] sends to the signer. *)
Definition signing_body (o : InvocationInstance) : json :=
  object_literal
    [("arn"%string, invokedFunctionArn (context_of o));
     ("requestId"%string, awsRequestId (context_of o));
     ("timestamp"%string, startTimestamp o);
     ("extension"%string, Some (JStr ".zip"))].

(** The requests with which [preInvoke] starts the enabled capture types. *)
Definition enabling_posts (s : St) : list (string * jsval) :=
  (if heapsnapshotEnabled (this s)
   then [("HeapProfiler.enable"%string, undefined)] else [])
  ++ (if profilerEnabled (this s)
      then [("Profiler.enable"%string, undefined)] else []).

(** The requests with which [postInvoke] stops them. *)
Definition stopping_posts (s : St) : list (string * jsval) :=
  (if profilerEnabled (this s)
   then [("Profiler.stop"%string, undefined)] else [])
  ++ (if heapsnapshotEnabled (this s)
      then [("HeapProfiler.takeHeapSnapshot"%string,
             Some (JObj [("reportProgress"%string, JBool true)]))]
      else []).

(** The first of them. *)
Definition first_stopping_method (s : St) : string :=
  if profilerEnabled (this s) then "Profiler.stop"%string
  else "HeapProfiler.takeHeapSnapshot"%string.

Definition first_enabling_method (s : St) : string :=
  if heapsnapshotEnabled (this s) then "HeapProfiler.enable"%string
  else "Profiler.enable"%string.

(** The archive cannot be completed: fewer entries are appended or still to
    be appended than the 'entry' listener waits for, and neither [finalize]
    nor a request is under way. *)
Definition short_of_entries (s : St) : Prop :=
  awaitingSign s = false /\ awaitingPut s = false
  /\ exists a, archive s = Some a
               /\ Archiver.finalizeCalls a = 0
               /\ Archiver.emitted a = filesSeen s
               /\ filesSeen s <= List.length (Archiver.queue a)
               /\ List.length (Archiver.queue a) + pending_appends s < filesCount s.

(** An upload waits only once 'finish' has fired, and 'finish' fires only
    after [finalize]. *)
Definition finish_inv (s : St) : Prop :=
  match archive s with
  | None => True
  | Some a =>
      (Archiver.finished a = true -> 0 < Archiver.finalizeCalls a)
      /\ (awaitingPut s = true -> Archiver.finished a = true)
  end.

(** The entries are the two artifacts, each at most once and only for its
    capture type. *)
Definition entries_inv (s : St) : Prop :=
  Forall (fun e => named "profile.cpuprofile" e
                   || named "profile.heapsnapshot" e = true) (entries s)
  /\ List.length (filter (named "profile.cpuprofile") (entries s))
     + Nat.b2n (stopPosted s) <= Nat.b2n (profilerEnabled (this s))
  /\ List.length (filter (named "profile.heapsnapshot") (entries s))
     + Nat.b2n (snapshotPosted s) <= Nat.b2n (heapsnapshotEnabled (this s)).

(** A session on which [connect] fails. *)
Definition unavailable_backend : Backend :=
  {| connect_error := fun _ => Some "Error: inspector is not available"%string;
     disconnect_error := fun _ => None;
     post_error := post_error node_backend |}.

(** The console of [s'] is the console of [s] and, after it, lines of [log]:
    none when debug is off. *)
Definition console_grows (s s' : St) : Prop :=
  exists lines,
    console s' = console s ++ lines
    /\ forallb logged lines = true
    /\ (Config.debug (config (this s)) = false -> lines = []).

(** ** Lifecycles

    What the host and the outside world do to one plugin instance: the host
    calls a hook, or an event occurs.  What a hook throws goes to the host;
    the plugin's state is the one the hook left. *)

Inductive Hook : Type :=
| PreInvoke
| PostInvoke
| PostReport.

Definition hook_body (h : Hook) : Js unit :=
  match h with
  | PreInvoke => preInvoke
  | PostInvoke => postInvoke
  | PostReport => postReport
  end.

Inductive Action : Type :=
| Call (h : Hook)
| Occur (ev : Event).

Definition act (s : St) (a : Action) : option St :=
  match a with
  | Call h => Some (after (hook_body h) s)
  | Occur ev => step s ev
  end.

Fixpoint lifecycle (s : St) (l : list Action) : option St :=
  match l with
  | [] => Some s
  | a :: l' =>
      match act s a with
      | Some s' => lifecycle s' l'
      | None => None
      end
  end.

(** The signing requests of a lifecycle that settle. *)
Definition signings (l : list Action) : nat :=
  List.length (filter (fun a => match a with
                                | Occur (SigningSettled _) => true
                                | _ => false
                                end) l).

(** Whether the session is connected after a lifecycle, on a session whose
    [connect] and [disconnect] do not fail: the last of [preInvoke] (of an
    enabled plugin) and [postReport] decides. *)
Definition last_connection (en : bool) (c : bool) (l : list Action) : bool :=
  fold_left (fun c a => match a with
                        | Call PreInvoke => if en then true else c
                        | Call PostReport => false
                        | _ => c
                        end) l c.

(** A disabled instance on which nothing has happened. *)
Definition idle (s : St) : Prop :=
  enabled (this s) = false
  /\ quiet s /\ heap s = None /\ enablePosted s = []
  /\ uploads (this s) = [] /\ network s = [] /\ posted s = []
  /\ console s = [] /\ uncaught s = []
  /\ (promise s = NotCalled \/ promise s = Resolved (Some (JBool false))).

(** What one closure of [postInvoke] has uploaded, in terms of the requests
    [base] issued before it and the chunks [d] of the archive's 'data' events
    so far: nothing before 'finish'; after it nothing or the one PUT of the
    chunks to the signed URL. *)
Definition upload_inv (base : list Request) (s : St) (d : list string) : Prop :=
  match archive s with
  | None => puts s = base /\ d = [] /\ awaitingPut s = false
  | Some a =>
      awaitingSign s = false
      /\ if Archiver.finished a
         then puts s = base
              \/ exists url, signedRequestURL s = Some (JStr url)
                             /\ puts s = base ++ [put_request d url]
         else puts s = base /\ archiveBuffer s = d /\ awaitingPut s = false
  end.

(** The signed URL is not one [urlLib.parse] takes, and no request waits. *)
Definition no_upload_url (s : St) : Prop :=
  awaitingSign s = false /\ awaitingPut s = false
  /\ exists e, url_parse (signedRequestURL s) = Throw e.

(** Whether an upload was fulfilled. *)
Definition is_fulfilled_upload (ev : Event) : bool :=
  match ev with
  | UploadSettled (Ok _) => true
  | _ => false
  end.

(** The methods of the requests of [stopping_posts]. *)
Definition stopping_methods (s : St) : list string :=
  map fst (stopping_posts s).

(** Whether the result a [Profiler.stop] callback receives has a [profile]
    that [JSON.stringify] prints. *)
Definition has_profile (res : jsval) : bool :=
  match prop res "profile" with
  | Ok (Some _) => true
  | _ => false
  end.

Local Open Scope string_scope.
Local Open Scope list_scope.

(** *** Sample lifecycles *)

(** A new instance on the session [b], in debug mode or not. *)
Definition new_plugin (b : Backend) (cpu heapSnap debug : bool) : St :=
  instantiateProfilerPlugin (sample_env b)
    (Some {| Config.o_recSamples := None;
             Config.o_sampleRate := None;
             Config.o_enabled := Some cpu;
             Config.o_heapSnapshot := Some heapSnap;
             Config.o_debug := Some debug |})
    (Some sample_instance).

Definition ending (s : St) (l : list Action) : St :=
  match lifecycle s l with
  | Some st => st
  | None => s
  end.

(** One invocation that takes a CPU profile and uploads it. *)
Definition cpu_invocation : list Action :=
  [Call PreInvoke;
   Occur (EnablingReply "Profiler.enable" None);
   Occur (EnablingReply "Profiler.setSamplingInterval" None);
   Occur (EnablingReply "Profiler.start" None);
   Call PostInvoke]
  ++ map Occur (cpu_run (Ok ""))
  ++ [Call PostReport].

(** The hooks of one invocation, and a snapshot chunk nobody asked for. *)
Definition bare_invocation : list Action :=
  [Call PreInvoke; Occur (chunk_event "a"); Call PostInvoke; Call PostReport].

(** A signing response without [signedRequest]. *)
Definition credential_only_response : string := q "{'jwtAccess': 'tok1'}".

Definition parsed_credential_only_response : json :=
  JObj [("jwtAccess", JStr "tok1")].

(** All the requests of [preInvoke] and of the callbacks it passes on. *)
Definition enabling_requests (s : St) : list (string * jsval) :=
  (if heapsnapshotEnabled (this s)
   then [("HeapProfiler.enable", undefined)] else [])
  ++ (if profilerEnabled (this s)
      then [("Profiler.enable", undefined);
            ("Profiler.setSamplingInterval",
             Some (JObj [("interval",
                          JNum (Config.sampleRate (config (this s))))]));
            ("Profiler.start", undefined)]
      else []).

(** The replies to them, in the order of the requests. *)
Definition enabling_replies (s : St) (eh e1 e2 e3 : option string)
  : list Event :=
  (if heapsnapshotEnabled (this s)
   then [EnablingReply "HeapProfiler.enable" eh] else [])
  ++ (if profilerEnabled (this s)
      then [EnablingReply "Profiler.enable" e1;
            EnablingReply "Profiler.setSamplingInterval" e2;
            EnablingReply "Profiler.start" e3]
      else []).

Local Close Scope string_scope.

(** ** Proofs *)

#[local] Arguments prop : simpl never.
#[local] Arguments JSON_parse : simpl never.
#[local] Arguments JSON_stringify : simpl never.
#[local] Arguments truthy : simpl never.
#[local] Arguments url_parse : simpl never.
#[local] Arguments third_of_pattern : simpl never.
#[local] Arguments String.eqb : simpl never.
#[local] Arguments String.append : simpl never.
#[local] Arguments show_nat : simpl never.
#[local] Arguments Nat.leb : simpl never.
#[local] Arguments Nat.ltb : simpl never.

(** Case analysis on what a handler branches on, innermost first. *)
Ltac break_match :=
  match goal with
  | H : context [match ?x with _ => _ end] |- _ =>
      lazymatch x with
      | context [match _ with _ => _ end] => fail
      | _ => destruct x eqn:?
      end
  | |- context [match ?x with _ => _ end] =>
      lazymatch x with
      | context [match _ with _ => _ end] => fail
      | _ => destruct x eqn:?
      end
  end.

Ltac open_state s :=
  destruct s as [[v_inst v_token [v_recSamples v_rate v_en0 v_hs v_debug]
                   v_cpu v_heapflag v_enabled v_uploads [v_conn v_backend]]
                 v_env v_promise v_seen v_count v_url v_archive v_buffer
                 v_heap v_sign v_stop v_snap v_put v_enabling v_posted
                 v_console v_network v_uncaught].

(** Unfolds the handlers and the monad down to the state they build. *)
Ltac unfold_js :=
  cbv [step dispatch postInvoke_resume getSignedUrl_resume upload_catch resolve
       log on_enabling_reply log_if_error post_enabling inspector_post
       on_profiler_stop archive_append on_take_snapshot on_heap_progress
       on_heap_chunk heap_write heap_end update_heap on_archive_data
       on_archive_entry archive_finalize update_archive on_archive_finish
       request on_upload_settled upload_sequence getSignedUrl_request
       postInvoke postReport preInvoke inspector_connect inspector_disconnect
       after thrown
       bind ret throw try_catch gets modify lift when
       set_this set_promise set_filesSeen set_filesCount set_signedRequestURL
       set_archive set_archiveBuffer set_heap set_awaitingSign set_stopPosted
       set_snapshotPosted set_awaitingPut set_enablePosted set_posted set_console
       set_network set_uncaught set_uploads set_inspector] in *;
  simpl in *.

Ltac crunch :=
  repeat (first [ discriminate
                | match goal with
                  | H : Some _ = Some _ |- _ => injection H as <-
                  | H : _ /\ _ |- _ => destruct H
                  end
                | break_match ];
          simpl in *).

Ltac reflect_bools :=
  repeat match goal with
    | H : (_ && _) = true |- _ => apply andb_true_iff in H; destruct H
    | H : (_ && _) = false |- _ => apply andb_false_iff in H
    | H : (_ <? _) = true |- _ => apply Nat.ltb_lt in H
    | H : (_ <? _) = false |- _ => apply Nat.ltb_ge in H
    | H : (_ <=? _) = true |- _ => apply Nat.leb_le in H
    | H : (_ <=? _) = false |- _ => apply Nat.leb_gt in H
    | H : (_ =? _) = true |- _ => apply Nat.eqb_eq in H
    | H : (_ =? _) = false |- _ => apply Nat.eqb_neq in H
    | H : negb _ = true |- _ => apply negb_true_iff in H
    | H : negb _ = false |- _ => apply negb_false_iff in H
    | H : nth_error ?l ?n = Some _ |- _ =>
        assert (n < List.length l)
          by (apply nth_error_Some; rewrite H; discriminate);
        clear H
    end.

(** One case per event and per branch of its handler. *)
Ltac by_cases s ev :=
  open_state s; destruct ev; unfold_js; crunch; subst; simpl in *;
  reflect_bools; rewrite ?length_app in *; simpl in *.

(** *** [JSON.parse] reads back what [JSON.stringify] prints *)

Lemma digit_facts c :
  is_digit c = true ->
  is_ws c = false /\ Ascii.eqb c "{" = false /\ Ascii.eqb c "[" = false /\
  Ascii.eqb c dquote = false /\ Ascii.eqb c "-" = false.
Proof.
  destruct c as [[] [] [] [] [] [] [] []]; vm_compute; intuition congruence.
Qed.

Lemma value_start_facts c :
  value_start c = true ->
  is_ws c = false /\ Ascii.eqb c "]" = false /\ Ascii.eqb c "}" = false.
Proof.
  destruct c as [[] [] [] [] [] [] [] []]; vm_compute; intuition congruence.
Qed.

Lemma read_escape_char c t acc :
  read_string (escape_char c ++ t) acc = read_string t (c :: acc).
Proof.
  destruct c as [[] [] [] [] [] [] [] []]; reflexivity.
Qed.

Lemma read_string_escaped s : forall acc rest,
  read_string (flat_map escape_char s ++ dquote :: rest) acc
  = Some (rev acc ++ s, rest).
Proof.
  induction s as [|c s IH]; intros acc rest.
  - simpl. rewrite app_nil_r. reflexivity.
  - simpl flat_map. rewrite <- app_assoc, read_escape_char, IH.
    simpl. rewrite <- app_assoc. reflexivity.
Qed.

Lemma read_uint_chars d : forall rest,
  no_digit_head rest = true ->
  read_uint (chars_of_uint d ++ rest) = (d, rest).
Proof.
  induction d; intros rest H; simpl;
    try (rewrite (IHd rest H); reflexivity).
  destruct rest as [|c r]; [reflexivity|].
  simpl in H. unfold is_digit in H. simpl.
  destruct (digit_of c); [discriminate|reflexivity].
Qed.

Lemma canonical_to_uint n : canonical (N.to_uint n) = true.
Proof.
  unfold canonical. apply Decimal.internal_uint_dec_lb.
  rewrite <- DecimalN.Unsigned.to_of, DecimalN.Unsigned.of_to. reflexivity.
Qed.

Lemma read_N_print n rest :
  no_digit_head rest = true -> read_N (print_N n ++ rest) = Some (n, rest).
Proof.
  intros H. unfold read_N, print_N. rewrite (read_uint_chars _ _ H).
  rewrite canonical_to_uint, DecimalN.Unsigned.of_to. reflexivity.
Qed.

Lemma print_N_head n : exists c r, print_N n = c :: r /\ is_digit c = true.
Proof.
  unfold print_N.
  assert (H : N.to_uint n <> Decimal.Nil).
  { rewrite <- (DecimalN.Unsigned.of_to n) at 1.
    rewrite DecimalN.Unsigned.to_of. apply DecimalFacts.unorm_nonnil. }
  destruct (N.to_uint n); try congruence; simpl; eauto.
Qed.

Lemma print_head v : exists c r, print v = c :: r /\ value_start c = true.
Proof.
  destruct v as [|[]|z|s|l|m]; simpl; try (do 2 eexists; split; reflexivity).
  unfold print_Z. destruct (z <? 0)%Z.
  - do 2 eexists; split; reflexivity.
  - destruct (print_N_head (Z.to_N z)) as (c & r & E & D). rewrite E.
    exists c, r. split; [reflexivity|].
    unfold value_start. rewrite D. repeat rewrite orb_true_r. reflexivity.
Qed.

Lemma skip_ws_value v t : skip_ws (print v ++ t) = print v ++ t.
Proof.
  destruct (print_head v) as (c & r & E & S). rewrite E. simpl.
  destruct (value_start_facts c S) as (W & _). rewrite W. reflexivity.
Qed.

Lemma parse_number z fuel rest :
  no_digit_head rest = true ->
  parse_value (S fuel) (print_Z z ++ rest) = Some (JNum z, rest).
Proof.
  intros H. unfold print_Z. destruct (Z.ltb_spec z 0) as [L|L].
  - simpl. rewrite (read_N_print _ _ H).
    rewrite N2Z.inj_abs_N. do 2 f_equal. f_equal. lia.
  - destruct (print_N_head (Z.to_N z)) as (c & r & E & D).
    pose proof (read_N_print (Z.to_N z) rest H) as R. rewrite E in *.
    destruct (digit_facts c D) as (W & B1 & B2 & B3 & B4).
    simpl. rewrite W, B1, B2, B3, B4, D.
    change (c :: r ++ rest) with ((c :: r) ++ rest). rewrite R.
    rewrite Z2N.id by lia. reflexivity.
Qed.

Lemma obj_set_fresh k v m :
  existsb (String.eqb k) (map fst m) = false -> obj_set k v m = m ++ [(k, v)].
Proof.
  induction m as [|[k' v'] m IH]; simpl; intros H; [reflexivity|].
  apply orb_false_iff in H as [H1 H2]. rewrite H1, (IH H2). reflexivity.
Qed.

Lemma nodup_keys_mid a k b :
  nodup_keys (a ++ k :: b) = true -> existsb (String.eqb k) a = false.
Proof.
  induction a as [|x a IH]; simpl; intros H; [reflexivity|].
  apply andb_true_iff in H as [H1 H2]. rewrite (IH H2), orb_false_r.
  apply negb_true_iff in H1. rewrite existsb_app in H1.
  apply orb_false_iff in H1 as [_ H1]. simpl in H1.
  apply orb_false_iff in H1 as [H1 _]. rewrite String.eqb_sym. exact H1.
Qed.

Lemma nodup_keys_app_r a b : nodup_keys (a ++ b) = true -> nodup_keys b = true.
Proof.
  induction a as [|x a IH]; simpl; intros H; [exact H|].
  apply andb_true_iff in H as [_ H]. auto.
Qed.

Lemma parse_elements_step fuel s acc :
  parse_elements (S fuel) s acc =
  match parse_value fuel s with
  | None => None
  | Some (v, r) =>
      match skip_ws r with
      | [] => None
      | c :: r' =>
          if Ascii.eqb c ","%char then parse_elements fuel r' (v :: acc)
          else if Ascii.eqb c "]"%char then Some (JArr (rev (v :: acc)), r')
          else None
      end
  end.
Proof. reflexivity. Qed.

Lemma parse_elements_print items :
  Forall reads_back items -> items <> [] -> forallb wf items = true ->
  forall fuel acc rest,
    list_sum (map (fun x => S (size x)) items) <= fuel ->
    parse_elements fuel (join (map print items) ++ "]"%char :: rest) acc
    = Some (JArr (rev acc ++ items), rest).
Proof.
  induction 1 as [|v l Hv Hl IH]; [congruence|].
  intros _ W fuel acc rest F. simpl in W, F.
  apply andb_true_iff in W as [Wv Wl].
  destruct fuel as [|fuel]; [lia|].
  rewrite parse_elements_step.
  destruct l as [|v' l'].
  - change (join (map print [v])) with (print v).
    rewrite (Hv Wv) by (reflexivity || lia).
    reflexivity.
  - change (join (map print (v :: v' :: l')))
      with (print v ++ ","%char :: join (map print (v' :: l'))).
    rewrite <- app_assoc.
    rewrite (Hv Wv) by (reflexivity || lia).
    rewrite <- app_comm_cons.
    change (skip_ws (","%char :: ?x)) with (","%char :: x).
    change (Ascii.eqb ","%char ","%char) with true. cbv iota.
    rewrite IH; [|congruence|exact Wl|simpl in *; lia].
    simpl. rewrite <- app_assoc. reflexivity.
Qed.

Lemma parse_members_step fuel s acc :
  parse_members (S fuel) s acc =
  match skip_ws s with
  | [] => None
  | c :: r =>
      if Ascii.eqb c dquote then
        match read_string r [] with
        | None => None
        | Some (k, r1) =>
            match skip_ws r1 with
            | [] => None
            | c1 :: r2 =>
                if Ascii.eqb c1 ":"%char then
                  match parse_value fuel r2 with
                  | None => None
                  | Some (v, r3) =>
                      let acc' := obj_set (string_of_list_ascii k) v acc in
                      match skip_ws r3 with
                      | [] => None
                      | c3 :: r4 =>
                          if Ascii.eqb c3 ","%char then parse_members fuel r4 acc'
                          else if Ascii.eqb c3 "}"%char then Some (JObj acc', r4)
                          else None
                      end
                  end
                else None
            end
        end
      else None
  end.
Proof. reflexivity. Qed.

Lemma parse_member k v fuel t acc :
  reads_back v -> wf v = true -> size v <= fuel -> no_digit_head t = true ->
  parse_members (S fuel) (member_text (k, v) ++ t) acc =
  match skip_ws t with
  | [] => None
  | c3 :: r4 =>
      if Ascii.eqb c3 ","%char then parse_members fuel r4 (obj_set k v acc)
      else if Ascii.eqb c3 "}"%char then Some (JObj (obj_set k v acc), r4)
      else None
  end.
Proof.
  intros Hv W F D. rewrite parse_members_step.
  unfold member_text, print_string. cbn [fst snd].
  rewrite <- !app_assoc, <- !app_comm_cons.
  change (skip_ws (dquote :: ?x)) with (dquote :: x).
  change (Ascii.eqb dquote dquote) with true. cbv iota.
  rewrite <- app_assoc, <- !app_comm_cons, app_nil_l.
  rewrite read_string_escaped. cbn [rev app].
  change (skip_ws (":"%char :: ?x)) with (":"%char :: x).
  change (Ascii.eqb ":"%char ":"%char) with true. cbv iota.
  rewrite (Hv W fuel t F D).
  unfold chars. rewrite string_of_list_ascii_of_string. reflexivity.
Qed.

Lemma parse_members_print members :
  Forall (fun kv => reads_back (snd kv)) members -> members <> [] ->
  forallb (fun kv => wf (snd kv)) members = true ->
  forall fuel acc rest,
    nodup_keys (map fst (acc ++ members)) = true ->
    list_sum (map (fun kv => S (size (snd kv))) members) <= fuel ->
    parse_members fuel (join (map member_text members) ++ "}"%char :: rest) acc
    = Some (JObj (acc ++ members), rest).
Proof.
  induction 1 as [|[k v] l Hv Hl IH]; [congruence|].
  intros _ W fuel acc rest N F. simpl in W, F.
  apply andb_true_iff in W as [Wv Wl].
  destruct fuel as [|fuel]; [lia|].
  assert (K : obj_set k v acc = acc ++ [(k, v)]).
  { apply obj_set_fresh. rewrite map_app in N.
    apply (nodup_keys_mid _ _ _ N). }
  destruct l as [|kv' l'].
  - change (join (map member_text [(k, v)])) with (member_text (k, v)).
    rewrite (parse_member k v fuel _ acc Hv Wv) by (reflexivity || lia).
    rewrite K. reflexivity.
  - change (join (map member_text ((k, v) :: kv' :: l')))
      with (member_text (k, v) ++ ","%char :: join (map member_text (kv' :: l'))).
    rewrite <- app_assoc.
    rewrite (parse_member k v fuel _ acc Hv Wv) by (reflexivity || lia).
    rewrite <- app_comm_cons.
    change (skip_ws (","%char :: ?x)) with (","%char :: x).
    change (Ascii.eqb ","%char ","%char) with true. cbv iota.
    rewrite K, IH; [|congruence|exact Wl| |simpl in *; lia].
    + rewrite <- app_assoc. reflexivity.
    + rewrite <- app_assoc. exact N.
Qed.

Lemma print_reads_back v : reads_back v.
Proof.
  induction v as [|b|z|s|items IH|members IH] using json_ind';
    intros W fuel rest F D; (destruct fuel as [|fuel]; [simpl in F; lia|]).
  - reflexivity.
  - destruct b; reflexivity.
  - apply parse_number. exact D.
  - cbn [print]. unfold print_string. rewrite <- app_comm_cons, <- app_assoc.
    cbn [parse_value].
    change (skip_ws (dquote :: ?x)) with (dquote :: x).
    change (Ascii.eqb dquote "{"%char) with false.
    change (Ascii.eqb dquote "["%char) with false.
    change (Ascii.eqb dquote dquote) with true. cbv iota.
    change ([dquote] ++ rest) with (dquote :: rest).
    rewrite read_string_escaped. cbn [rev app].
    unfold chars. rewrite string_of_list_ascii_of_string. reflexivity.
  - destruct items as [|v l]; [reflexivity|].
    cbn [print]. rewrite <- app_comm_cons, <- app_assoc.
    change (["]"%char] ++ rest) with ("]"%char :: rest).
    cbn [parse_value].
    change (skip_ws ("["%char :: ?x)) with ("["%char :: x).
    change (Ascii.eqb "["%char "{"%char) with false.
    change (Ascii.eqb "["%char "["%char) with true. cbv iota.
    destruct (print_head v) as (c & r & E & S).
    destruct (value_start_facts c S) as (Ws & B1 & B2).
    assert (X : skip_ws (join (map print (v :: l)) ++ "]"%char :: rest)
                = c :: (tl (join (map print (v :: l)) ++ "]"%char :: rest))).
    { cbn [map join]. destruct (map print l); rewrite E; simpl; rewrite Ws; reflexivity. }
    rewrite X, B1.
    rewrite (parse_elements_print (v :: l) IH) ; [reflexivity|congruence|exact W|].
    simpl in F. simpl. lia.
  - destruct members as [|[k v] l]; [reflexivity|].
    cbn [print]. rewrite <- app_comm_cons, <- app_assoc.
    change (["}"%char] ++ rest) with ("}"%char :: rest).
    cbn [parse_value].
    change (skip_ws ("{"%char :: ?x)) with ("{"%char :: x).
    change (Ascii.eqb "{"%char "{"%char) with true. cbv iota.
    fold member_text.
    assert (X : exists t, skip_ws (join (map member_text ((k, v) :: l)) ++ "}"%char :: rest)
                = dquote :: t).
    { cbn [map join]. destruct (map member_text l); unfold member_text, print_string;
        simpl; eauto. }
    destruct X as (t & X). rewrite X.
    change (Ascii.eqb dquote "}"%char) with false. cbv iota.
    cbn [wf] in W. apply andb_true_iff in W as [N W].
    rewrite (parse_members_print ((k, v) :: l) IH); [reflexivity|congruence|exact W|exact N|].
    simpl in F. simpl. lia.
Qed.

Lemma length_join_items (f : json -> list ascii) items :
  Forall (fun v => size v <= 2 * List.length (f v) + 1) items ->
  list_sum (map (fun x => S (size x)) items)
  <= 2 * List.length (join (map f items)) + 2.
Proof.
  induction 1 as [|v l Hv Hl IH]; [simpl; lia|].
  destruct l as [|v' l'].
  - simpl in *. lia.
  - change (join (map f (v :: v' :: l')))
      with (f v ++ ","%char :: join (map f (v' :: l'))).
    rewrite length_app. cbn [List.length].
    change (list_sum (map (fun x => S (size x)) (v :: v' :: l')))
      with (S (size v) + list_sum (map (fun x => S (size x)) (v' :: l'))).
    lia.
Qed.

Lemma length_join_members members :
  Forall (fun kv => size (snd kv) <= 2 * List.length (print (snd kv)) + 1) members ->
  list_sum (map (fun kv => S (size (snd kv))) members)
  <= 2 * List.length (join (map member_text members)) + 2.
Proof.
  induction 1 as [|kv l Hv Hl IH]; [simpl; lia|].
  assert (M : size (snd kv) <= 2 * List.length (member_text kv) + 1).
  { unfold member_text. rewrite length_app. cbn [List.length]. lia. }
  destruct l as [|kv' l'].
  - simpl in *. lia.
  - change (join (map member_text (kv :: kv' :: l')))
      with (member_text kv ++ ","%char :: join (map member_text (kv' :: l'))).
    rewrite length_app. cbn [List.length].
    change (list_sum (map (fun x => S (size (snd x))) (kv :: kv' :: l')))
      with (S (size (snd kv)) + list_sum (map (fun x => S (size (snd x))) (kv' :: l'))).
    lia.
Qed.

Lemma size_le_print v : size v <= 2 * List.length (print v) + 1.
Proof.
  induction v as [|b|z|s|items IH|members IH] using json_ind';
    try (simpl; lia).
  - pose proof (length_join_items print items IH) as L.
    cbn [print size]. cbn [List.length]. rewrite length_app. cbn [List.length]. lia.
  - pose proof (length_join_members members IH) as L.
    cbn [print size]. fold member_text.
    cbn [List.length]. rewrite length_app. cbn [List.length]. lia.
Qed.

Theorem parse_stringify v : wf v = true -> parse (stringify v) = Some v.
Proof.
  intros W. unfold parse, stringify, chars.
  rewrite list_ascii_of_string_of_list_ascii.
  pose proof (print_reads_back v W (fuel_for (print v)) []) as R.
  rewrite app_nil_r in R. rewrite R; [reflexivity| |reflexivity].
  unfold fuel_for. apply size_le_print.
Qed.

(** *** What one event does *)

Lemma step_closure_inv s ev s' :
  step s ev = Some s' -> closure_inv s -> closure_inv s'.
Proof.
  intros H I. unfold closure_inv, expected, pending_appends in *.
  by_cases s ev.
  all: intuition (try congruence; try lia).
Qed.

Lemma step_same_plugin s ev s' : step s ev = Some s' -> same_plugin s s'.
Proof.
  intros H. unfold same_plugin. by_cases s ev.
  all: intuition congruence.
Qed.

(** Only the continuation of the signing request touches [uploads]. *)
Lemma step_uploads s ev s' :
  step s ev = Some s' -> awaitingSign s = false ->
  uploads (this s') = uploads (this s) /\ awaitingSign s' = false.
Proof.
  intros H A. by_cases s ev.
  all: intuition congruence.
Qed.

(** Requests go out in one place only: the 'finish' listener issues a PUT. *)
Lemma step_network s ev s' :
  step s ev = Some s' ->
  network s' = network s
  \/ (ev = ArchiveFinish /\ 0 < finalize_calls s
      /\ exists r, network s' = network s ++ [r] /\ is_put r = true).
Proof.
  intros H. unfold finalize_calls. by_cases s ev.
  all: try (left; reflexivity).
  all: right; repeat split; try lia; eexists; split; reflexivity.
Qed.

(** The promise, once resolved, stays as it is; before that it resolves in
    the [catch] of the signing continuation or after a fulfilled upload. *)
Lemma step_promise s ev s' :
  step s ev = Some s' ->
  promise s' = promise s
  \/ (promise s = Pending /\ promise s' = Resolved undefined
      /\ ((exists r, ev = SigningSettled r) \/ (exists b, ev = UploadSettled (Ok b)))).
Proof.
  intros H. by_cases s ev.
  all: try (left; reflexivity).
  all: right; repeat split; eauto.
Qed.

(** *** Runs *)

Lemma run_app s t1 t2 :
  run s (t1 ++ t2) = match run s t1 with
                     | Some s1 => run s1 t2
                     | None => None
                     end.
Proof.
  revert s. induction t1 as [|ev t1 IH]; intros s; simpl; [reflexivity|].
  destruct (step s ev); [apply IH|reflexivity].
Qed.

Lemma run_invariant (P : St -> Prop) :
  (forall s ev s', step s ev = Some s' -> P s -> P s') ->
  forall tr s st, run s tr = Some st -> P s -> P st.
Proof.
  intros Hstep. induction tr as [|ev tr IH]; simpl; intros s st R Hs.
  - injection R as <-. exact Hs.
  - destruct (step s ev) as [s1|] eqn:E; [|discriminate]. eauto.
Qed.

Lemma same_plugin_refl s : same_plugin s s.
Proof. unfold same_plugin. auto. Qed.

Lemma same_plugin_trans s1 s2 s3 :
  same_plugin s1 s2 -> same_plugin s2 s3 -> same_plugin s1 s3.
Proof. unfold same_plugin. intuition congruence. Qed.

Lemma run_same_plugin tr : forall s st, run s tr = Some st -> same_plugin s st.
Proof.
  induction tr as [|ev tr IH]; simpl; intros s st R.
  - injection R as <-. apply same_plugin_refl.
  - destruct (step s ev) as [s1|] eqn:E; [|discriminate].
    eapply same_plugin_trans; [eapply step_same_plugin|]; eauto.
Qed.

Lemma same_plugin_expected s s' : same_plugin s s' -> expected s' = expected s.
Proof. unfold same_plugin, expected. intros (-> & -> & _). reflexivity. Qed.

(** *** What [postInvoke] leaves behind *)

Lemma postInvoke_enabled s :
  enabled (this s) = true -> postInvoke s = upload_sequence s.
Proof. intros E. unfold postInvoke, bind, gets. rewrite E. reflexivity. Qed.

Lemma postInvoke_disabled s :
  enabled (this s) = false ->
  postInvoke s = (set_promise (Resolved (Some (JBool false))) s, Ok tt).
Proof. intros E. unfold postInvoke, bind, gets. rewrite E. reflexivity. Qed.

(** The signing request is the one request the executor issues; it throws
    nothing, and it leaves either the [await] of that request waiting or,
    when the request could not be built, a promise resolved by the [catch]. *)
Lemma upload_sequence_spec s :
  let s1 := after upload_sequence s in
  thrown upload_sequence s = None
  /\ closure_inv s1 /\ same_plugin s s1
  /\ archive s1 = None /\ awaitingPut s1 = false
  /\ stopPosted s1 = false /\ snapshotPosted s1 = false
  /\ uploads (this s1) = uploads (this s)
  /\ puts s1 = puts s
  /\ (if awaitingSign s1 then promise s1 = Pending
      else promise s1 = Resolved undefined /\ network s1 = network s).
Proof.
  unfold closure_inv, same_plugin, puts. open_state s. unfold_js.
  destruct v_inst; simpl.
  - rewrite filter_app. simpl. rewrite app_nil_r. intuition reflexivity.
  - intuition reflexivity.
Qed.

Lemma thrown_postInvoke s : thrown postInvoke s = None.
Proof.
  destruct (enabled (this s)) eqn:E.
  - unfold thrown. rewrite (postInvoke_enabled s E).
    apply (upload_sequence_spec s).
  - unfold thrown. rewrite (postInvoke_disabled s E). reflexivity.
Qed.

Lemma run_closure_inv tr s st :
  run s tr = Some st -> closure_inv s -> closure_inv st.
Proof. apply (run_invariant closure_inv step_closure_inv). Qed.

(** *** A failed signing request *)

Lemma step_quiet s ev s' :
  step s ev = Some s' -> quiet s ->
  quiet s' /\ promise s' = promise s /\ network s' = network s.
Proof.
  intros H Q. unfold quiet in *. by_cases s ev.
  all: intuition congruence.
Qed.

Lemma run_quiet tr : forall s st,
  run s tr = Some st -> quiet s ->
  promise st = promise s /\ network st = network s.
Proof.
  induction tr as [|ev tr IH]; simpl; intros s st R Q.
  - injection R as <-. auto.
  - destruct (step s ev) as [s1|] eqn:E; [|discriminate].
    destruct (step_quiet _ _ _ E Q) as (Q1 & Pe & Ne).
    rewrite <- Pe, <- Ne. eauto.
Qed.

(** When the signing request fails, its continuation ends in the [catch]. *)
Lemma signing_failed_step s r s' :
  signing_failed r -> step s (SigningSettled r) = Some s' ->
  archive s = None -> awaitingPut s = false -> stopPosted s = false ->
  snapshotPosted s = false -> promise s = Pending ->
  quiet s' /\ promise s' = Resolved undefined /\ network s' = network s.
Proof.
  intros F H. unfold quiet. open_state s. unfold_js.
  destruct v_sign; [|discriminate]. injection H as <-.
  destruct r as [text|e]; simpl in *.
  - unfold JSON_parse. rewrite F. simpl. intros -> -> -> -> ->. simpl.
    intuition reflexivity.
  - intros -> -> -> -> ->. simpl. intuition reflexivity.
Qed.

(** C3: if the signing request fails, by a rejected request or by a response
    that is not JSON, [postInvoke] throws nothing, its promise is resolved,
    and whatever happens afterwards no request goes out after the signing
    request: no PUT is issued. *)
Theorem signing_failure_resolves_without_upload s r tr st :
  enabled (this s) = true -> signing_failed r ->
  run (after postInvoke s) (SigningSettled r :: tr) = Some st ->
  thrown postInvoke s = None
  /\ promise st = Resolved undefined
  /\ network st = network (after postInvoke s)
  /\ puts st = puts s.
Proof.
  intros E F R. split; [apply thrown_postInvoke|].
  unfold after in *. rewrite (postInvoke_enabled s E) in *.
  destruct (upload_sequence_spec s)
    as (_ & _ & _ & A & P & SP & SN & _ & PU & W).
  unfold after in *. cbn [run] in R.
  destruct (step (fst (upload_sequence s)) (SigningSettled r)) as [s1|] eqn:S1;
    [|discriminate].
  assert (promise (fst (upload_sequence s)) = Pending) as Pe.
  { destruct (awaitingSign (fst (upload_sequence s))) eqn:AS; [exact W|].
    unfold step in S1. rewrite AS in S1. discriminate. }
  destruct (signing_failed_step _ _ _ F S1 A P SP SN Pe) as (Q & Pr & N).
  unfold puts in *.
  destruct (run_quiet _ _ _ R Q) as (-> & ->).
  rewrite N. auto.
Qed.

(** *** Credentials *)

Lemma run_uploads tr : forall s st,
  run s tr = Some st -> awaitingSign s = false ->
  uploads (this st) = uploads (this s).
Proof.
  induction tr as [|ev tr IH]; simpl; intros s st R A.
  - injection R as <-. reflexivity.
  - destruct (step s ev) as [s1|] eqn:E; [|discriminate].
    destruct (step_uploads _ _ _ E A) as (<- & A1). eauto.
Qed.

(** Whether a property read throws depends on the object, not on the key. *)
Lemma prop_defined v k1 k2 x :
  prop v k1 = Ok x -> exists y, prop v k2 = Ok y.
Proof.
  unfold prop. destruct v as [[]|]; intros H; try discriminate; eauto.
Qed.

(** The continuation of a signing request that succeeded: the credential is
    pushed first; the archive is new and empty, nothing else went out. *)
Lemma signing_ok_step s text response jwt s' :
  parse text = Some response -> prop (Some response) "jwtAccess" = Ok jwt ->
  step s (SigningSettled (Ok text)) = Some s' ->
  uploads (this s') = uploads (this s) ++ [jwt]
  /\ awaitingSign s' = false /\ entries s' = [] /\ network s' = network s.
Proof.
  intros P J H. unfold entries. open_state s. unfold_js.
  destruct v_sign; [|discriminate]. injection H as <-.
  destruct (prop_defined _ _ "signedRequest" _ J) as (url & U).
  unfold JSON_parse. rewrite P. simpl. rewrite J. simpl. rewrite U. simpl.
  repeat (break_match; simpl); intuition reflexivity.
Qed.

(** C10: the credential is pushed onto [uploads] by the continuation of the
    signing request: right after it the list ends with the credential while
    the archive is still empty and no PUT has gone out; and whatever happens
    next, a failed assembly or a failed upload included, the list stays that
    way. *)
Theorem credential_recorded_before_upload s text response jwt tr st :
  enabled (this s) = true ->
  parse text = Some response -> prop (Some response) "jwtAccess" = Ok jwt ->
  run (after postInvoke s) (SigningSettled (Ok text) :: tr) = Some st ->
  (exists s1,
      step (after postInvoke s) (SigningSettled (Ok text)) = Some s1
      /\ uploads (this s1) = uploads (this s) ++ [jwt]
      /\ entries s1 = [] /\ puts s1 = puts s)
  /\ uploads (this st) = uploads (this s) ++ [jwt].
Proof.
  intros E P J R. unfold after in *. rewrite (postInvoke_enabled s E) in *.
  destruct (upload_sequence_spec s) as (_ & _ & _ & _ & _ & _ & _ & U & PU & _).
  unfold after in *. cbn [run] in R.
  destruct (step (fst (upload_sequence s)) (SigningSettled (Ok text)))
    as [s1|] eqn:S1; [|discriminate].
  destruct (signing_ok_step _ _ _ _ _ P J S1) as (U1 & A1 & E1 & N1).
  rewrite U in U1. split.
  - exists s1. repeat split; auto. unfold puts. rewrite N1. exact PU.
  - rewrite (run_uploads _ _ _ R A1). exact U1.
Qed.

Lemma occurrences_app c l1 l2 :
  occurrences c (l1 ++ l2) = occurrences c l1 + occurrences c l2.
Proof. unfold occurrences. rewrite filter_app, length_app. reflexivity. Qed.

(** C9: a run of [postInvoke] whose signing response carries the [jwtAccess]
    tok1 adds exactly one occurrence of tok1 to the [uploads] that [meta]
    reports; on a new instance, whose list is empty, the list is then that
    one credential. *)
Theorem one_credential_per_signing s text response tr st :
  enabled (this s) = true ->
  parse text = Some response ->
  prop (Some response) "jwtAccess" = Ok (Some (JStr "tok1")) ->
  run (after postInvoke s) (SigningSettled (Ok text) :: tr) = Some st ->
  occurrences "tok1" (meta_uploads (meta st))
  = S (occurrences "tok1" (uploads (this s)))
  /\ (uploads (this s) = [] -> meta_uploads (meta st) = [Some (JStr "tok1")]).
Proof.
  intros E P J R. unfold after in *. rewrite (postInvoke_enabled s E) in *.
  destruct (upload_sequence_spec s) as (_ & _ & _ & _ & _ & _ & _ & U & _).
  unfold after in *. cbn [run] in R.
  destruct (step (fst (upload_sequence s)) (SigningSettled (Ok text)))
    as [s1|] eqn:S1; [|discriminate].
  destruct (signing_ok_step _ _ _ _ _ P J S1) as (U1 & A1 & _).
  rewrite U in U1. cbn [meta meta_uploads].
  rewrite (run_uploads _ _ _ R A1), U1. split.
  - rewrite occurrences_app.
    change (occurrences "tok1" [Some (JStr "tok1")]) with 1. lia.
  - intros ->. reflexivity.
Qed.

(** *** A zero count *)

Lemma zero_count_no_finalize s :
  closure_inv s -> expected s = 0 -> finalize_calls s = 0.
Proof.
  unfold closure_inv, finalize_calls. destruct (archive s) as [a|]; [|reflexivity].
  intros (_ & C & _ & L & Q & F) Z. rewrite F.
  assert (filesSeen s = 0) as -> by lia. reflexivity.
Qed.

Lemma zero_count_run tr : forall s st,
  run s tr = Some st -> closure_inv s -> expected s = 0 ->
  finalize_calls st = 0 /\ puts st = puts s.
Proof.
  induction tr as [|ev tr IH]; simpl; intros s st R I Z.
  - injection R as <-. split; [apply zero_count_no_finalize; assumption|reflexivity].
  - destruct (step s ev) as [s1|] eqn:E; [|discriminate].
    pose proof (step_closure_inv _ _ _ E I) as I1.
    pose proof (same_plugin_expected _ _ (step_same_plugin _ _ _ E)) as X.
    destruct (IH s1 st R I1) as (F & P); [congruence|].
    split; [exact F|]. rewrite P. unfold puts.
    destruct (step_network _ _ _ E) as [->|(_ & Pos & _)]; [reflexivity|].
    rewrite (zero_count_no_finalize s I Z) in Pos. lia.
Qed.

(** C5, as the code has it: with no capture type enabled, [postInvoke] (whose
    flag [enabled] is then off) resolves with [false] and issues no request;
    and the archive and upload sequence itself, run at an expected count of
    0, never calls [finalize] and never issues a PUT. *)
Theorem zero_count_never_uploads s :
  profilerEnabled (this s) = false -> heapsnapshotEnabled (this s) = false ->
  (enabled (this s) = false ->
   promise (after postInvoke s) = Resolved (Some (JBool false))
   /\ network (after postInvoke s) = network s)
  /\ (forall tr st,
        run (after upload_sequence s) tr = Some st ->
        finalize_calls st = 0 /\ puts st = puts s).
Proof.
  intros P H. split.
  - intros E. unfold after. rewrite (postInvoke_disabled s E). auto.
  - intros tr st R.
    destruct (upload_sequence_spec s) as (_ & I & Q & _ & _ & _ & _ & _ & PU & _).
    rewrite <- PU. apply (zero_count_run tr _ _ R I).
    rewrite (same_plugin_expected _ _ Q). unfold expected. rewrite P, H. reflexivity.
Qed.

(** *** Which entries the archive is given *)

Lemma step_heap_entry s ev s' :
  step s ev = Some s' -> closure_inv s ->
  has_entry "profile.heapsnapshot" s'
  = has_entry "profile.heapsnapshot" s || is_snapshot_taken ev.
Proof.
  intros H I. unfold has_entry, entries, closure_inv, pending_appends in *.
  by_cases s ev.
  all: rewrite ?existsb_app, ?orb_false_r; simpl;
       rewrite ?orb_false_r, ?orb_true_r; try reflexivity.
  all: try (intuition (try congruence; try lia); fail).
Qed.

Lemma run_heap_entry tr : forall s st,
  run s tr = Some st -> closure_inv s ->
  has_entry "profile.heapsnapshot" st
  = has_entry "profile.heapsnapshot" s || existsb is_snapshot_taken tr.
Proof.
  induction tr as [|ev tr IH]; simpl; intros s st R I.
  - injection R as <-. rewrite orb_false_r. reflexivity.
  - destruct (step s ev) as [s1|] eqn:E; [|discriminate].
    rewrite (IH _ _ R (step_closure_inv _ _ _ E I)).
    rewrite (step_heap_entry _ _ _ E I), orb_assoc. reflexivity.
Qed.

(** C4, as the code has it: the heap stream is handed to the archive by the
    callback of the [takeHeapSnapshot] request: in every run the archive
    holds the entry profile.heapsnapshot if and only if that callback has
    run. *)
Theorem heap_entry_handed_over_by_callback s tr st :
  enabled (this s) = true ->
  run (after postInvoke s) tr = Some st ->
  (has_entry "profile.heapsnapshot" st = true <-> In SnapshotTaken tr).
Proof.
  intros E R. unfold after in R. rewrite (postInvoke_enabled s E) in R.
  destruct (upload_sequence_spec s) as (_ & I & _ & A & _).
  rewrite (run_heap_entry _ _ _ R I).
  unfold has_entry at 1, entries. unfold after in A. rewrite A. simpl.
  rewrite existsb_exists. split.
  - intros (ev & In' & T). destruct ev; try discriminate. exact In'.
  - intros In'. exists SnapshotTaken. auto.
Qed.

(** While the callback of [Profiler.stop] waits, the archive holds no CPU
    profile. *)
Lemma step_cpu_waiting s ev s' :
  step s ev = Some s' ->
  (stopPosted s = true -> cpu_entries s = []) ->
  (stopPosted s' = true -> cpu_entries s' = []).
Proof.
  intros H I. unfold cpu_entries, entries in *.
  by_cases s ev.
  all: rewrite ?filter_app; simpl; rewrite ?app_nil_r; auto; try discriminate.
Qed.

Lemma run_cpu_waiting tr s st :
  run s tr = Some st ->
  (stopPosted s = true -> cpu_entries s = []) ->
  (stopPosted st = true -> cpu_entries st = []).
Proof.
  apply (run_invariant (fun s => stopPosted s = true -> cpu_entries s = [])).
  apply step_cpu_waiting.
Qed.

(** The callback, given a profile, appends its serialization. *)
Lemma step_profiler_stopped s err res profile s' :
  step s (ProfilerStopped err res) = Some s' -> closure_inv s ->
  prop res "profile" = Ok (Some profile) ->
  stopPosted s = true
  /\ cpu_entries s' = cpu_entries s ++ [cpuprofile_entry profile]
  /\ stopPosted s' = false /\ awaitingSign s' = false.
Proof.
  intros H I P. unfold cpu_entries, entries, closure_inv, pending_appends in *.
  open_state s. unfold_js. destruct v_stop; [|discriminate].
  injection H as <-. rewrite P. simpl.
  destruct v_archive as [a|]; simpl in *; [|intuition discriminate].
  destruct I as (-> & C & Em & L & Q & F).
  assert (Archiver.finalizeCalls a = 0) as Z.
  { rewrite F. destruct (Nat.leb_spec v_count v_seen); [lia|].
    rewrite andb_false_r. reflexivity. }
  rewrite Z. simpl. rewrite filter_app. simpl. auto.
Qed.

(** Afterwards nothing adds or removes a CPU profile. *)
Lemma step_cpu_kept s ev s' :
  step s ev = Some s' -> stopPosted s = false -> awaitingSign s = false ->
  cpu_entries s' = cpu_entries s
  /\ stopPosted s' = false /\ awaitingSign s' = false.
Proof.
  intros H S A. unfold cpu_entries, entries in *.
  by_cases s ev.
  all: rewrite ?filter_app; simpl; rewrite ?app_nil_r; auto; try discriminate.
Qed.

Lemma run_cpu_kept tr : forall s st,
  run s tr = Some st -> stopPosted s = false -> awaitingSign s = false ->
  cpu_entries st = cpu_entries s.
Proof.
  induction tr as [|ev tr IH]; simpl; intros s st R S A.
  - injection R as <-. reflexivity.
  - destruct (step s ev) as [s1|] eqn:E; [|discriminate].
    destruct (step_cpu_kept _ _ _ E S A) as (<- & S1 & A1). eauto.
Qed.

(** C8: when the callback of [Profiler.stop] is given a result with a
    profile object, the archive holds from then on exactly one entry named
    profile.cpuprofile; its payload is [JSON.stringify] of the profile, and
    [JSON.parse] of that payload is the profile again. *)
Theorem cpu_profile_entry s tr1 err res profile tr2 st :
  enabled (this s) = true ->
  prop res "profile" = Ok (Some profile) -> wf profile = true ->
  run (after postInvoke s) (tr1 ++ ProfilerStopped err res :: tr2) = Some st ->
  filter (named "profile.cpuprofile") (entries st) = [cpuprofile_entry profile]
  /\ payload st (cpuprofile_entry profile) = Some (stringify profile)
  /\ parse (stringify profile) = Some profile.
Proof.
  intros E P W R. unfold after in R. rewrite (postInvoke_enabled s E) in R.
  destruct (upload_sequence_spec s) as (_ & I & _ & A & _ & SP & _).
  rewrite run_app in R.
  destruct (run (fst (upload_sequence s)) tr1) as [s1|] eqn:R1; [|discriminate].
  cbn [run] in R.
  destruct (step s1 (ProfilerStopped err res)) as [s2|] eqn:S2; [|discriminate].
  pose proof (run_closure_inv _ _ _ R1 I) as I1.
  destruct (step_profiler_stopped _ _ _ _ _ S2 I1 P) as (Sp1 & C2 & Sp2 & A2).
  assert (cpu_entries s1 = []) as C1.
  { apply (run_cpu_waiting _ _ _ R1); [|exact Sp1].
    unfold after in SP. rewrite SP. discriminate. }
  rewrite C1 in C2. fold (cpu_entries st).
  rewrite (run_cpu_kept _ _ _ R Sp2 A2), C2.
  repeat split. apply parse_stringify. exact W.
Qed.

(** *** A rejected upload *)

Local Open Scope string_scope.
Local Open Scope list_scope.

Lemma step_upload_over s ev s' :
  step s ev = Some s' -> upload_over s -> upload_over s' /\ promise s' = promise s.
Proof.
  intros H (A & P & a & Ar & F). unfold upload_over.
  by_cases s ev.
  all: try (injection Ar as <-; simpl in *).
  all: try congruence.
  all: repeat split; eauto.
Qed.

Lemma run_upload_over tr : forall s st,
  run s tr = Some st -> upload_over s -> promise st = promise s.
Proof.
  induction tr as [|ev tr IH]; simpl; intros s st R U.
  - injection R as <-. reflexivity.
  - destruct (step s ev) as [s1|] eqn:E; [|discriminate].
    destruct (step_upload_over _ _ _ E U) as (U1 & <-). eauto.
Qed.

(** A rejected upload is neither caught nor logged: the rejection goes
    unhandled and the promise is left as it was. *)
Lemma upload_rejection_unhandled s e s' :
  step s (UploadSettled (Throw e)) = Some s' ->
  promise s' = promise s /\ console s' = console s
  /\ uncaught s' = uncaught s ++ [e].
Proof.
  intros H. open_state s. unfold_js.
  destruct v_put; [|discriminate]. injection H as <-. auto.
Qed.

(** C2, the code at the failing input: signing succeeds, the CPU profile is
    archived, the archive finishes, and the PUT request is rejected.  The
    promise of [postInvoke] is still pending, the rejection was not caught
    (it is left unhandled), no line was logged for it, and no later event
    resolves the promise. *)
Theorem put_failure_leaves_promise_pending :
  exists st,
    run (after postInvoke (sample true false)) (cpu_run (Throw "ECONNRESET"))
    = Some st
    /\ promise st = Pending
    /\ uncaught st = ["ECONNRESET"]
    /\ console st
       = ["@iopipe/profiler::Requesting signed url from signer.us-east-1.iopipe.com";
          "@iopipe/profiler::adding cpuprofile to archive.";
          "@iopipe/profiler::Archive received entry [0/1]";
          "@iopipe/profiler::Last entry. Finalizing archive."]
    /\ List.length (puts st) = 1
    /\ forall tr st', run st tr = Some st' -> promise st' = Pending.
Proof.
  eexists. split; [vm_compute; reflexivity|].
  repeat split; try reflexivity.
  intros tr st' R. apply run_upload_over in R; [rewrite R; reflexivity|].
  unfold upload_over. repeat split; try reflexivity.
  eexists. split; reflexivity.
Qed.

(** *** What [postReport] throws *)

(** What [postReport] throws is what [disconnect] throws. *)
Lemma postReport_thrown s :
  thrown postReport s
  = disconnect_error (backend (inspector (this s)))
                     (connected (inspector (this s))).
Proof.
  unfold thrown, postReport, inspector_disconnect, bind, gets, throw, modify.
  simpl. destruct (disconnect_error _ _); reflexivity.
Qed.

(** *** Where the code departs from the specification *)

(** C4, the counterexample: with heap snapshots enabled, right after
    [takeHeapSnapshot] is posted the archive holds no entry. *)
Lemma heap_entry_not_handed_over_when_issued :
  ~ handed_over_when_issued (sample false true) signing_response.
Proof.
  intros H.
  specialize (H (final (after postInvoke (sample false true))
                       [SigningSettled (Ok signing_response)])).
  assert (has_entry "profile.heapsnapshot"
            (final (after postInvoke (sample false true))
                   [SigningSettled (Ok signing_response)]) = false) as N
    by (vm_compute; reflexivity).
  rewrite H in N; [discriminate| |]; vm_compute; reflexivity.
Qed.

(** C5, the counterexample: with both capture types off, no run of the
    sequence issues a PUT. *)
Lemma no_upload_at_zero_count : ~ uploads_at_zero_count (sample false false).
Proof.
  intros (tr & st & R & L).
  destruct (upload_sequence_spec (sample false false))
    as (_ & I & Q & _ & _ & _ & _ & _ & PU & _).
  destruct (zero_count_run tr _ _ R I) as (_ & P).
  - rewrite (same_plugin_expected _ _ Q). reflexivity.
  - rewrite P, PU in L. lia.
Qed.

(** *** Sample runs *)

Example parse_signing_response :
  parse (q "{ 'signedRequest': 'https://x/y', 'jwtAccess': 'tok1' }")
  = Some parsed_signing_response.
Proof. vm_compute. reflexivity. Qed.

Example parse_examples :
  parse (q "[1, -20, true, null, {'a': [], 'b': {}, 'a': 'x\ny\u0041'}]")
  = Some (JArr [JNum 1; JNum (-20); JBool true; JNull;
                JObj [("a", JStr (String "x" (String "010" (String "y" "A"))));
                      ("b", JObj [])]])
  /\ parse "01" = None /\ parse "1.5" = None /\ parse "[1,]" = None
  /\ parse "" = None /\ parse "nul" = None /\ parse "-" = None
  /\ stringify nodes_profile = q "{'nodes':[]}".
Proof. vm_compute. repeat split; reflexivity. Qed.

(** A signing service that answers with an error page instead of JSON. *)
Lemma signing_failure_resolves_without_upload_witness :
  let s := sample true true in
  let r := Ok "<html>502 Bad Gateway</html>" in
  let tr := [chunk_event "a"; EnablingReply "HeapProfiler.enable" None] in
  let st := final (after postInvoke s) (SigningSettled r :: tr) in
  enabled (this s) = true
  /\ signing_failed r
  /\ run (after postInvoke s) (SigningSettled r :: tr) = Some st
  /\ thrown postInvoke s = None
  /\ promise st = Resolved undefined
  /\ network st = network (after postInvoke s)
  /\ puts st = puts s.
Proof.
  intros s r tr st.
  assert (enabled (this s) = true) as E by reflexivity.
  assert (signing_failed r) as F by (vm_compute; reflexivity).
  assert (run (after postInvoke s) (SigningSettled r :: tr) = Some st) as R
    by (vm_compute; reflexivity).
  split; [exact E|]. split; [exact F|]. split; [exact R|].
  exact (signing_failure_resolves_without_upload s r tr st E F R).
Defined.

(** The heap entry, at the run of a heap snapshot on Node's session. *)
Lemma heap_entry_handed_over_by_callback_witness :
  let s := sample false true in
  let st := final (after postInvoke s) heap_run in
  enabled (this s) = true
  /\ run (after postInvoke s) heap_run = Some st
  /\ (has_entry "profile.heapsnapshot" st = true <-> In SnapshotTaken heap_run).
Proof.
  intros s st.
  assert (enabled (this s) = true) as E by reflexivity.
  assert (run (after postInvoke s) heap_run = Some st) as R
    by (vm_compute; reflexivity).
  split; [exact E|]. split; [exact R|].
  exact (heap_entry_handed_over_by_callback s heap_run st E R).
Defined.

(** The plugin with both capture types off. *)
Lemma zero_count_never_uploads_witness :
  let s := sample false false in
  profilerEnabled (this s) = false
  /\ heapsnapshotEnabled (this s) = false
  /\ (enabled (this s) = false ->
      promise (after postInvoke s) = Resolved (Some (JBool false))
      /\ network (after postInvoke s) = network s)
  /\ (forall tr st,
        run (after upload_sequence s) tr = Some st ->
        finalize_calls st = 0 /\ puts st = puts s).
Proof.
  intros s.
  assert (profilerEnabled (this s) = false) as P by reflexivity.
  assert (heapsnapshotEnabled (this s) = false) as H by reflexivity.
  split; [exact P|]. split; [exact H|].
  exact (zero_count_never_uploads s P H).
Defined.

(** The profile with an empty list of nodes. *)
Lemma cpu_profile_entry_witness :
  let s := sample true false in
  let tr1 := [SigningSettled (Ok signing_response)] in
  let tr2 := [ArchiveEntry; ArchiveData "PK"; ArchiveFinish; UploadSettled (Ok "")] in
  let st := final (after postInvoke s) (cpu_run (Ok "")) in
  enabled (this s) = true
  /\ prop stop_result "profile" = Ok (Some nodes_profile)
  /\ wf nodes_profile = true
  /\ run (after postInvoke s) (tr1 ++ ProfilerStopped None stop_result :: tr2)
     = Some st
  /\ filter (named "profile.cpuprofile") (entries st)
     = [cpuprofile_entry nodes_profile]
  /\ payload st (cpuprofile_entry nodes_profile) = Some (stringify nodes_profile)
  /\ parse (stringify nodes_profile) = Some nodes_profile.
Proof.
  intros s tr1 tr2 st.
  assert (enabled (this s) = true) as E by reflexivity.
  assert (prop stop_result "profile" = Ok (Some nodes_profile)) as P by reflexivity.
  assert (wf nodes_profile = true) as W by reflexivity.
  assert (run (after postInvoke s) (tr1 ++ ProfilerStopped None stop_result :: tr2)
          = Some st) as R by (vm_compute; reflexivity).
  split; [exact E|]. split; [exact P|]. split; [exact W|]. split; [exact R|].
  exact (cpu_profile_entry s tr1 None stop_result nodes_profile tr2 st E P W R).
Defined.

(** The credential tok1, at the run of both capture types. *)
Lemma one_credential_per_signing_witness :
  let s := sample true true in
  let tr := tl full_run in
  let st := final (after postInvoke s) full_run in
  enabled (this s) = true
  /\ parse signing_response = Some parsed_signing_response
  /\ prop (Some parsed_signing_response) "jwtAccess" = Ok (Some (JStr "tok1"))
  /\ run (after postInvoke s) (SigningSettled (Ok signing_response) :: tr) = Some st
  /\ occurrences "tok1" (meta_uploads (meta st))
     = S (occurrences "tok1" (uploads (this s)))
  /\ (uploads (this s) = [] -> meta_uploads (meta st) = [Some (JStr "tok1")]).
Proof.
  intros s tr st.
  assert (enabled (this s) = true) as E by reflexivity.
  assert (parse signing_response = Some parsed_signing_response) as P
    by (vm_compute; reflexivity).
  assert (prop (Some parsed_signing_response) "jwtAccess"
          = Ok (Some (JStr "tok1"))) as J by reflexivity.
  assert (run (after postInvoke s) (SigningSettled (Ok signing_response) :: tr)
          = Some st) as R by (vm_compute; reflexivity).
  split; [exact E|]. split; [exact P|]. split; [exact J|]. split; [exact R|].
  exact (one_credential_per_signing s signing_response parsed_signing_response
           tr st E P J R).
Defined.

(** The credential is on the list although the upload was rejected. *)
Lemma credential_recorded_before_upload_witness :
  let s := sample true false in
  let tr := tl (cpu_run (Throw "ECONNRESET")) in
  let st := final (after postInvoke s) (cpu_run (Throw "ECONNRESET")) in
  let jwt := Some (JStr "tok1") in
  enabled (this s) = true
  /\ parse signing_response = Some parsed_signing_response
  /\ prop (Some parsed_signing_response) "jwtAccess" = Ok jwt
  /\ run (after postInvoke s) (SigningSettled (Ok signing_response) :: tr) = Some st
  /\ (exists s1,
        step (after postInvoke s) (SigningSettled (Ok signing_response)) = Some s1
        /\ uploads (this s1) = uploads (this s) ++ [jwt]
        /\ entries s1 = [] /\ puts s1 = puts s)
  /\ uploads (this st) = uploads (this s) ++ [jwt].
Proof.
  intros s tr st jwt.
  assert (enabled (this s) = true) as E by reflexivity.
  assert (parse signing_response = Some parsed_signing_response) as P
    by (vm_compute; reflexivity).
  assert (prop (Some parsed_signing_response) "jwtAccess" = Ok jwt) as J
    by reflexivity.
  assert (run (after postInvoke s) (SigningSettled (Ok signing_response) :: tr)
          = Some st) as R by (vm_compute; reflexivity).
  split; [exact E|]. split; [exact P|]. split; [exact J|]. split; [exact R|].
  exact (credential_recorded_before_upload s signing_response
           parsed_signing_response jwt tr st E P J R).
Defined.

(** ** The hooks, the session and the console *)

(** *** The console *)

Lemma logged_line x : logged ("@iopipe/profiler::" ++ x) = true.
Proof. reflexivity. Qed.

Ltac console_lines :=
  first [ exists []; rewrite app_nil_r; repeat split; (reflexivity || discriminate)
        | eexists; split; [rewrite <- ?app_assoc; reflexivity|];
          split; [simpl; rewrite ?logged_line; reflexivity|];
          (discriminate || reflexivity) ].

Lemma step_console s ev s' : step s ev = Some s' -> console_grows s s'.
Proof.
  intros H. unfold console_grows. open_state s. destruct v_debug.
  all: destruct ev; unfold_js; crunch; subst; simpl in *.
  all: console_lines.
Qed.

Lemma hook_console h s : console_grows s (after (hook_body h) s).
Proof.
  unfold console_grows. open_state s. destruct v_debug.
  all: destruct h; cbn [hook_body]; unfold_js; crunch; subst; simpl in *.
  all: console_lines.
Qed.

Lemma hook_same_plugin h s : same_plugin s (after (hook_body h) s).
Proof.
  unfold same_plugin. open_state s.
  destruct h; cbn [hook_body]; unfold_js; crunch; subst; simpl in *; auto.
Qed.

Lemma act_console s a s' : act s a = Some s' -> console_grows s s'.
Proof.
  destruct a as [h|ev]; simpl.
  - intros [= <-]. apply hook_console.
  - apply step_console.
Qed.

Lemma act_same_plugin s a s' : act s a = Some s' -> same_plugin s s'.
Proof.
  destruct a as [h|ev]; simpl.
  - intros [= <-]. apply hook_same_plugin.
  - apply step_same_plugin.
Qed.

Lemma console_grows_trans s1 s2 s3 :
  same_plugin s1 s2 -> console_grows s1 s2 -> console_grows s2 s3 ->
  console_grows s1 s3.
Proof.
  intros (_ & _ & _ & C & _) (l1 & E1 & F1 & D1) (l2 & E2 & F2 & D2).
  exists (l1 ++ l2). rewrite E2, E1, <- app_assoc, forallb_app, F1, F2.
  repeat split. intros D. rewrite (D1 D), D2; [reflexivity|]. rewrite C. exact D.
Qed.

Lemma lifecycle_console l : forall s st,
  lifecycle s l = Some st -> same_plugin s st /\ console_grows s st.
Proof.
  induction l as [|a l IH]; simpl; intros s st R.
  - injection R as <-. split; [apply same_plugin_refl|].
    exists []. rewrite app_nil_r. auto.
  - destruct (act s a) as [s1|] eqn:E; [|discriminate].
    destruct (IH _ _ R) as (P & G).
    pose proof (act_same_plugin _ _ _ E) as P1.
    split; [eapply same_plugin_trans; eauto|].
    eapply console_grows_trans; eauto. eapply act_console; eauto.
Qed.

(** X5: with [debug] off the plugin prints nothing: over any sequence of hook
    calls and events the console stays as it was. *)
Theorem silent_without_debug s l st :
  Config.debug (config (this s)) = false ->
  lifecycle s l = Some st -> console st = console s.
Proof.
  intros D R. destruct (lifecycle_console _ _ _ R) as (_ & lines & E & _ & N).
  rewrite E, (N D), app_nil_r. reflexivity.
Qed.

(** X6: over any sequence of hook calls and events the console only grows,
    and every line the plugin adds starts with the prefix of [log],
    @iopipe/profiler:: . *)
Theorem console_lines_are_prefixed s l st :
  lifecycle s l = Some st ->
  exists lines, console st = console s ++ lines /\ forallb logged lines = true.
Proof.
  intros R. destruct (lifecycle_console _ _ _ R) as (_ & lines & E & F & _).
  exists lines. auto.
Qed.

(** *** A disabled plugin *)

Lemma act_idle s a s' : act s a = Some s' -> idle s -> idle s'.
Proof.
  intros H I. unfold idle, quiet in *.
  destruct a as [h|ev]; simpl in H.
  - injection H as <-. open_state s. simpl in *.
    destruct I as (-> & (-> & -> & -> & -> & ->) & -> & -> & -> & -> & -> & -> & -> & P).
    destruct h; cbn [hook_body]; unfold_js; crunch; subst; simpl in *;
      intuition congruence.
  - by_cases s ev. all: intuition congruence.
Qed.

Lemma instance_idle e o i :
  enabled (this (instantiateProfilerPlugin e o i)) = false ->
  idle (instantiateProfilerPlugin e o i).
Proof. intros E. unfold idle, quiet. simpl in *. rewrite E. intuition. Qed.

Lemma lifecycle_invariant (P : St -> Prop) :
  (forall s a s', act s a = Some s' -> P s -> P s') ->
  forall l s st, lifecycle s l = Some st -> P s -> P st.
Proof.
  intros Hact. induction l as [|a l IH]; simpl; intros s st R Hs.
  - injection R as <-. exact Hs.
  - destruct (act s a) as [s1|] eqn:E; [|discriminate]. eauto.
Qed.

(** X1: an instance on which neither capture type is enabled does nothing.
    Whatever hooks the host calls on it and whatever events occur, it sends
    no request, posts nothing to the inspector, prints nothing, throws
    nothing in a listener, records no credential and builds no archive; its
    [postInvoke] resolves with [false]. *)
Theorem disabled_plugin_does_nothing e o i l st :
  enabled (this (instantiateProfilerPlugin e o i)) = false ->
  lifecycle (instantiateProfilerPlugin e o i) l = Some st ->
  network st = [] /\ posted st = [] /\ console st = [] /\ uncaught st = []
  /\ uploads (this st) = [] /\ archive st = None
  /\ (promise st = NotCalled \/ promise st = Resolved (Some (JBool false))).
Proof.
  intros E R.
  pose proof (lifecycle_invariant idle act_idle _ _ _ R (instance_idle e o i E)) as I.
  unfold idle, quiet in I. intuition.
Qed.

(** *** The session *)

Lemma step_session s ev s' :
  step s ev = Some s' -> inspector (this s') = inspector (this s).
Proof. intros H. by_cases s ev. all: reflexivity. Qed.

(** On Node's session an enabled [preInvoke] reconnects and sends the
    enabling requests; nothing fails. *)
Lemma preInvoke_node s :
  backend (inspector (this s)) = node_backend -> enabled (this s) = true ->
  thrown preInvoke s = None
  /\ inspector (this (after preInvoke s))
     = {| connected := true; backend := node_backend |}
  /\ posted (after preInvoke s) = posted s ++ enabling_posts s
  /\ enablePosted (after preInvoke s)
     = enablePosted s ++ map fst (enabling_posts s)
  /\ console (after preInvoke s) = console s
  /\ network (after preInvoke s) = network s.
Proof.
  intros B E. unfold enabling_posts. open_state s. simpl in *. subst.
  unfold_js. destruct v_heapflag, v_cpu; simpl;
    rewrite ?app_nil_r, <- ?app_assoc; repeat split; reflexivity.
Qed.

Lemma hook_session_node h s :
  backend (inspector (this s)) = node_backend ->
  thrown (hook_body h) s = None
  /\ inspector (this (after (hook_body h) s))
     = {| connected :=
            match h with
            | PreInvoke => if enabled (this s) then true
                           else connected (inspector (this s))
            | PostInvoke => connected (inspector (this s))
            | PostReport => false
            end;
          backend := node_backend |}.
Proof.
  intros B. destruct h; cbn [hook_body].
  - destruct (enabled (this s)) eqn:E.
    + destruct (preInvoke_node s B E) as (T & I & _). auto.
    + open_state s. simpl in *. subst. unfold_js. auto.
  - split; [apply thrown_postInvoke|].
    open_state s. simpl in *. subst. unfold_js. crunch; reflexivity.
  - open_state s. simpl in *. subst. unfold_js. auto.
Qed.

Lemma lifecycle_session_node l : forall s st,
  backend (inspector (this s)) = node_backend ->
  lifecycle s l = Some st ->
  inspector (this st)
  = {| connected := last_connection (enabled (this s))
                      (connected (inspector (this s))) l;
       backend := node_backend |}.
Proof.
  induction l as [|a l IH]; simpl; intros s st B R.
  - injection R as <-. rewrite <- B. destruct (inspector (this s)); reflexivity.
  - destruct (act s a) as [s1|] eqn:E; [|discriminate].
    pose proof (act_same_plugin _ _ _ E) as (_ & _ & En & _).
    destruct a as [h|ev]; simpl in E.
    + injection E as <-. destruct (hook_session_node h s B) as (_ & I).
      rewrite (IH _ _ (f_equal backend I) R), I, En.
      destruct h; reflexivity.
    + pose proof (step_session _ _ _ E) as I.
      rewrite (IH s1 st); [|rewrite I; exact B|exact R].
      rewrite I, En. reflexivity.
Qed.

(** X15: on Node's session no hook ever throws, and whether the session is
    connected after any sequence of hook calls and events is decided by the
    last [preInvoke] (of an enabled plugin) or [postReport]: connected after
    the former, disconnected after the latter. *)
Theorem node_session_follows_hooks s l st :
  backend (inspector (this s)) = node_backend ->
  lifecycle s l = Some st ->
  connected (inspector (this st))
  = last_connection (enabled (this s)) (connected (inspector (this s))) l
  /\ forall h, thrown (hook_body h) st = None.
Proof.
  intros B R. pose proof (lifecycle_session_node _ _ _ B R) as I.
  rewrite I. split; [reflexivity|].
  intros h. apply hook_session_node. rewrite I. reflexivity.
Qed.

(** X3: [preInvoke] catches and logs what [connect] throws, but the requests
    after it are posted outside any [try]: on a session that cannot be
    connected, and whose [post] then fails, the first enabling request throws
    to the host; the session stays disconnected and nothing is posted. *)
Theorem preInvoke_throws_when_not_connected s e e' :
  enabled (this s) = true ->
  profilerEnabled (this s) || heapsnapshotEnabled (this s) = true ->
  disconnect_error (backend (inspector (this s)))
                   (connected (inspector (this s))) = None ->
  connect_error (backend (inspector (this s))) false = Some e ->
  post_error (backend (inspector (this s))) false (first_enabling_method s)
  = Some e' ->
  thrown preInvoke s = Some e'
  /\ connected (inspector (this (after preInvoke s))) = false
  /\ posted (after preInvoke s) = posted s
  /\ console (after preInvoke s)
     = (if Config.debug (config (this s))
        then console s
             ++ [("@iopipe/profiler::warning connecting to inspector: " ++ e)%string]
        else console s).
Proof.
  intros E F D C P. unfold first_enabling_method in P.
  open_state s. simpl in *. subst. unfold_js. rewrite D. simpl. rewrite C. simpl.
  destruct v_heapflag; simpl in *.
  - rewrite P. simpl. auto.
  - destruct v_cpu; [|discriminate]. simpl. rewrite P. simpl. auto.
Qed.

(** *** The requests that start the CPU profiler *)

Lemma enabling_reply_step s m err rest :
  remove_first m (enablePosted s) = Some rest ->
  step s (EnablingReply m err)
  = Some (dispatch (on_enabling_reply m err) (set_enablePosted rest s)).
Proof. intros R. unfold step. rewrite R. reflexivity. Qed.

Lemma remove_first_in m l : In m l -> exists rest, remove_first m l = Some rest.
Proof.
  induction l as [|x l IH]; [intros []|]. intros H. simpl.
  destruct (String.eqb_spec m x) as [->|N]; [eauto|].
  destruct H as [->|H]; [congruence|].
  destruct (IH H) as (rest & ->). eauto.
Qed.

Lemma remove_first_last m l :
  exists rest, remove_first m (l ++ [m]) = Some rest.
Proof. apply remove_first_in. apply in_or_app. right. left. reflexivity. Qed.

(** Decides the comparisons of two literal strings. *)
Ltac eval_eqb :=
  repeat match goal with
    | |- context [String.eqb ?a ?b] =>
        let v := eval vm_compute in (String.eqb a b) in
        change (String.eqb a b) with v
    end.

(** One reply of the chain: it sends the next request, whether or not the
    reply carries an error. *)
Lemma enabling_reply_forwards s m err next params :
  (forall x, post_error (backend (inspector (this s)))
                        (connected (inspector (this s))) x = None) ->
  In m (enablePosted s) ->
  (m = "Profiler.enable" /\ next = "Profiler.setSamplingInterval"
   /\ params = Some (JObj [("interval", JNum (Config.sampleRate (config (this s))))]))
  \/ (m = "Profiler.setSamplingInterval" /\ next = "Profiler.start"
      /\ params = undefined) ->
  exists s',
    step s (EnablingReply m err) = Some s'
    /\ posted s' = posted s ++ [(next, params)]
    /\ In next (enablePosted s')
    /\ inspector (this s') = inspector (this s)
    /\ config (this s') = config (this s)
    /\ uncaught s' = uncaught s /\ network s' = network s.
Proof.
  intros P I M. destruct (remove_first_in _ _ I) as (rest & R).
  rewrite (enabling_reply_step _ _ err _ R). eexists. split; [reflexivity|].
  open_state s. simpl in *.
  destruct M as [(-> & -> & ->)|(-> & -> & ->)]; unfold_js; eval_eqb;
    destruct err; simpl; rewrite P; simpl;
    (repeat split; try reflexivity); apply in_or_app; right; left; reflexivity.
Qed.

(** The last reply of the chain sends nothing. *)
Lemma enabling_reply_ends s m err :
  In m (enablePosted s) ->
  m = "Profiler.start" \/ m = "HeapProfiler.enable" ->
  exists s',
    step s (EnablingReply m err) = Some s'
    /\ posted s' = posted s /\ uncaught s' = uncaught s /\ network s' = network s.
Proof.
  intros I M. destruct (remove_first_in _ _ I) as (rest & R).
  rewrite (enabling_reply_step _ _ err _ R). eexists. split; [reflexivity|].
  open_state s. simpl in *.
  destruct M as [->| ->]; unfold_js; eval_eqb; destruct err; simpl; auto.
Qed.

(** X4: the three requests that start the CPU profiler are chained through
    their callbacks, and a reply that carries an error is logged without
    breaking the chain: after the replies to Profiler.enable,
    Profiler.setSamplingInterval and Profiler.start, whatever their errors,
    the plugin has posted setSamplingInterval with the configured
    [sampleRate] as interval and then Profiler.start, and nothing else. *)
Theorem profiler_start_chain s e1 e2 e3 :
  (forall x, post_error (backend (inspector (this s)))
                        (connected (inspector (this s))) x = None) ->
  In "Profiler.enable" (enablePosted s) ->
  exists st,
    run s [EnablingReply "Profiler.enable" e1;
           EnablingReply "Profiler.setSamplingInterval" e2;
           EnablingReply "Profiler.start" e3] = Some st
    /\ posted st
       = posted s
         ++ [("Profiler.setSamplingInterval",
              Some (JObj [("interval", JNum (Config.sampleRate (config (this s))))]));
             ("Profiler.start", undefined)]
    /\ uncaught st = uncaught s /\ network st = network s.
Proof.
  intros P I.
  destruct (enabling_reply_forwards s _ e1 _ _ P I (or_introl (conj eq_refl (conj eq_refl eq_refl))))
    as (s1 & S1 & P1 & I1 & Se1 & C1 & U1 & N1).
  assert (forall x, post_error (backend (inspector (this s1)))
                      (connected (inspector (this s1))) x = None) as Q1
    by (rewrite Se1; exact P).
  destruct (enabling_reply_forwards s1 _ e2 _ _ Q1 I1 (or_intror (conj eq_refl (conj eq_refl eq_refl))))
    as (s2 & S2 & P2 & I2 & Se2 & C2 & U2 & N2).
  destruct (enabling_reply_ends s2 _ e3 I2 (or_introl eq_refl))
    as (s3 & S3 & P3 & U3 & N3).
  exists s3. cbn [run]. rewrite S1, S2, S3.
  rewrite P3, P2, P1, <- app_assoc, U3, U2, U1, N3, N2, N1.
  auto.
Qed.

(** *** The signing request *)

Lemma signing_body_wf o :
  wf_val (invokedFunctionArn (context_of o)) = true ->
  wf_val (awsRequestId (context_of o)) = true ->
  wf_val (startTimestamp o) = true ->
  wf (signing_body o) = true.
Proof.
  unfold signing_body, object_literal.
  destruct (invokedFunctionArn (context_of o)), (awsRequestId (context_of o)),
    (startTimestamp o); simpl; intros H1 H2 H3;
    rewrite ?H1, ?H2, ?H3; reflexivity.
Qed.

(** The closure a call of the executor starts with. *)
Lemma upload_sequence_fresh s :
  let s1 := after upload_sequence s in
  this s1 = this s /\ env s1 = env s /\ heap s1 = None
  /\ posted s1 = posted s /\ uncaught s1 = uncaught s
  /\ filesSeen s1 = 0
  /\ (invocationInstance (this s) <> None ->
      awaitingSign s1 = true /\ promise s1 = Pending).
Proof.
  open_state s. unfold_js. destruct v_inst; simpl; intuition congruence.
Qed.

(** X9: the signing request.  [postInvoke] of an enabled plugin with an
    invocation instance issues one request: a POST to the signer host, path
    /, authorised with the client token, whose body is a JSON text that
    reads back as the object of arn, requestId, timestamp and the extension
    .zip (a property whose value is [undefined] is left out); the promise is
    pending and the continuation waits for the reply. *)
Theorem signing_request_content s o :
  enabled (this s) = true -> invocationInstance (this s) = Some o ->
  wf_val (invokedFunctionArn (context_of o)) = true ->
  wf_val (awsRequestId (context_of o)) = true ->
  wf_val (startTimestamp o) = true ->
  network (after postInvoke s)
  = network s ++ [{| body := stringify (signing_body o);
                     method := "POST";
                     target := SignerHost (signerHostname (env s)) "/";
                     auth := token (this s) |}]
  /\ parse (stringify (signing_body o)) = Some (signing_body o)
  /\ prop (Some (signing_body o)) "arn" = Ok (invokedFunctionArn (context_of o))
  /\ prop (Some (signing_body o)) "requestId" = Ok (awsRequestId (context_of o))
  /\ prop (Some (signing_body o)) "timestamp" = Ok (startTimestamp o)
  /\ prop (Some (signing_body o)) "extension" = Ok (Some (JStr ".zip"))
  /\ awaitingSign (after postInvoke s) = true
  /\ promise (after postInvoke s) = Pending.
Proof.
  intros E I W1 W2 W3. split; [|split].
  - unfold after. rewrite (postInvoke_enabled s E).
    unfold signing_body, context_of. open_state s. simpl in *. subst.
    unfold_js. reflexivity.
  - apply parse_stringify, signing_body_wf; assumption.
  - unfold after. rewrite (postInvoke_enabled s E).
    destruct (upload_sequence_fresh s) as (_ & _ & _ & _ & _ & _ & A).
    unfold after in A. rewrite I in A.
    repeat split; try (apply A; discriminate).
    all: unfold signing_body, object_literal.
    all: destruct (invokedFunctionArn (context_of o)),
           (awsRequestId (context_of o)), (startTimestamp o); reflexivity.
Qed.

(** X10: a plugin made without an invocation instance.  Destructuring the
    instance fails inside the [try] of [postInvoke]: nothing is thrown to the
    host, the error is logged as an upload error, the promise is resolved,
    and no request goes out, then or later. *)
Theorem no_invocation_instance s tr st :
  enabled (this s) = true -> invocationInstance (this s) = None ->
  run (after postInvoke s) tr = Some st ->
  thrown postInvoke s = None
  /\ promise (after postInvoke s) = Resolved undefined
  /\ network (after postInvoke s) = network s
  /\ (exists e,
        console (after postInvoke s)
        = if Config.debug (config (this s))
          then console s ++ [("@iopipe/profiler::Error in upload: " ++ e)%string]
          else console s)
  /\ promise st = Resolved undefined
  /\ network st = network s
  /\ uploads (this st) = uploads (this s).
Proof.
  intros E I R. split; [apply thrown_postInvoke|].
  unfold after in *. rewrite (postInvoke_enabled s E) in *.
  assert (quiet (fst (upload_sequence s))
          /\ promise (fst (upload_sequence s)) = Resolved undefined
          /\ network (fst (upload_sequence s)) = network s
          /\ uploads (this (fst (upload_sequence s))) = uploads (this s)
          /\ console (fst (upload_sequence s))
             = (if Config.debug (config (this s))
                then console s
                     ++ [("@iopipe/profiler::Error in upload: "
                          ++ "TypeError: Cannot destructure property 'startTimestamp'")%string]
                else console s)) as (Q & P & N & U & C).
  { unfold quiet. open_state s. simpl in *. subst. unfold_js. intuition. }
  destruct (run_quiet _ _ _ R Q) as (P' & N').
  rewrite P', N', P, N, C.
  rewrite (run_uploads _ _ _ R), U by apply Q.
  repeat split; try reflexivity. eexists. reflexivity.
Qed.

(** *** What the continuation of the signing request sets up *)

Lemma signing_setup_step s text response jwt url s1 :
  parse text = Some response ->
  prop (Some response) "jwtAccess" = Ok jwt ->
  prop (Some response) "signedRequest" = Ok url ->
  (forall m, post_error (backend (inspector (this s)))
                        (connected (inspector (this s))) m = None) ->
  step s (SigningSettled (Ok text)) = Some s1 ->
  posted s1 = posted s ++ stopping_posts s
  /\ stopPosted s1 = profilerEnabled (this s) || stopPosted s
  /\ snapshotPosted s1 = heapsnapshotEnabled (this s) || snapshotPosted s
  /\ filesCount s1 = expected s /\ filesSeen s1 = 0
  /\ archive s1 = Some Archiver.create /\ archiveBuffer s1 = []
  /\ heap s1 = (if heapsnapshotEnabled (this s) then Some new_PassThrough
                else heap s)
  /\ signedRequestURL s1 = url
  /\ promise s1 = promise s
  /\ network s1 = network s
  /\ uncaught s1 = uncaught s.
Proof.
  intros P J U Po H. unfold stopping_posts, expected. open_state s.
  cbn [this inspector backend connected] in Po. unfold_js.
  destruct v_sign; [|discriminate]. injection H as <-.
  unfold JSON_parse. rewrite P. simpl. rewrite J. simpl. rewrite U. simpl.
  pose proof (Po "Profiler.stop") as P1.
  pose proof (Po "HeapProfiler.takeHeapSnapshot") as P2. clear Po.
  destruct v_cpu, v_heapflag; simpl.
  - rewrite P1. simpl. rewrite P2. simpl. rewrite <- app_assoc.
    repeat split; reflexivity.
  - rewrite P1. simpl. repeat split; reflexivity.
  - rewrite P2. simpl. repeat split; reflexivity.
  - rewrite app_nil_r. repeat split; reflexivity.
Qed.

(** The signing request that [postInvoke] waits for belongs to a pending
    promise. *)
Lemma awaited_signing_pending s r s1 :
  enabled (this s) = true ->
  step (after postInvoke s) (SigningSettled r) = Some s1 ->
  promise (after postInvoke s) = Pending.
Proof.
  intros E S1. unfold after in *. rewrite (postInvoke_enabled s E) in *.
  destruct (upload_sequence_spec s) as (_ & _ & _ & _ & _ & _ & _ & _ & _ & A).
  unfold after in A. unfold step in S1.
  destruct (awaitingSign (fst (upload_sequence s))); [exact A|discriminate].
Qed.

(** *** The upload *)

Lemma url_parse_ok u a : url_parse u = Ok a -> u = Some (JStr a).
Proof. unfold url_parse. destruct u as [[]|]; congruence. Qed.

Lemma step_upload_inv base s ev s' d :
  step s ev = Some s' -> upload_inv base s d ->
  upload_inv base s' (d ++ data_of [ev]).
Proof.
  intros H I. unfold upload_inv, puts, data_of, put_request in *.
  by_cases s ev.
  all: rewrite ?app_nil_r, ?filter_app; simpl; rewrite ?app_nil_r.
  all: try solve [intuition (try congruence; eauto)].
  split; [reflexivity|]. right.
  match goal with
  | U : url_parse _ = Ok ?url |- _ =>
      exists url; split; [exact (url_parse_ok _ _ U)|reflexivity]
  end.
Qed.

Lemma data_of_cons ev tr : data_of (ev :: tr) = data_of [ev] ++ data_of tr.
Proof. unfold data_of. simpl. rewrite app_nil_r. reflexivity. Qed.

Lemma run_upload_inv base tr : forall s st d,
  run s tr = Some st -> upload_inv base s d ->
  upload_inv base st (d ++ data_of tr).
Proof.
  induction tr as [|ev tr IH]; intros s st d R I.
  - injection R as <-. simpl. rewrite app_nil_r. exact I.
  - cbn [run] in R. destruct (step s ev) as [s1|] eqn:E; [|discriminate].
    rewrite data_of_cons, app_assoc.
    apply (IH s1); [exact R|]. apply (step_upload_inv _ _ _ _ _ E I).
Qed.

(** X8: one call of [postInvoke] issues at most one PUT, and the body of
    that PUT is the concatenation, in order, of all the chunks the archive
    emitted as 'data' in the run; it goes to the URL of the signing
    response.  No PUT goes out before 'finish', and no chunk after it. *)
Theorem one_put_of_the_archive_data s tr st :
  enabled (this s) = true ->
  run (after postInvoke s) tr = Some st ->
  puts st = puts s
  \/ exists url, signedRequestURL st = Some (JStr url)
                 /\ puts st = puts s ++ [put_request (data_of tr) url].
Proof.
  intros E R. unfold after in *. rewrite (postInvoke_enabled s E) in *.
  destruct (upload_sequence_spec s) as (_ & _ & _ & A & AP & _ & _ & _ & PU & _).
  unfold after in *.
  assert (upload_inv (puts s) (fst (upload_sequence s)) []) as I.
  { unfold upload_inv. rewrite A. auto. }
  pose proof (run_upload_inv _ _ _ _ _ R I) as F. simpl in F.
  unfold upload_inv in F. destruct (archive st) as [a|].
  - destruct F as (_ & F). destruct (Archiver.finished a); [exact F|].
    left. apply F.
  - left. apply F.
Qed.

(** *** When the promise resolves *)

Lemma step_fulfilled s ev s' :
  step s ev = Some s' -> awaitingSign s = false -> promise s = Pending ->
  promise s' = if is_fulfilled_upload ev then Resolved undefined else Pending.
Proof.
  intros H A P. by_cases s ev.
  all: congruence.
Qed.

Lemma step_resolved s ev s' v :
  step s ev = Some s' -> promise s = Resolved v -> promise s' = Resolved v.
Proof.
  intros H P. destruct (step_promise _ _ _ H) as [->|(Q & _)]; congruence.
Qed.

Lemma run_resolved tr : forall s st v,
  run s tr = Some st -> promise s = Resolved v -> promise st = Resolved v.
Proof.
  induction tr as [|ev tr IH]; simpl; intros s st v R P.
  - injection R as <-. exact P.
  - destruct (step s ev) as [s1|] eqn:E; [|discriminate].
    apply (IH s1); [exact R|]. apply (step_resolved _ _ _ _ E P).
Qed.

Lemma run_fulfilled tr : forall s st,
  run s tr = Some st -> awaitingSign s = false -> promise s = Pending ->
  promise st = if existsb is_fulfilled_upload tr then Resolved undefined
               else Pending.
Proof.
  induction tr as [|ev tr IH]; simpl; intros s st R A P.
  - injection R as <-. exact P.
  - destruct (step s ev) as [s1|] eqn:E; [|discriminate].
    pose proof (step_fulfilled _ _ _ E A P) as P1.
    destruct (step_uploads _ _ _ E A) as (_ & A1).
    destruct (is_fulfilled_upload ev); simpl.
    + apply (run_resolved _ _ _ _ R P1).
    + apply (IH s1); assumption.
Qed.

Lemma signing_settled_once s r s1 :
  step s (SigningSettled r) = Some s1 -> awaitingSign s1 = false.
Proof.
  intros H. open_state s. unfold_js. crunch. all: reflexivity.
Qed.

(** X7: once the continuation of the signing request has run and left the
    promise of [postInvoke] pending, the promise resolves exactly when an
    upload is fulfilled: it is resolved at the end of a run if and only if
    the run has a fulfilled upload, and pending if and only if it has none. *)
Theorem promise_resolves_on_fulfilled_upload s r s1 tr st :
  step (after postInvoke s) (SigningSettled r) = Some s1 ->
  promise s1 = Pending ->
  run s1 tr = Some st ->
  (promise st = Resolved undefined <-> exists b, In (UploadSettled (Ok b)) tr)
  /\ (promise st = Pending <-> forall b, ~ In (UploadSettled (Ok b)) tr).
Proof.
  intros S1 P R.
  assert (awaitingSign s1 = false) as A.
  { apply (signing_settled_once _ _ _ S1). }
  rewrite (run_fulfilled _ _ _ R A P).
  destruct (existsb is_fulfilled_upload tr) eqn:X.
  - apply existsb_exists in X. destruct X as (ev & I & F).
    destruct ev as [| | | | | | | | |[b|]]; try discriminate.
    split; split; try discriminate; eauto.
    intros N. exfalso. apply (N b I).
  - split; split; try discriminate; try reflexivity.
    + intros (b & I). exfalso.
      assert (existsb is_fulfilled_upload tr = true) as Y
        by (apply existsb_exists; exists (UploadSettled (Ok b)); auto).
      congruence.
    + intros _ b I.
      assert (existsb is_fulfilled_upload tr = true) as Y
        by (apply existsb_exists; exists (UploadSettled (Ok b)); auto).
      congruence.
Qed.

(** *** An archive that cannot be completed *)

Lemma step_short s ev s' :
  step s ev = Some s' -> short_of_entries s ->
  short_of_entries s' /\ network s' = network s /\ promise s' = promise s.
Proof.
  intros H (A & P & a & Ar & F & Em & Le & Lt).
  unfold short_of_entries, pending_appends in *.
  by_cases s ev.
  all: repeat split; try reflexivity; try lia.
  all: try solve [eexists; repeat split; simpl; rewrite ?length_app; simpl; lia].
Qed.

Lemma run_short tr : forall s st,
  run s tr = Some st -> short_of_entries s ->
  short_of_entries st /\ network st = network s /\ promise st = promise s.
Proof.
  induction tr as [|ev tr IH]; simpl; intros s st R Q.
  - injection R as <-. auto.
  - destruct (step s ev) as [s1|] eqn:E; [|discriminate].
    destruct (step_short _ _ _ E Q) as (Q1 & N1 & P1).
    destruct (IH _ _ R Q1) as (Q2 & N2 & P2).
    split; [exact Q2|split; congruence].
Qed.

Lemma short_no_finalize s : short_of_entries s -> finalize_calls s = 0.
Proof.
  intros (_ & _ & a & A & F & _). unfold finalize_calls. rewrite A. exact F.
Qed.

Lemma step_finish_inv s ev s' :
  step s ev = Some s' -> closure_inv s -> finish_inv s -> finish_inv s'.
Proof.
  intros H C F. unfold closure_inv, finish_inv in *.
  by_cases s ev.
  all: try solve [intuition (try congruence; try lia)].
Qed.

Lemma run_finish_inv tr : forall s st,
  run s tr = Some st -> closure_inv s -> finish_inv s -> finish_inv st.
Proof.
  induction tr as [|ev tr IH]; simpl; intros s st R C F.
  - injection R as <-. exact F.
  - destruct (step s ev) as [s1|] eqn:E; [|discriminate].
    apply (IH s1); [exact R| |].
    + apply (step_closure_inv _ _ _ E C).
    + apply (step_finish_inv _ _ _ E C F).
Qed.

Lemma profiler_stop_short s err res s1 :
  closure_inv s -> finish_inv s -> has_profile res = false ->
  step s (ProfilerStopped err res) = Some s1 ->
  short_of_entries s1 /\ network s1 = network s /\ promise s1 = promise s
  /\ exists e, uncaught s1 = uncaught s ++ [e].
Proof.
  intros C F N H.
  unfold closure_inv, finish_inv, short_of_entries, pending_appends, has_profile,
    JSON_stringify in *.
  open_state s. unfold_js. destruct v_stop; [|discriminate].
  injection H as <-. destruct v_archive as [a|]; [|simpl in C; intuition discriminate].
  destruct C as (C1 & C2 & C3 & C4 & C5 & C6). destruct F as (F1 & F2).
  simpl in *.
  assert (Archiver.finalizeCalls a = 0) as Z.
  { rewrite C6. destruct (0 <? v_seen)%nat eqn:X; [|reflexivity].
    destruct (v_count <=? v_seen)%nat eqn:Y; [|reflexivity].
    apply Nat.leb_le in Y. lia. }
  assert (v_put = false) as ->.
  { destruct v_put; [|reflexivity]. specialize (F1 (F2 eq_refl)). lia. }
  destruct (prop res "profile") as [[profile|]|e]; simpl; try discriminate.
  all: repeat split; try assumption; try (eexists; reflexivity).
  all: exists a; repeat split; try assumption; lia.
Qed.

(** X12: a [Profiler.stop] callback that receives no profile (no result to
    destructure, or a result without [profile]) throws in the callback and
    appends no entry.  The archive then never reaches its entry count: in
    every continuation of the run [finalize] is not called, no PUT is issued
    and the promise stays as it was. *)
Theorem stop_without_profile_never_uploads s tr0 s0 err res s1 tr st :
  enabled (this s) = true ->
  run (after postInvoke s) tr0 = Some s0 ->
  has_profile res = false ->
  step s0 (ProfilerStopped err res) = Some s1 ->
  run s1 tr = Some st ->
  (exists e, uncaught s1 = uncaught s0 ++ [e])
  /\ entries s1 = entries s0
  /\ finalize_calls st = 0
  /\ puts st = puts s
  /\ promise st = promise s0.
Proof.
  intros E R0 N S1 R. unfold after in *. rewrite (postInvoke_enabled s E) in *.
  destruct (upload_sequence_spec s) as (_ & C & _ & A & AP & _ & _ & _ & PU & _).
  unfold after in *.
  assert (finish_inv (fst (upload_sequence s))) as F
    by (unfold finish_inv; rewrite A; exact I).
  assert (upload_inv (puts s) (fst (upload_sequence s)) []) as UI
    by (unfold upload_inv; rewrite A; auto).
  pose proof (run_closure_inv _ _ _ R0 C) as C0.
  pose proof (run_finish_inv _ _ _ R0 C F) as F0.
  pose proof (run_upload_inv _ _ _ _ _ R0 UI) as U0.
  destruct (profiler_stop_short _ _ _ _ C0 F0 N S1) as (Q1 & N1 & P1 & X1).
  destruct (run_short _ _ _ R Q1) as (Q2 & N2 & P2).
  split; [exact X1|]. split; [|split; [|split]].
  - clear - N S1. unfold entries, has_profile, JSON_stringify in *.
    open_state s0. unfold_js. crunch. all: reflexivity.
  - apply short_no_finalize, Q2.
  - unfold puts. rewrite N2, N1. fold (puts s0).
    destruct Q1 as (_ & _ & a1 & A1 & Z1 & _).
    assert (exists a0, archive s0 = Some a0 /\ Archiver.finalizeCalls a0 = 0)
      as (a0 & A0 & Z0).
    { clear - S1 A1 Z1 N. unfold has_profile, JSON_stringify in *.
      open_state s0. unfold_js. crunch. all: eexists; split; eauto. }
    unfold upload_inv, finish_inv in *. rewrite A0 in *.
    destruct U0 as (_ & U0). destruct (Archiver.finished a0) eqn:Fi.
    + destruct F0 as (F0 & _). specialize (F0 eq_refl). lia.
    + apply U0.
  - congruence.
Qed.

(** *** A stop request that the session refuses *)

Lemma setup_failed_step s text response jwt url m e s1 :
  parse text = Some response ->
  prop (Some response) "jwtAccess" = Ok jwt ->
  prop (Some response) "signedRequest" = Ok url ->
  In m (stopping_methods s) ->
  post_error (backend (inspector (this s))) (connected (inspector (this s))) m
  = Some e ->
  stopPosted s = false -> snapshotPosted s = false -> awaitingPut s = false ->
  promise s = Pending ->
  step s (SigningSettled (Ok text)) = Some s1 ->
  short_of_entries s1 /\ promise s1 = Resolved undefined
  /\ network s1 = network s /\ entries s1 = []
  /\ uncaught s1 = uncaught s.
Proof.
  intros P J U M Po SP SN AP PP H.
  unfold short_of_entries, pending_appends, stopping_methods, stopping_posts,
    entries in *.
  open_state s. cbn [this inspector backend connected profilerEnabled
                     heapsnapshotEnabled stopPosted snapshotPosted awaitingPut
                     promise] in *.
  subst. unfold_js. destruct v_sign; [|discriminate]. injection H as <-.
  unfold JSON_parse. rewrite P. simpl. rewrite J. simpl. rewrite U. simpl.
  destruct v_cpu, v_heapflag; simpl in M; try tauto; simpl.
  - destruct M as [<-|[<-|[]]].
    + rewrite Po. simpl. repeat split; try reflexivity.
      eexists; repeat split; simpl; lia.
    + destruct (post_error v_backend v_conn "Profiler.stop"); simpl;
        rewrite ?Po; simpl; repeat split; try reflexivity;
        eexists; repeat split; simpl; lia.
  - destruct M as [<-|[]]. rewrite Po. simpl. repeat split; try reflexivity.
    eexists; repeat split; simpl; lia.
  - destruct M as [<-|[]]. rewrite Po. simpl. repeat split; try reflexivity.
    eexists; repeat split; simpl; lia.
Qed.

(** X17: a stop request that the session refuses is caught by the [catch] of
    [postInvoke]: the promise is resolved at once, nothing is thrown in the
    continuation, and since the refused request appends no entry the
    archive never reaches its entry count: whatever happens next,
    [finalize] is not called and no PUT is issued. *)
Theorem refused_stop_request_resolves_without_upload
  s text response jwt url m e s1 tr st :
  enabled (this s) = true ->
  parse text = Some response ->
  prop (Some response) "jwtAccess" = Ok jwt ->
  prop (Some response) "signedRequest" = Ok url ->
  In m (stopping_methods s) ->
  post_error (backend (inspector (this s))) (connected (inspector (this s))) m
  = Some e ->
  step (after postInvoke s) (SigningSettled (Ok text)) = Some s1 ->
  run s1 tr = Some st ->
  promise s1 = Resolved undefined
  /\ entries s1 = []
  /\ uncaught s1 = uncaught s
  /\ promise st = Resolved undefined
  /\ finalize_calls st = 0
  /\ puts st = puts s.
Proof.
  intros E P J U M Po S1 R. pose proof (awaited_signing_pending _ _ _ E S1) as PP.
  unfold after in *. rewrite (postInvoke_enabled s E) in *.
  destruct (upload_sequence_fresh s) as (T & _ & _ & _ & UC & _ & _).
  destruct (upload_sequence_spec s) as (_ & _ & _ & _ & AP & SP & SN & _ & PU & _).
  unfold after in *.
  unfold stopping_methods, stopping_posts in M. rewrite <- T in M, Po.
  destruct (setup_failed_step _ _ _ _ _ _ _ _ P J U M Po SP SN AP PP S1)
    as (Q1 & P1 & N1 & E1 & U1).
  destruct (run_short _ _ _ R Q1) as (Q2 & N2 & P2).
  repeat split; try assumption; try congruence.
  - apply short_no_finalize, Q2.
  - unfold puts in *. rewrite N2, N1. exact PU.
Qed.

(** *** A response without a signed URL *)

Lemma step_no_upload_url s ev s' :
  step s ev = Some s' -> no_upload_url s ->
  no_upload_url s' /\ network s' = network s /\ promise s' = promise s.
Proof.
  intros H (A & P & e & U). unfold no_upload_url in *.
  by_cases s ev.
  all: try solve [repeat split; try reflexivity; eauto; congruence].
Qed.

Lemma run_no_upload_url tr : forall s st,
  run s tr = Some st -> no_upload_url s ->
  network st = network s /\ promise st = promise s.
Proof.
  induction tr as [|ev tr IH]; simpl; intros s st R Q.
  - injection R as <-. auto.
  - destruct (step s ev) as [s1|] eqn:E; [|discriminate].
    destruct (step_no_upload_url _ _ _ E Q) as (Q1 & N1 & P1).
    destruct (IH _ _ R Q1) as (N2 & P2). split; congruence.
Qed.

Lemma signing_url_step s text response jwt url s1 :
  parse text = Some response ->
  prop (Some response) "jwtAccess" = Ok jwt ->
  prop (Some response) "signedRequest" = Ok url ->
  step s (SigningSettled (Ok text)) = Some s1 ->
  signedRequestURL s1 = url /\ awaitingPut s1 = awaitingPut s
  /\ network s1 = network s.
Proof.
  intros P J U H. open_state s. unfold_js.
  destruct v_sign; [|discriminate]. injection H as <-.
  unfold JSON_parse. rewrite P. simpl. rewrite J. simpl. rewrite U. simpl.
  repeat (break_match; simpl); intuition reflexivity.
Qed.

(** X18: a signing response without a usable [signedRequest] is not noticed
    until 'finish': the continuation sets up the archive as usual, and
    whatever happens next no PUT is issued and the promise stays as the
    continuation left it, pending when the session took the stop requests.
    When the archive finishes, [urlLib.parse] throws in the 'finish'
    listener, where nothing catches it. *)
Theorem unusable_signed_url_never_uploads s text response jwt url e s1 tr st :
  enabled (this s) = true ->
  parse text = Some response ->
  prop (Some response) "jwtAccess" = Ok jwt ->
  prop (Some response) "signedRequest" = Ok url ->
  url_parse url = Throw e ->
  step (after postInvoke s) (SigningSettled (Ok text)) = Some s1 ->
  run s1 tr = Some st ->
  puts st = puts s
  /\ promise st = promise s1
  /\ ((forall m, post_error (backend (inspector (this s)))
                            (connected (inspector (this s))) m = None) ->
      promise st = Pending)
  /\ forall s2, step st ArchiveFinish = Some s2 ->
                uncaught s2 = uncaught st ++ [e] /\ network s2 = network st.
Proof.
  intros E P J U X S1 R. pose proof (awaited_signing_pending _ _ _ E S1) as PP.
  unfold after in *. rewrite (postInvoke_enabled s E) in *.
  destruct (upload_sequence_fresh s) as (T & _).
  destruct (upload_sequence_spec s) as (_ & _ & _ & _ & AP & _ & _ & _ & PU & _).
  unfold after in *.
  destruct (signing_url_step _ _ _ _ _ _ P J U S1) as (U1 & AP1 & N1).
  assert (no_upload_url s1) as Q1.
  { unfold no_upload_url. rewrite (signing_settled_once _ _ _ S1), AP1, AP, U1.
    eauto. }
  destruct (run_no_upload_url _ _ _ R Q1) as (N2 & P2).
  assert (no_upload_url st /\ signedRequestURL st = url) as (Q2 & U2).
  { clear - R Q1 U1. revert s1 R Q1 U1.
    induction tr as [|ev tr IH]; simpl; intros s1 R Q1 U1.
    - injection R as <-. auto.
    - destruct (step s1 ev) as [s2|] eqn:S2; [|discriminate].
      apply (IH s2 R).
      + apply (step_no_upload_url _ _ _ S2 Q1).
      + rewrite <- U1. destruct Q1 as (A & _). clear - S2 A.
        by_cases s1 ev. all: reflexivity. }
  split; [|split; [|split]].
  - unfold puts in *. rewrite N2, N1. exact PU.
  - exact P2.
  - intros Po. rewrite <- T in Po.
    destruct (signing_setup_step _ _ _ _ _ _ P J U Po S1)
      as (_ & _ & _ & _ & _ & _ & _ & _ & _ & P1 & _).
    congruence.
  - intros s2 S2. destruct Q2 as (_ & AP2 & _). clear - S2 U2 X AP2.
    open_state st. simpl in *. subst. unfold_js. crunch.
    all: split; congruence.
Qed.

(** *** Which entries the archive holds *)

Lemma step_entries_inv s ev s' :
  step s ev = Some s' -> entries_inv s -> entries_inv s'.
Proof.
  intros H (F & C & N). unfold entries_inv, entries, named in *.
  by_cases s ev.
  all: rewrite ?filter_app, ?length_app, ?Forall_app in *; simpl in *.
  all: eval_eqb; simpl.
  all: try solve [repeat split; try assumption; try lia;
                  try (constructor; [reflexivity|constructor])].
  all: try solve [repeat split; try apply Forall_nil;
                  repeat match goal with
                    | H : context [Nat.b2n ?b] |- _ => is_var b; destruct b
                    | |- context [Nat.b2n ?b] => is_var b; destruct b
                    end; simpl in *; lia].
Qed.

Lemma run_entries_inv tr s st :
  run s tr = Some st -> entries_inv s -> entries_inv st.
Proof. apply (run_invariant entries_inv step_entries_inv). Qed.

(** X13: in every run of [postInvoke] the archive holds nothing but the two
    artifacts: every entry is named profile.cpuprofile or
    profile.heapsnapshot, each name occurs at most once, and not at all
    when its capture type is off. *)
Theorem archive_holds_only_the_two_artifacts s tr st :
  enabled (this s) = true ->
  run (after postInvoke s) tr = Some st ->
  Forall (fun e => named "profile.cpuprofile" e
                   || named "profile.heapsnapshot" e = true) (entries st)
  /\ List.length (filter (named "profile.cpuprofile") (entries st))
     <= Nat.b2n (profilerEnabled (this s))
  /\ List.length (filter (named "profile.heapsnapshot") (entries st))
     <= Nat.b2n (heapsnapshotEnabled (this s)).
Proof.
  intros E R. unfold after in *. rewrite (postInvoke_enabled s E) in *.
  destruct (upload_sequence_spec s) as (_ & _ & SP & A & _ & S1 & S2 & _).
  unfold after in *.
  assert (entries_inv (fst (upload_sequence s))) as I.
  { unfold entries_inv, entries. rewrite A, S1, S2. simpl.
    repeat split; [constructor|lia|lia]. }
  destruct (run_entries_inv _ _ _ R I) as (F & C & N).
  destruct (run_same_plugin _ _ _ R) as (P1 & P2 & _).
  destruct SP as (Q1 & Q2 & _).
  rewrite P1, Q1 in C. rewrite P2, Q2 in N.
  repeat split; [exact F|lia|lia].
Qed.

(** *** The credentials over the life of an instance *)

Lemma step_uploads_grow s ev s' :
  step s ev = Some s' ->
  exists added,
    uploads (this s') = uploads (this s) ++ added
    /\ List.length added <= signings [Occur ev].
Proof.
  intros H. unfold signings. by_cases s ev.
  all: try solve [exists []; rewrite app_nil_r; split; [reflexivity|simpl; lia]].
  all: try solve [eexists [_]; split; [reflexivity|simpl; lia]].
Qed.

Lemma hook_uploads h s :
  uploads (this (after (hook_body h) s)) = uploads (this s).
Proof.
  destruct h; cbn [hook_body]; open_state s; unfold_js; crunch; reflexivity.
Qed.

Lemma signings_cons a l : signings (a :: l) = signings [a] + signings l.
Proof.
  unfold signings. simpl.
  destruct a as [h|[]]; simpl; reflexivity.
Qed.

(** X14: what [meta] reports over the life of an instance.  The [enabled]
    flag never changes, and [uploads] is only ever appended to: over any
    sequence of hook calls and events it grows by at most one credential for
    each signing request that settles, and no hook call by itself changes
    it. *)
Theorem uploads_grow_by_settled_signings s l st :
  lifecycle s l = Some st ->
  meta_enabled (meta st) = meta_enabled (meta s)
  /\ exists added,
       meta_uploads (meta st) = meta_uploads (meta s) ++ added
       /\ List.length added <= signings l.
Proof.
  cbn [meta meta_uploads meta_enabled]. revert s.
  induction l as [|a l IH]; intros s R.
  - injection R as <-. split; [reflexivity|].
    exists []. rewrite app_nil_r. split; [reflexivity|simpl; lia].
  - cbn [lifecycle] in R. destruct (act s a) as [s1|] eqn:A; [|discriminate].
    destruct (IH _ R) as (E2 & added2 & U2 & L2).
    destruct (act_same_plugin _ _ _ A) as (_ & _ & E1 & _).
    split; [congruence|].
    rewrite signings_cons. destruct a as [h|ev]; cbn [act] in A.
    + injection A as <-. rewrite hook_uploads in U2.
      exists added2. split; [exact U2|]. lia.
    + destruct (step_uploads_grow _ _ _ A) as (added1 & U1 & L1).
      exists (added1 ++ added2). rewrite U2, U1, app_assoc, length_app.
      split; [reflexivity|lia].
Qed.

(** *** Instances of the theorems on the hooks *)

(** A disabled instance through the hooks of an invocation. *)
Lemma disabled_plugin_does_nothing_witness :
  let e := sample_env node_backend in
  let o := Some (sample_opts false false) in
  let i := Some sample_instance in
  let st := ending (instantiateProfilerPlugin e o i) bare_invocation in
  enabled (this (instantiateProfilerPlugin e o i)) = false
  /\ lifecycle (instantiateProfilerPlugin e o i) bare_invocation = Some st
  /\ network st = [] /\ posted st = [] /\ console st = [] /\ uncaught st = []
  /\ uploads (this st) = [] /\ archive st = None
  /\ (promise st = NotCalled \/ promise st = Resolved (Some (JBool false))).
Proof.
  intros e o i st.
  assert (enabled (this (instantiateProfilerPlugin e o i)) = false) as E
    by reflexivity.
  assert (lifecycle (instantiateProfilerPlugin e o i) bare_invocation = Some st)
    as R by (vm_compute; reflexivity).
  split; [exact E|]. split; [exact R|].
  exact (disabled_plugin_does_nothing e o i bare_invocation st E R).
Defined.

(** A host without an inspector: [connect] fails and [post] throws. *)
Lemma preInvoke_throws_when_not_connected_witness :
  let s := new_plugin unavailable_backend true false true in
  let e := "Error: inspector is not available" in
  let e' := "Error [ERR_INSPECTOR_NOT_CONNECTED]" in
  enabled (this s) = true
  /\ profilerEnabled (this s) || heapsnapshotEnabled (this s) = true
  /\ disconnect_error (backend (inspector (this s)))
                      (connected (inspector (this s))) = None
  /\ connect_error (backend (inspector (this s))) false = Some e
  /\ post_error (backend (inspector (this s))) false (first_enabling_method s)
     = Some e'
  /\ thrown preInvoke s = Some e'
  /\ connected (inspector (this (after preInvoke s))) = false
  /\ posted (after preInvoke s) = posted s
  /\ console (after preInvoke s)
     = (if Config.debug (config (this s))
        then console s
             ++ [("@iopipe/profiler::warning connecting to inspector: " ++ e)%string]
        else console s).
Proof.
  intros s e e'.
  assert (enabled (this s) = true) as E by reflexivity.
  assert (profilerEnabled (this s) || heapsnapshotEnabled (this s) = true) as F
    by reflexivity.
  assert (disconnect_error (backend (inspector (this s)))
                           (connected (inspector (this s))) = None) as D
    by reflexivity.
  assert (connect_error (backend (inspector (this s))) false = Some e) as C
    by reflexivity.
  assert (post_error (backend (inspector (this s))) false
                     (first_enabling_method s) = Some e') as P by reflexivity.
  split; [exact E|]. split; [exact F|]. split; [exact D|]. split; [exact C|].
  split; [exact P|].
  exact (preInvoke_throws_when_not_connected s e e' E F D C P).
Defined.

(** The chain after [preInvoke], the second reply with an error. *)
Lemma profiler_start_chain_witness :
  let s := sample true false in
  let e2 := Some "Error: interval out of range" in
  (forall x, post_error (backend (inspector (this s)))
                        (connected (inspector (this s))) x = None)
  /\ In "Profiler.enable" (enablePosted s)
  /\ exists st,
       run s [EnablingReply "Profiler.enable" None;
              EnablingReply "Profiler.setSamplingInterval" e2;
              EnablingReply "Profiler.start" None] = Some st
       /\ posted st
          = posted s
            ++ [("Profiler.setSamplingInterval",
                 Some (JObj [("interval",
                              JNum (Config.sampleRate (config (this s))))]));
                ("Profiler.start", undefined)]
       /\ uncaught st = uncaught s /\ network st = network s.
Proof.
  intros s e2.
  assert (forall x, post_error (backend (inspector (this s)))
                               (connected (inspector (this s))) x = None) as P
    by (intros x; reflexivity).
  assert (In "Profiler.enable" (enablePosted s)) as I
    by (simpl; left; reflexivity).
  split; [exact P|]. split; [exact I|].
  exact (profiler_start_chain s None e2 None P I).
Defined.

(** An invocation with debug off. *)
Lemma silent_without_debug_witness :
  let s := new_plugin node_backend true false false in
  let st := ending s cpu_invocation in
  Config.debug (config (this s)) = false
  /\ lifecycle s cpu_invocation = Some st
  /\ console st = console s.
Proof.
  intros s st.
  assert (Config.debug (config (this s)) = false) as D by reflexivity.
  assert (lifecycle s cpu_invocation = Some st) as R by (vm_compute; reflexivity).
  split; [exact D|]. split; [exact R|].
  exact (silent_without_debug s cpu_invocation st D R).
Defined.

(** An invocation with debug on. *)
Lemma console_lines_are_prefixed_witness :
  let s := new_plugin node_backend true false true in
  let st := ending s cpu_invocation in
  lifecycle s cpu_invocation = Some st
  /\ exists lines, console st = console s ++ lines /\ forallb logged lines = true.
Proof.
  intros s st.
  assert (lifecycle s cpu_invocation = Some st) as R by (vm_compute; reflexivity).
  split; [exact R|].
  exact (console_lines_are_prefixed s cpu_invocation st R).
Defined.

(** Two invocations on one instance. *)
Lemma node_session_follows_hooks_witness :
  let s := new_plugin node_backend true false true in
  let l := cpu_invocation ++ cpu_invocation in
  let st := ending s l in
  backend (inspector (this s)) = node_backend
  /\ lifecycle s l = Some st
  /\ connected (inspector (this st))
     = last_connection (enabled (this s)) (connected (inspector (this s))) l
  /\ forall h, thrown (hook_body h) st = None.
Proof.
  intros s l st.
  assert (backend (inspector (this s)) = node_backend) as B by reflexivity.
  assert (lifecycle s l = Some st) as R by (vm_compute; reflexivity).
  split; [exact B|]. split; [exact R|].
  exact (node_session_follows_hooks s l st B R).
Defined.

Lemma uploads_grow_by_settled_signings_witness :
  let s := new_plugin node_backend true false true in
  let l := cpu_invocation ++ cpu_invocation in
  let st := ending s l in
  lifecycle s l = Some st
  /\ meta_enabled (meta st) = meta_enabled (meta s)
  /\ exists added,
       meta_uploads (meta st) = meta_uploads (meta s) ++ added
       /\ List.length added <= signings l.
Proof.
  intros s l st.
  assert (lifecycle s l = Some st) as R by (vm_compute; reflexivity).
  split; [exact R|].
  exact (uploads_grow_by_settled_signings s l st R).
Defined.

(** *** Instances of the theorems on the upload *)

(** The run of a CPU profile, from the signing response to the upload. *)
Lemma promise_resolves_on_fulfilled_upload_witness :
  let s := sample true false in
  let r := Ok signing_response in
  let s1 := final (after postInvoke s) [SigningSettled r] in
  let tr := tl (cpu_run (Ok "")) in
  let st := final s1 tr in
  step (after postInvoke s) (SigningSettled r) = Some s1
  /\ promise s1 = Pending
  /\ run s1 tr = Some st
  /\ (promise st = Resolved undefined <-> exists b, In (UploadSettled (Ok b)) tr)
  /\ (promise st = Pending <-> forall b, ~ In (UploadSettled (Ok b)) tr).
Proof.
  intros s r s1 tr st.
  assert (step (after postInvoke s) (SigningSettled r) = Some s1) as S1
    by (vm_compute; reflexivity).
  assert (promise s1 = Pending) as P by (vm_compute; reflexivity).
  assert (run s1 tr = Some st) as R by (vm_compute; reflexivity).
  split; [exact S1|]. split; [exact P|]. split; [exact R|].
  exact (promise_resolves_on_fulfilled_upload s r s1 tr st S1 P R).
Defined.

(** The run of both capture types on Node's session. *)
Lemma one_put_of_the_archive_data_witness :
  let s := sample true true in
  let st := final (after postInvoke s) full_run in
  enabled (this s) = true
  /\ run (after postInvoke s) full_run = Some st
  /\ (puts st = puts s
      \/ exists url, signedRequestURL st = Some (JStr url)
                     /\ puts st = puts s ++ [put_request (data_of full_run) url]).
Proof.
  intros s st.
  assert (enabled (this s) = true) as E by reflexivity.
  assert (run (after postInvoke s) full_run = Some st) as R
    by (vm_compute; reflexivity).
  split; [exact E|]. split; [exact R|].
  exact (one_put_of_the_archive_data s full_run st E R).
Defined.

(** The signing request of the sample invocation. *)
Lemma signing_request_content_witness :
  let s := sample true false in
  let o := sample_instance in
  enabled (this s) = true
  /\ invocationInstance (this s) = Some o
  /\ wf_val (invokedFunctionArn (context_of o)) = true
  /\ wf_val (awsRequestId (context_of o)) = true
  /\ wf_val (startTimestamp o) = true
  /\ network (after postInvoke s)
     = network s ++ [{| body := stringify (signing_body o);
                        method := "POST";
                        target := SignerHost (signerHostname (env s)) "/";
                        auth := token (this s) |}]
  /\ parse (stringify (signing_body o)) = Some (signing_body o)
  /\ prop (Some (signing_body o)) "arn" = Ok (invokedFunctionArn (context_of o))
  /\ prop (Some (signing_body o)) "requestId" = Ok (awsRequestId (context_of o))
  /\ prop (Some (signing_body o)) "timestamp" = Ok (startTimestamp o)
  /\ prop (Some (signing_body o)) "extension" = Ok (Some (JStr ".zip"))
  /\ awaitingSign (after postInvoke s) = true
  /\ promise (after postInvoke s) = Pending.
Proof.
  intros s o.
  assert (enabled (this s) = true) as E by reflexivity.
  assert (invocationInstance (this s) = Some o) as I by reflexivity.
  assert (wf_val (invokedFunctionArn (context_of o)) = true) as W1 by reflexivity.
  assert (wf_val (awsRequestId (context_of o)) = true) as W2 by reflexivity.
  assert (wf_val (startTimestamp o) = true) as W3 by reflexivity.
  split; [exact E|]. split; [exact I|]. split; [exact W1|]. split; [exact W2|].
  split; [exact W3|].
  exact (signing_request_content s o E I W1 W2 W3).
Defined.

(** A plugin made without an invocation instance. *)
Lemma no_invocation_instance_witness :
  let s := after preInvoke
             (instantiateProfilerPlugin (sample_env node_backend)
                (Some (sample_opts true false)) None) in
  let tr := [EnablingReply "Profiler.enable" None; chunk_event "a"] in
  let st := final (after postInvoke s) tr in
  enabled (this s) = true
  /\ invocationInstance (this s) = None
  /\ run (after postInvoke s) tr = Some st
  /\ thrown postInvoke s = None
  /\ promise (after postInvoke s) = Resolved undefined
  /\ network (after postInvoke s) = network s
  /\ (exists e,
        console (after postInvoke s)
        = if Config.debug (config (this s))
          then console s ++ [("@iopipe/profiler::Error in upload: " ++ e)%string]
          else console s)
  /\ promise st = Resolved undefined
  /\ network st = network s
  /\ uploads (this st) = uploads (this s).
Proof.
  intros s tr st.
  assert (enabled (this s) = true) as E by reflexivity.
  assert (invocationInstance (this s) = None) as I by reflexivity.
  assert (run (after postInvoke s) tr = Some st) as R by (vm_compute; reflexivity).
  split; [exact E|]. split; [exact I|]. split; [exact R|].
  exact (no_invocation_instance s tr st E I R).
Defined.

(** [Profiler.stop] answered with an error and no result. *)
Lemma stop_without_profile_never_uploads_witness :
  let s := sample true true in
  let tr0 := [SigningSettled (Ok signing_response); chunk_event "a"] in
  let s0 := final (after postInvoke s) tr0 in
  let err := Some "Error: No profile" in
  let s1 := final s0 [ProfilerStopped err undefined] in
  let tr := [SnapshotTaken; ArchiveEntry;
             progress_event 1 1 true] in
  let st := final s1 tr in
  enabled (this s) = true
  /\ run (after postInvoke s) tr0 = Some s0
  /\ has_profile undefined = false
  /\ step s0 (ProfilerStopped err undefined) = Some s1
  /\ run s1 tr = Some st
  /\ (exists e, uncaught s1 = uncaught s0 ++ [e])
  /\ entries s1 = entries s0
  /\ finalize_calls st = 0
  /\ puts st = puts s
  /\ promise st = promise s0.
Proof.
  intros s tr0 s0 err s1 tr st.
  assert (enabled (this s) = true) as E by reflexivity.
  assert (run (after postInvoke s) tr0 = Some s0) as R0
    by (vm_compute; reflexivity).
  assert (has_profile undefined = false) as N by reflexivity.
  assert (step s0 (ProfilerStopped err undefined) = Some s1) as S1
    by (vm_compute; reflexivity).
  assert (run s1 tr = Some st) as R by (vm_compute; reflexivity).
  split; [exact E|]. split; [exact R0|]. split; [exact N|]. split; [exact S1|].
  split; [exact R|].
  exact (stop_without_profile_never_uploads s tr0 s0 err undefined s1 tr st
           E R0 N S1 R).
Defined.

(** The run of both capture types on Node's session. *)
Lemma archive_holds_only_the_two_artifacts_witness :
  let s := sample true true in
  let st := final (after postInvoke s) full_run in
  enabled (this s) = true
  /\ run (after postInvoke s) full_run = Some st
  /\ Forall (fun e => named "profile.cpuprofile" e
                      || named "profile.heapsnapshot" e = true) (entries st)
  /\ List.length (filter (named "profile.cpuprofile") (entries st))
     <= Nat.b2n (profilerEnabled (this s))
  /\ List.length (filter (named "profile.heapsnapshot") (entries st))
     <= Nat.b2n (heapsnapshotEnabled (this s)).
Proof.
  intros s st.
  assert (enabled (this s) = true) as E by reflexivity.
  assert (run (after postInvoke s) full_run = Some st) as R
    by (vm_compute; reflexivity).
  split; [exact E|]. split; [exact R|].
  exact (archive_holds_only_the_two_artifacts s full_run st E R).
Defined.

(** [postInvoke] on an instance whose session was never connected. *)
Lemma refused_stop_request_resolves_without_upload_witness :
  let s := new_plugin node_backend true true true in
  let url := Some (JStr "https://x/y") in
  let m := "Profiler.stop" in
  let e := "Error [ERR_INSPECTOR_NOT_CONNECTED]" in
  let s1 := final (after postInvoke s) [SigningSettled (Ok signing_response)] in
  let tr := [chunk_event "a"] in
  let st := final s1 tr in
  enabled (this s) = true
  /\ parse signing_response = Some parsed_signing_response
  /\ prop (Some parsed_signing_response) "jwtAccess" = Ok (Some (JStr "tok1"))
  /\ prop (Some parsed_signing_response) "signedRequest" = Ok url
  /\ In m (stopping_methods s)
  /\ post_error (backend (inspector (this s))) (connected (inspector (this s))) m
     = Some e
  /\ step (after postInvoke s) (SigningSettled (Ok signing_response)) = Some s1
  /\ run s1 tr = Some st
  /\ promise s1 = Resolved undefined
  /\ entries s1 = []
  /\ uncaught s1 = uncaught s
  /\ promise st = Resolved undefined
  /\ finalize_calls st = 0
  /\ puts st = puts s.
Proof.
  intros s url m e s1 tr st.
  assert (enabled (this s) = true) as E by reflexivity.
  assert (parse signing_response = Some parsed_signing_response) as P
    by (vm_compute; reflexivity).
  assert (prop (Some parsed_signing_response) "jwtAccess"
          = Ok (Some (JStr "tok1"))) as J by reflexivity.
  assert (prop (Some parsed_signing_response) "signedRequest" = Ok url) as U
    by reflexivity.
  assert (In m (stopping_methods s)) as M by (simpl; left; reflexivity).
  assert (post_error (backend (inspector (this s)))
                     (connected (inspector (this s))) m = Some e) as Po
    by reflexivity.
  assert (step (after postInvoke s) (SigningSettled (Ok signing_response))
          = Some s1) as S1 by (vm_compute; reflexivity).
  assert (run s1 tr = Some st) as R by (vm_compute; reflexivity).
  split; [exact E|]. split; [exact P|]. split; [exact J|]. split; [exact U|].
  split; [exact M|]. split; [exact Po|]. split; [exact S1|]. split; [exact R|].
  exact (refused_stop_request_resolves_without_upload s signing_response
           parsed_signing_response (Some (JStr "tok1")) url m e s1 tr st
           E P J U M Po S1 R).
Defined.

(** A response that carries the credential only: the archive is assembled
    and 'finish' finds no URL. *)
Lemma unusable_signed_url_never_uploads_witness :
  let s := sample true false in
  let e := "TypeError [ERR_INVALID_ARG_TYPE]: The url argument must be of type string" in
  let s1 := final (after postInvoke s)
              [SigningSettled (Ok credential_only_response)] in
  let tr := [ProfilerStopped None stop_result; ArchiveEntry; ArchiveData "PK"] in
  let st := final s1 tr in
  enabled (this s) = true
  /\ parse credential_only_response = Some parsed_credential_only_response
  /\ prop (Some parsed_credential_only_response) "jwtAccess"
     = Ok (Some (JStr "tok1"))
  /\ prop (Some parsed_credential_only_response) "signedRequest" = Ok undefined
  /\ url_parse undefined = Throw e
  /\ step (after postInvoke s) (SigningSettled (Ok credential_only_response))
     = Some s1
  /\ run s1 tr = Some st
  /\ puts st = puts s
  /\ promise st = promise s1
  /\ ((forall m, post_error (backend (inspector (this s)))
                            (connected (inspector (this s))) m = None) ->
      promise st = Pending)
  /\ forall s2, step st ArchiveFinish = Some s2 ->
                uncaught s2 = uncaught st ++ [e] /\ network s2 = network st.
Proof.
  intros s e s1 tr st.
  assert (enabled (this s) = true) as E by reflexivity.
  assert (parse credential_only_response = Some parsed_credential_only_response)
    as P by (vm_compute; reflexivity).
  assert (prop (Some parsed_credential_only_response) "jwtAccess"
          = Ok (Some (JStr "tok1"))) as J by reflexivity.
  assert (prop (Some parsed_credential_only_response) "signedRequest"
          = Ok undefined) as U by reflexivity.
  assert (url_parse undefined = Throw e) as X by reflexivity.
  assert (step (after postInvoke s) (SigningSettled (Ok credential_only_response))
          = Some s1) as S1 by (vm_compute; reflexivity).
  assert (run s1 tr = Some st) as R by (vm_compute; reflexivity).
  split; [exact E|]. split; [exact P|]. split; [exact J|]. split; [exact U|].
  split; [exact X|]. split; [exact S1|]. split; [exact R|].
  exact (unusable_signed_url_never_uploads s credential_only_response
           parsed_credential_only_response (Some (JStr "tok1")) undefined e s1
           tr st E P J U X S1 R).
Defined.

(** ** Node's session

    What the plugin does with the notifications and replies of Node's
    [inspector.Session]. *)

(** *** The notifications of Node's session *)

(** On the message of a notification the pattern [{ chunk }] finds no chunk,
    and the array pattern cannot iterate. *)
Lemma notification_patterns msg :
  is_notification msg = true ->
  prop msg "chunk" = Ok undefined
  /\ third_of_pattern msg = Throw "TypeError: object is not iterable".
Proof.
  unfold is_notification.
  destruct msg as [[| | | | |[|[k1 [| | |m| |]] [|[k2 v2] [|]]]]|];
    try discriminate.
  intros H. apply andb_true_iff in H. destruct H as (H1 & H2).
  apply String.eqb_eq in H1, H2. subst. split; reflexivity.
Qed.

(** A notification leaves the heap stream as it is; the progress listener
    throws. *)
Lemma step_notification s ev s' :
  step s ev = Some s' ->
  match ev with
  | HeapSnapshotChunk msg | HeapSnapshotProgress msg => is_notification msg = true
  | _ => False
  end ->
  heap s' = heap s /\ archive s' = archive s /\ stopPosted s' = stopPosted s
  /\ this s' = this s /\ network s' = network s /\ promise s' = promise s.
Proof.
  intros H N. open_state s. destruct ev; try contradiction.
  - destruct (notification_patterns _ N) as (_ & T). unfold_js.
    rewrite T in H. simpl in H. crunch. all: repeat split; reflexivity.
  - destruct (notification_patterns _ N) as (C & _). unfold_js.
    rewrite C in H. simpl in H.
    change (truthy undefined) with false in H. crunch.
    all: repeat split; reflexivity.
Qed.

Lemma step_fresh_heap s ev s' :
  step s ev = Some s' -> from_session ev = true ->
  (heap s = None \/ heap s = Some new_PassThrough) ->
  (heap s' = None \/ heap s' = Some new_PassThrough).
Proof.
  intros H N F.
  destruct ev;
    try (destruct (step_notification _ _ _ H N) as (-> & _); exact F).
  all: clear N; open_state s; unfold_js; crunch; simpl in *; auto.
Qed.

Lemma run_fresh_heap tr : forall s st,
  node_notifications tr = true -> run s tr = Some st ->
  (heap s = None \/ heap s = Some new_PassThrough) ->
  (heap st = None \/ heap st = Some new_PassThrough).
Proof.
  induction tr as [|ev tr IH]; simpl; intros s st N R F.
  - injection R as <-. exact F.
  - apply andb_true_iff in N. destruct N as (N1 & N2).
    destruct (step s ev) as [s1|] eqn:E; [|discriminate].
    apply (IH s1 st N2 R). apply (step_fresh_heap _ _ _ E N1 F).
Qed.

(** C7, the code at the failing input: Node's session hands a listener the
    message of the notification, [{ method, params }].  On it the chunk
    listener finds no [chunk] and writes nothing, and the array pattern of
    the progress listener throws before [heap.end()] is reached.  In every
    run of [postInvoke] on such notifications the heap stream is as it was
    made, and the payload of profile.heapsnapshot never becomes available:
    for the chunks a and b and the finished report it is not ab. *)
Theorem snapshot_chunks_never_reach_the_stream s tr st :
  enabled (this s) = true ->
  node_notifications tr = true ->
  run (after postInvoke s) tr = Some st ->
  (heap st = None \/ heap st = Some new_PassThrough)
  /\ payload st heapsnapshot_entry = None.
Proof.
  intros E N R. unfold after in *. rewrite (postInvoke_enabled s E) in *.
  destruct (upload_sequence_fresh s) as (_ & _ & H & _). unfold after in H.
  assert (heap st = None \/ heap st = Some new_PassThrough) as F
    by (apply (run_fresh_heap _ _ _ N R); left; exact H).
  split; [exact F|]. unfold payload. simpl.
  destruct F as [-> | ->]; reflexivity.
Qed.

(** *** An entry that the archiver never reports *)

Lemma filter_all {A} (f : A -> bool) l : forallb f l = true -> filter f l = l.
Proof.
  induction l as [|x l IH]; simpl; [reflexivity|].
  intros H. apply andb_true_iff in H. destruct H as (-> & H).
  rewrite (IH H). reflexivity.
Qed.

Lemma filter_firstn_length {A} (f : A -> bool) n l :
  List.length (filter f (firstn n l)) <= List.length (filter f l).
Proof.
  rewrite <- (firstn_skipn n l) at 2. rewrite filter_app, length_app. lia.
Qed.

Lemma firstn_snoc {A} (l : list A) n x :
  nth_error l n = Some x -> firstn (S n) l = firstn n l ++ [x].
Proof.
  revert n. induction l as [|y l IH]; intros [|n] H; try discriminate.
  - injection H as ->. reflexivity.
  - change (y :: firstn (S n) l = y :: (firstn n l ++ [x])).
    f_equal. apply IH. exact H.
Qed.

Lemma unread_no_finalize s :
  closure_inv s -> unread_heap s -> heapsnapshotEnabled (this s) = true ->
  finalize_calls s = 0 /\ filesSeen s < expected s.
Proof.
  unfold closure_inv, unread_heap, finalize_calls, entries, expected.
  intros C (_ & K & L) H. rewrite H. simpl Nat.b2n.
  destruct (archive s) as [a|].
  - destruct C as (_ & Cn & Em & Le & _ & Fin).
    pose proof (filter_firstn_length string_source (Archiver.emitted a)
                  (Archiver.queue a)) as B.
    rewrite (filter_all _ _ K), length_firstn in B.
    assert (filesSeen s < filesCount s) as Lt.
    { unfold expected in Cn. rewrite H in Cn. simpl in Cn. lia. }
    split; [|unfold expected in Cn; rewrite H in Cn; simpl in Cn; lia].
    rewrite Fin. destruct (0 <? filesSeen s)%nat; [|reflexivity]. simpl.
    destruct (Nat.leb_spec (filesCount s) (filesSeen s)); [lia|reflexivity].
  - destruct C as (-> & _). split; [reflexivity|lia].
Qed.
Lemma incomplete_stream s e :
  match heap s with
  | Some h => ended h = false
  | None => True
  end ->
  complete s e = true -> string_source e = true.
Proof.
  unfold complete, payload, string_source.
  destruct (Archiver.source e); [reflexivity|].
  destruct (heap s) as [h|]; [|discriminate].
  intros ->. discriminate.
Qed.

Lemma firstn_within {A} (l : list A) n x :
  n <= List.length l -> firstn n (l ++ [x]) = firstn n l.
Proof.
  intros H. rewrite firstn_app.
  replace (n - List.length l) with 0 by lia. simpl. apply app_nil_r.
Qed.

#[local] Arguments firstn : simpl never.

Lemma step_unread_heap s ev s' :
  step s ev = Some s' -> from_session ev = true ->
  reported_complete s ev = true ->
  closure_inv s -> unread_heap s -> unread_heap s'.
Proof.
  intros H N RC C U.
  destruct ev;
    try (destruct (step_notification _ _ _ H N) as (Hh & Ha & Hs & Ht & _);
         unfold unread_heap, entries in *; rewrite Hh, Ha, Hs, Ht; exact U).
  all: clear N.
  all: destruct U as (U1 & U2 & U3).
  all: unfold unread_heap, closure_inv, reported_complete, entries,
         pending_appends in *.
  all: open_state s; unfold_js; crunch; subst; simpl in *.
  all: rewrite ?filter_app, ?length_app in *; simpl in *.
  all: repeat match goal with
         | H : option_map _ ?x = Some _ |- _ =>
             destruct x; simpl in H; [injection H as <-|discriminate]
         end; simpl.
  all: rewrite ?firstn_within by lia.
  all: try solve [repeat split; try assumption; try reflexivity; try lia].
  all: match goal with
       | H : nth_error _ _ = Some _ |- _ =>
           rewrite (firstn_snoc _ _ _ H), forallb_app
       end.
  all: match goal with
       | R : complete _ ?e = true |- _ =>
           apply incomplete_stream in R; [|simpl; assumption || exact I]
       end.
  all: simpl; rewrite ?andb_true_r.
  all: repeat split; try assumption; try exact I;
       try (apply andb_true_iff; split; assumption).
Qed.

Lemma run_unread_heap tr : forall s st,
  node_notifications tr = true ->
  reads_before_reporting s tr = true ->
  run s tr = Some st ->
  closure_inv s -> unread_heap s -> heapsnapshotEnabled (this s) = true ->
  closure_inv st /\ unread_heap st /\ heapsnapshotEnabled (this st) = true
  /\ network st = network s.
Proof.
  induction tr as [|ev tr IH]; simpl; intros s st N G R C U H.
  - injection R as <-. auto.
  - apply andb_true_iff in N. destruct N as (N1 & N2).
    apply andb_true_iff in G. destruct G as (G1 & G2).
    destruct (step s ev) as [s1|] eqn:E; [|discriminate].
    pose proof (step_closure_inv _ _ _ E C) as C1.
    pose proof (step_unread_heap _ _ _ E N1 G1 C U) as U1.
    destruct (step_same_plugin _ _ _ E) as (_ & H1 & _).
    rewrite H in H1.
    destruct (IH _ _ N2 G2 R C1 U1 H1) as (C2 & U2 & H2 & Nt).
    split; [exact C2|]. split; [exact U2|]. split; [exact H2|]. rewrite Nt.
    destruct (step_network _ _ _ E) as [->|(_ & F & _)]; [reflexivity|].
    destruct (unread_no_finalize _ C U H) as (Z & _). lia.
Qed.

(** C1, the code at the failing inputs: with heap snapshots enabled (flags
    01 and 11), on the notifications that Node's session delivers and with
    an archiver that reports an entry once it has read the entry's source to
    its end, the 'entry' listener never counts as many entries as there are
    enabled capture types, [finalize] is never called and no PUT is issued,
    in any run of [postInvoke], although the entries are all appended (see
    [sample_runs]).  The listener counts the 'entry' events of the archiver,
    not the entries appended, and the heap stream is never ended. *)
Theorem heap_entry_is_never_counted s tr st :
  enabled (this s) = true ->
  heapsnapshotEnabled (this s) = true ->
  node_notifications tr = true ->
  reads_before_reporting (after postInvoke s) tr = true ->
  run (after postInvoke s) tr = Some st ->
  filesSeen st < expected s /\ finalize_calls st = 0 /\ puts st = puts s.
Proof.
  intros E H N G R. unfold after in *. rewrite (postInvoke_enabled s E) in *.
  destruct (upload_sequence_spec s)
    as (_ & C & (SP & SH & _) & A & _ & St & _ & _ & PU & _).
  destruct (upload_sequence_fresh s) as (_ & _ & Hp & _).
  unfold after in *.
  assert (unread_heap (fst (upload_sequence s))) as U.
  { unfold unread_heap, entries. rewrite A, Hp, St. simpl.
    repeat split. lia. }
  assert (heapsnapshotEnabled (this (fst (upload_sequence s))) = true) as H0
    by (rewrite SH; exact H).
  destruct (run_unread_heap _ _ _ N G R C U H0) as (C1 & U1 & H1 & Nt).
  destruct (unread_no_finalize _ C1 U1 H1) as (Z & L).
  assert (expected st = expected s) as X.
  { rewrite (same_plugin_expected _ _ (run_same_plugin _ _ _ R)).
    unfold expected. rewrite SP, SH. reflexivity. }
  rewrite X in L. split; [exact L|]. split; [exact Z|].
  unfold puts in *. rewrite Nt. exact PU.
Qed.

(** *** [postReport] and the session *)


(** *** [preInvoke] and the replies to its requests *)

Lemma enabling_reply_forwards_exact s m err next params rest :
  (forall x, post_error (backend (inspector (this s)))
                        (connected (inspector (this s))) x = None) ->
  remove_first m (enablePosted s) = Some rest ->
  (m = "Profiler.enable" /\ next = "Profiler.setSamplingInterval"
   /\ params = Some (JObj [("interval", JNum (Config.sampleRate (config (this s))))]))
  \/ (m = "Profiler.setSamplingInterval" /\ next = "Profiler.start"
      /\ params = undefined) ->
  exists s',
    step s (EnablingReply m err) = Some s'
    /\ posted s' = posted s ++ [(next, params)]
    /\ enablePosted s' = rest ++ [next]
    /\ this s' = this s
    /\ uncaught s' = uncaught s /\ network s' = network s
    /\ (err = None -> console s' = console s).
Proof.
  intros P R M. rewrite (enabling_reply_step _ _ err _ R).
  eexists. split; [reflexivity|].
  open_state s. simpl in *.
  destruct M as [(-> & -> & ->)|(-> & -> & ->)]; unfold_js; eval_eqb;
    destruct err; simpl; rewrite P; simpl;
    repeat split; try reflexivity; intros; discriminate.
Qed.

Lemma enabling_reply_ends_exact s m err rest :
  remove_first m (enablePosted s) = Some rest ->
  m = "Profiler.start" \/ m = "HeapProfiler.enable" ->
  exists s',
    step s (EnablingReply m err) = Some s'
    /\ posted s' = posted s /\ enablePosted s' = rest
    /\ this s' = this s
    /\ uncaught s' = uncaught s /\ network s' = network s
    /\ (err = None -> console s' = console s).
Proof.
  intros R M. rewrite (enabling_reply_step _ _ err _ R).
  eexists. split; [reflexivity|].
  open_state s. simpl in *.
  destruct M as [->| ->]; unfold_js; eval_eqb; destruct err; simpl;
    repeat split; try reflexivity; intros; discriminate.
Qed.

(** The chain of the CPU profiler, when its first reply is the next due. *)
Lemma profiler_chain_exact s e1 e2 e3 :
  (forall x, post_error (backend (inspector (this s)))
                        (connected (inspector (this s))) x = None) ->
  enablePosted s = ["Profiler.enable"] ->
  exists st,
    run s [EnablingReply "Profiler.enable" e1;
           EnablingReply "Profiler.setSamplingInterval" e2;
           EnablingReply "Profiler.start" e3] = Some st
    /\ posted st
       = posted s
         ++ [("Profiler.setSamplingInterval",
              Some (JObj [("interval", JNum (Config.sampleRate (config (this s))))]));
             ("Profiler.start", undefined)]
    /\ enablePosted st = []
    /\ this st = this s
    /\ uncaught st = uncaught s /\ network st = network s
    /\ (e1 = None -> e2 = None -> e3 = None -> console st = console s).
Proof.
  intros P Q.
  destruct (enabling_reply_forwards_exact s "Profiler.enable" e1
              "Profiler.setSamplingInterval"
              (Some (JObj [("interval",
                            JNum (Config.sampleRate (config (this s))))]))
              [] P)
    as (s1 & S1 & P1 & Q1 & T1 & U1 & N1 & C1);
    [rewrite Q; reflexivity|left; repeat split|].
  assert (forall x, post_error (backend (inspector (this s1)))
                      (connected (inspector (this s1))) x = None) as P'
    by (rewrite T1; exact P).
  destruct (enabling_reply_forwards_exact s1 "Profiler.setSamplingInterval" e2
              "Profiler.start" undefined [] P')
    as (s2 & S2 & P2 & Q2 & T2 & U2 & N2 & C2);
    [rewrite Q1; reflexivity|right; repeat split|].
  destruct (enabling_reply_ends_exact s2 "Profiler.start" e3 [])
    as (s3 & S3 & P3 & Q3 & T3 & U3 & N3 & C3);
    [rewrite Q2; reflexivity|left; reflexivity|].
  exists s3. cbn [run]. rewrite S1, S2, S3.
  split; [reflexivity|]. rewrite P3, P2, P1, <- app_assoc.
  repeat split; try congruence.
  intros -> -> ->. rewrite C3, C2, C1; reflexivity.
Qed.

Lemma preInvoke_uncaught s : uncaught (after preInvoke s) = uncaught s.
Proof. open_state s. unfold_js. crunch; reflexivity. Qed.

(** X2: on Node's session, [preInvoke] of an enabled plugin throws nothing.
    Once the replies to its requests are in, which on Node's session is
    before [preInvoke] returns, the session is connected, no reply is
    waited for, and the plugin has posted, in this order, HeapProfiler.enable
    (heap snapshots on) and Profiler.enable, Profiler.setSamplingInterval
    with the configured interval and Profiler.start (CPU profiling on),
    whatever errors the replies carry; without errors nothing is printed. *)
Theorem preInvoke_connects_and_enables s eh e1 e2 e3 :
  backend (inspector (this s)) = node_backend -> enabled (this s) = true ->
  enablePosted s = [] ->
  thrown preInvoke s = None
  /\ exists st,
       run (after preInvoke s) (enabling_replies s eh e1 e2 e3) = Some st
       /\ connected (inspector (this st)) = true
       /\ posted st = posted s ++ enabling_requests s
       /\ enablePosted st = []
       /\ network st = network s /\ uncaught st = uncaught s
       /\ (eh = None -> e1 = None -> e2 = None -> e3 = None ->
           console st = console s).
Proof.
  intros B E Q.
  destruct (preInvoke_node s B E) as (T & I & P & Q0 & C & N).
  pose proof (preInvoke_uncaught s) as U.
  destruct (hook_same_plugin PreInvoke s) as (SP & SH & _ & SC & _).
  cbn [hook_body] in SP, SH, SC.
  split; [exact T|]. rewrite Q in Q0. cbn [app] in Q0.
  unfold enabling_replies, enabling_requests, enabling_posts in *.
  set (s0 := after preInvoke s) in *.
  assert (forall x, post_error (backend (inspector (this s0)))
                      (connected (inspector (this s0))) x = None) as Po
    by (rewrite I; reflexivity).
  destruct (heapsnapshotEnabled (this s)), (profilerEnabled (this s));
    cbn [app map fst] in *.
  - destruct (enabling_reply_ends_exact s0 "HeapProfiler.enable" eh
                ["Profiler.enable"])
      as (s1 & S1 & P1 & Q1 & T1 & U1 & N1 & C1);
      [rewrite Q0; reflexivity|right; reflexivity|].
    assert (forall x, post_error (backend (inspector (this s1)))
                        (connected (inspector (this s1))) x = None) as Po1
      by (rewrite T1; exact Po).
    destruct (profiler_chain_exact s1 e1 e2 e3 Po1 Q1)
      as (st & R & P2 & Q2 & T2 & U2 & N2 & C2).
    exists st. cbn [run]. rewrite S1. split; [exact R|].
    rewrite P2, P1, P, U2, U1, U, N2, N1, N, ?T2, ?T1, I, SC, <- app_assoc.
    repeat split; try assumption.
    intros -> H1 H2 H3. rewrite (C2 H1 H2 H3), C1, C; reflexivity.
  - destruct (enabling_reply_ends_exact s0 "HeapProfiler.enable" eh [])
      as (s1 & S1 & P1 & Q1 & T1 & U1 & N1 & C1);
      [rewrite Q0; reflexivity|right; reflexivity|].
    exists s1. cbn [run]. rewrite S1. split; [reflexivity|].
    rewrite T1, I, P1, P, U1, U, N1, N.
    repeat split; try assumption.
    intros -> _ _ _. rewrite C1, C; reflexivity.
  - destruct (profiler_chain_exact s0 e1 e2 e3 Po Q0)
      as (st & R & P2 & Q2 & T2 & U2 & N2 & C2).
    exists st. split; [exact R|].
    rewrite P2, P, U2, U, N2, N, ?T2, I, SC, <- app_assoc.
    repeat split; try assumption.
    intros _ H1 H2 H3. rewrite (C2 H1 H2 H3), C; reflexivity.
  - exists s0. split; [reflexivity|].
    rewrite I, P, U, N, app_nil_r. repeat split; try assumption.
    intros _ _ _ _. exact C.
Qed.

(** *** What the continuation of the signing request has done *)

(** X16: what the continuation of a successful signing request has done
    when it ends, on a session that takes the requests: an archive exists
    and is not finalized, no entry is counted and nothing is buffered yet;
    the signed URL is the one of the response; the entry count is the number
    of enabled capture types; a heap stream exists if and only if heap
    snapshots are on; the stop requests of the enabled capture types are
    posted, Profiler.stop first; the promise is pending and no further
    request went out. *)
Theorem capture_stop_requests s text response jwt url s1 :
  enabled (this s) = true ->
  parse text = Some response ->
  prop (Some response) "jwtAccess" = Ok jwt ->
  prop (Some response) "signedRequest" = Ok url ->
  (forall m, post_error (backend (inspector (this s)))
                        (connected (inspector (this s))) m = None) ->
  step (after postInvoke s) (SigningSettled (Ok text)) = Some s1 ->
  posted s1 = posted s ++ stopping_posts s
  /\ filesCount s1 = expected s /\ filesSeen s1 = 0
  /\ archive s1 <> None /\ archiveBuffer s1 = [] /\ finalize_calls s1 = 0
  /\ (heap s1 <> None <-> heapsnapshotEnabled (this s) = true)
  /\ signedRequestURL s1 = url
  /\ promise s1 = Pending
  /\ network s1 = network (after postInvoke s).
Proof.
  intros E P J U Po S1. pose proof (awaited_signing_pending _ _ _ E S1) as PP.
  unfold after in *. rewrite (postInvoke_enabled s E) in *.
  destruct (upload_sequence_fresh s) as (T & _ & H & Q & _ & _ & _).
  unfold after in *. rewrite <- T in Po.
  destruct (signing_setup_step _ _ _ _ _ _ P J U Po S1)
    as (H1 & _ & _ & H4 & H5 & H6 & H7 & H8 & H9 & H10 & H11 & _).
  unfold stopping_posts, expected, finalize_calls in *. rewrite T in *.
  rewrite Q in H1. rewrite H in H8. rewrite H6, H8.
  clear Po S1.
  split; [exact H1|]. split; [exact H4|]. split; [exact H5|].
  split; [discriminate|]. split; [exact H7|]. split; [reflexivity|].
  split; [|split; [exact H9|split; [congruence|exact H11]]].
  destruct (heapsnapshotEnabled (this s)); split; congruence.
Qed.

(** *** Sample runs on Node's session *)

(** The three flag combinations.  The CPU profile alone is archived and
    uploaded.  With a heap snapshot the entries are all appended, but the
    chunks are not written and the stream is not ended, so the archive is
    not finalized and the promise stays pending. *)
Example sample_runs :
  let summary s tr :=
    let st := final (after postInvoke s) tr in
    (List.length (entries st), filesSeen st, finalize_calls st,
     List.length (puts st), promise st) in
  summary (sample true false) (cpu_run (Ok ""))
  = (1, 1, 1, 1, Resolved undefined)
  /\ summary (sample false true) heap_run = (1, 0, 0, 0, Pending)
  /\ summary (sample true true) full_run = (2, 1, 0, 0, Pending)
  /\ heap (final (after postInvoke (sample false true)) heap_run)
     = Some new_PassThrough
  /\ uncaught (final (after postInvoke (sample false true)) heap_run)
     = ["TypeError: object is not iterable"].
Proof. vm_compute. repeat split; reflexivity. Qed.

(** Both capture types: the two entries are appended, the CPU entry is
    reported, the heap entry is not. *)
Lemma heap_entry_is_never_counted_witness :
  let s := sample true true in
  let st := final (after postInvoke s) full_run in
  enabled (this s) = true
  /\ heapsnapshotEnabled (this s) = true
  /\ node_notifications full_run = true
  /\ reads_before_reporting (after postInvoke s) full_run = true
  /\ run (after postInvoke s) full_run = Some st
  /\ List.length (entries st) = expected s
  /\ filesSeen st < expected s /\ finalize_calls st = 0 /\ puts st = puts s.
Proof.
  intros s st.
  assert (enabled (this s) = true) as E by reflexivity.
  assert (heapsnapshotEnabled (this s) = true) as H by reflexivity.
  assert (node_notifications full_run = true) as N by reflexivity.
  assert (reads_before_reporting (after postInvoke s) full_run = true) as G
    by (vm_compute; reflexivity).
  assert (run (after postInvoke s) full_run = Some st) as R
    by (vm_compute; reflexivity).
  split; [exact E|]. split; [exact H|]. split; [exact N|]. split; [exact G|].
  split; [exact R|]. split; [vm_compute; reflexivity|].
  exact (heap_entry_is_never_counted s full_run st E H N G R).
Defined.

(** The chunks a and b and the finished report, as Node delivers them. *)
Lemma snapshot_chunks_never_reach_the_stream_witness :
  let s := sample false true in
  let st := final (after postInvoke s) heap_run in
  enabled (this s) = true
  /\ node_notifications heap_run = true
  /\ run (after postInvoke s) heap_run = Some st
  /\ (heap st = None \/ heap st = Some new_PassThrough)
  /\ payload st heapsnapshot_entry = None.
Proof.
  intros s st.
  assert (enabled (this s) = true) as E by reflexivity.
  assert (node_notifications heap_run = true) as N by reflexivity.
  assert (run (after postInvoke s) heap_run = Some st) as R
    by (vm_compute; reflexivity).
  split; [exact E|]. split; [exact N|]. split; [exact R|].
  exact (snapshot_chunks_never_reach_the_stream s heap_run st E N R).
Defined.


(** A new instance with both capture types on; the second reply of the
    chain carries an error. *)
Lemma preInvoke_connects_and_enables_witness :
  let s := new_plugin node_backend true true true in
  let ok : option string := None in
  let e2 := Some "Error: interval out of range" in
  backend (inspector (this s)) = node_backend
  /\ enabled (this s) = true
  /\ enablePosted s = []
  /\ thrown preInvoke s = None
  /\ exists st,
       run (after preInvoke s) (enabling_replies s ok ok e2 ok) = Some st
       /\ connected (inspector (this st)) = true
       /\ posted st = posted s ++ enabling_requests s
       /\ enablePosted st = []
       /\ network st = network s /\ uncaught st = uncaught s
       /\ (ok = None -> ok = None -> e2 = None -> ok = None ->
           console st = console s).
Proof.
  intros s ok e2.
  assert (backend (inspector (this s)) = node_backend) as B by reflexivity.
  assert (enabled (this s) = true) as E by reflexivity.
  assert (enablePosted s = []) as Q by reflexivity.
  split; [exact B|]. split; [exact E|]. split; [exact Q|].
  exact (preInvoke_connects_and_enables s ok ok e2 ok B E Q).
Defined.

(** Both capture types on a connected session. *)
Lemma capture_stop_requests_witness :
  let s := sample true true in
  let url := Some (JStr "https://x/y") in
  let s1 := final (after postInvoke s) [SigningSettled (Ok signing_response)] in
  enabled (this s) = true
  /\ parse signing_response = Some parsed_signing_response
  /\ prop (Some parsed_signing_response) "jwtAccess" = Ok (Some (JStr "tok1"))
  /\ prop (Some parsed_signing_response) "signedRequest" = Ok url
  /\ (forall m, post_error (backend (inspector (this s)))
                           (connected (inspector (this s))) m = None)
  /\ step (after postInvoke s) (SigningSettled (Ok signing_response)) = Some s1
  /\ posted s1 = posted s ++ stopping_posts s
  /\ filesCount s1 = expected s /\ filesSeen s1 = 0
  /\ archive s1 <> None /\ archiveBuffer s1 = [] /\ finalize_calls s1 = 0
  /\ (heap s1 <> None <-> heapsnapshotEnabled (this s) = true)
  /\ signedRequestURL s1 = url
  /\ promise s1 = Pending
  /\ network s1 = network (after postInvoke s).
Proof.
  intros s url s1.
  assert (enabled (this s) = true) as E by reflexivity.
  assert (parse signing_response = Some parsed_signing_response) as P
    by (vm_compute; reflexivity).
  assert (prop (Some parsed_signing_response) "jwtAccess"
          = Ok (Some (JStr "tok1"))) as J by reflexivity.
  assert (prop (Some parsed_signing_response) "signedRequest" = Ok url) as U
    by reflexivity.
  assert (forall m, post_error (backend (inspector (this s)))
                               (connected (inspector (this s))) m = None) as Po
    by (intros m; reflexivity).
  assert (step (after postInvoke s) (SigningSettled (Ok signing_response))
          = Some s1) as S1 by (vm_compute; reflexivity).
  split; [exact E|]. split; [exact P|]. split; [exact J|]. split; [exact U|].
  split; [exact Po|]. split; [exact S1|].
  exact (capture_stop_requests s signing_response parsed_signing_response
           (Some (JStr "tok1")) url s1 E P J U Po S1).
Defined.
